(** * Cart store, pricing and validation of the cart-checkout kit

    A shallow embedding of [src/lib/cart-utils.ts],
    [src/context/CartContext.tsx], the totals of
    [src/components/cart/OrderSummary.tsx], the handlers of
    [src/components/cart/CartItem.tsx], of the add-to-cart button and of
    the checkout form, followed by the properties stated about them.

    Conventions.
    - A JavaScript [number], a price or a quantity alike, is an IEEE-754
      binary64 value, modelled by [spec_float] with the operations of
      [SpecFloat] (round to nearest, ties to even). The values a program
      can hold are the well-formed ones, [valid]; a hypothesis of
      well-formedness excludes no binary64 value. A whole number [z] is the
      number [of_Z z].
    - A JavaScript string is a [string]; every [ascii] stands for one code
      unit below 256.
    - The records follow the declarations of [types/cart], which the
      sources print after [src/components/cart/OrderSummary.tsx].
    - A callback handed in by the caller returns or throws; what else it
      does is not part of the model. *)

From Stdlib Require Import ZArith String Ascii List Bool Lia SpecFloat.
From stdpp Require Import base option list strings gmap.

Local Open Scope string_scope.
Local Open Scope list_scope.
Local Open Scope Z_scope.

(** ** Numbers *)

Module Number.

Definition number : Type := spec_float.

Definition prec : Z := 53.
Definition emax : Z := 1024.

(** The binary64 value of an integer. *)
Definition of_Z (z : Z) : number := binary_normalize prec emax z 0 false.

Definition add (x y : number) : number := SFadd prec emax x y.
Definition sub (x y : number) : number := SFsub prec emax x y.
Definition mul (x y : number) : number := SFmul prec emax x y.
Definition div (x y : number) : number := SFdiv prec emax x y.

(** The decimal literal whose value is [n / d], [d] a power of ten: the
    binary64 value nearest to it, as the correctly rounded quotient of two
    integers that binary64 holds exactly. *)
Definition dec (n d : Z) : number := div (of_Z n) (of_Z d).

(** Relational operators of the language: every comparison with NaN is
    false. [x >= y] and [x < y] compare [x] with [y]; [x <= y] and [x > y]
    compare [y] with [x]. *)
Definition ltb (x y : number) : bool :=
  match SFcompare x y with Some Lt => true | _ => false end.
Definition geb (x y : number) : bool :=
  match SFcompare x y with Some Gt | Some Eq => true | _ => false end.
Definition gtb (x y : number) : bool := ltb y x.
Definition leb (x y : number) : bool := geb y x.

(** [x === y] on numbers: NaN equals nothing, the two zeros are equal. *)
Definition eqb (x y : number) : bool :=
  match SFcompare x y with Some Eq => true | _ => false end.

(** [isNaN] *)
Definition isNaN (x : number) : bool :=
  match x with S754_nan => true | _ => false end.

(** [Math.max] of two numbers: NaN when one of them is NaN, else the
    larger one, +0 being larger than -0. *)
Definition Math_max (x y : number) : number :=
  match SFcompare x y with
  | None => S754_nan
  | Some Lt => y
  | Some Gt => x
  | Some Eq => match x with S754_zero true => y | _ => x end
  end.

(** [x ?? y]: the left operand unless it is missing. *)
Definition nullish {A} (x : option A) (y : A) : A :=
  match x with Some v => v | None => y end.

End Number.

Import Number.

Declare Scope num_scope.
Delimit Scope num_scope with num.
Bind Scope num_scope with number.
Infix "+" := add : num_scope.
Infix "-" := sub : num_scope.
Infix "*" := mul : num_scope.
Infix "<?" := ltb : num_scope.
Infix ">=?" := geb : num_scope.
Infix ">?" := gtb : num_scope.
Infix "<=?" := leb : num_scope.
Infix "=?" := eqb : num_scope.
Infix "??" := nullish (at level 45, left associativity).

(** Well-formed binary64 values: a finite one has its canonical exponent
    and is in range. *)
Definition valid (x : number) : bool := valid_binary prec emax x.

(** ** Data model (types/cart) *)

Record ProductVariant : Type := {
  variant_id : string;
  variant_name : string;
  variant_options : list (string * string);
}.

(** [metadata], of unknown content and read by no function, is left out. *)
Record Product : Type := {
  product_id : string;
  product_name : string;
  price : number;
  image : option string;
  description : option string;
  sku : option string;
  variant : option ProductVariant;
}.

Record CartItem : Type := {
  product : Product;
  quantity : number;
  itemKey : string;
}.

Record CartState : Type := {
  items : list CartItem;
  isOpen : bool;
  isLoading : bool;
}.

Inductive CartAction : Type :=
  | ADD_ITEM (product : Product) (quantity : number)
  | REMOVE_ITEM (itemKey : string)
  | UPDATE_QUANTITY (itemKey : string) (quantity : number)
  | CLEAR_CART
  | OPEN_CART
  | CLOSE_CART
  | TOGGLE_CART
  | SET_LOADING (payload : bool)
  | HYDRATE (payload : list CartItem).

(** ** cart-utils: keys and pricing *)

Definition generateItemKey (p : Product) : string :=
  match variant p with
  | Some v => product_id p +:+ "-" +:+ variant_id v
  | None => product_id p
  end.

Definition calculateSubtotal (its : list CartItem) : number :=
  fold_left (fun sum item => (sum + price (product item) * quantity item)%num)
            its (of_Z 0).

Definition calculateItemCount (its : list CartItem) : number :=
  fold_left (fun count item => (count + quantity item)%num) its (of_Z 0).

Definition calculateShipping (subtotal : number) : number :=
  if (subtotal >=? of_Z 50)%num then of_Z 0 else dec 599 100.

Definition calculateTax (subtotal : number) : number :=
  (subtotal * dec 8 100)%num.

Record Totals : Type := {
  t_subtotal : number;
  t_shippingCost : number;
  t_tax : number;
  t_total : number;
}.

Definition calculateTotals (its : list CartItem) : Totals :=
  let subtotal := calculateSubtotal its in
  let shippingCost := calculateShipping subtotal in
  let tax := calculateTax subtotal in
  let total := (subtotal + shippingCost + tax)%num in
  {| t_subtotal := subtotal; t_shippingCost := shippingCost;
     t_tax := tax; t_total := total |}.

(** ** CartContext: the reducer *)

Definition initialState : CartState :=
  {| items := []; isOpen := false; isLoading := true |}.

(** [Array.prototype.findIndex]: the first index whose element satisfies the
    predicate, [-1] when there is none. *)
Fixpoint findIndex_from {A} (pred : A -> bool) (l : list A) (i : Z) : Z :=
  match l with
  | [] => -1
  | x :: l' => if pred x then i else findIndex_from pred l' (i + 1)
  end.

Definition findIndex {A} (pred : A -> bool) (l : list A) : Z :=
  findIndex_from pred l 0.

Definition set_items (s : CartState) (its : list CartItem) : CartState :=
  {| items := its; isOpen := isOpen s; isLoading := isLoading s |}.

Definition set_quantity (item : CartItem) (q : number) : CartItem :=
  {| product := product item; quantity := q; itemKey := itemKey item |}.

Definition cartReducer (state : CartState) (action : CartAction) : CartState :=
  match action with
  | ADD_ITEM p q =>
      let key := generateItemKey p in
      let existingIndex :=
        findIndex (fun item => String.eqb (itemKey item) key) (items state) in
      if 0 <=? existingIndex then
        let i := Z.to_nat existingIndex in
        match items state !! i with
        | Some old =>
            set_items state
              (<[i := set_quantity old (quantity old + q)%num]> (items state))
        | None => state (* not taken: the index comes from [findIndex] *)
        end
      else
        set_items state
          (items state ++ [{| product := p; quantity := q; itemKey := key |}])
  | REMOVE_ITEM key =>
      set_items state
        (List.filter (fun item => negb (String.eqb (itemKey item) key))
                     (items state))
  | UPDATE_QUANTITY key q =>
      if (q <=? of_Z 0)%num then
        set_items state
          (List.filter (fun item => negb (String.eqb (itemKey item) key))
                     (items state))
      else
        set_items state
          (map (fun item =>
                  if String.eqb (itemKey item) key then set_quantity item q
                  else item)
               (items state))
  | CLEAR_CART => set_items state []
  | OPEN_CART =>
      {| items := items state; isOpen := true; isLoading := isLoading state |}
  | CLOSE_CART =>
      {| items := items state; isOpen := false; isLoading := isLoading state |}
  | TOGGLE_CART =>
      {| items := items state; isOpen := negb (isOpen state);
         isLoading := isLoading state |}
  | SET_LOADING b =>
      {| items := items state; isOpen := isOpen state; isLoading := b |}
  | HYDRATE its =>
      {| items := its; isOpen := isOpen state; isLoading := false |}
  end.

(** The provider's convenience methods. [addItem]'s quantity parameter has
    the default value 1, used when the argument is missing. *)
Definition addItem (p : Product) (q : option number) : CartAction :=
  ADD_ITEM p (q ?? of_Z 1).
Definition removeItem (key : string) : CartAction := REMOVE_ITEM key.
Definition updateQuantity (key : string) (q : number) : CartAction :=
  UPDATE_QUANTITY key q.
Definition clearCart : CartAction := CLEAR_CART.

Definition getItem (state : CartState) (key : string) : option CartItem :=
  find (fun item => String.eqb (itemKey item) key) (items state).

(** The snapshot after a sequence of commands. *)
Definition run (actions : list CartAction) (s : CartState) : CartState :=
  fold_left cartReducer actions s.

(** ** OrderSummary: totals with overrides *)

Record SummaryTotals : Type := {
  s_subtotal : number;
  s_shippingCost : number;
  s_tax : number;
  s_discount : number;
  s_total : number;
}.

(** The [totals] memo of [OrderSummary]. The props [shippingCost] and [tax]
    may be missing; [discount] has the default value 0. *)
Definition orderSummaryTotals (its : list CartItem)
    (customShipping customTax discountProp : option number) : SummaryTotals :=
  let discount := discountProp ?? of_Z 0 in
  let calculated := calculateTotals its in
  {| s_subtotal := t_subtotal calculated;
     s_shippingCost := customShipping ?? t_shippingCost calculated;
     s_tax := customTax ?? t_tax calculated;
     s_discount := discount;
     s_total := (t_subtotal calculated
                 + (customShipping ?? t_shippingCost calculated)
                 + (customTax ?? t_tax calculated)
                 - discount)%num |}.

(** ** Regular expressions

    The three patterns of the validators are anchored at both ends ([^] and
    [$], no flags) and use character classes, concatenation, an optional
    group and repetition only, so [test] decides membership of the whole
    string in a regular language. *)

Module Regex.

Inductive regex : Type :=
  | Never
  | Empty
  | Class (f : ascii -> bool)
  | Seq (r1 r2 : regex)
  | Alt (r1 r2 : regex)
  | Star (r : regex).

(** [r+], [r?], [r{n}] and [r{n,}]. *)
Definition Plus (r : regex) : regex := Seq r (Star r).
Definition Opt (r : regex) : regex := Alt r Empty.
Fixpoint Repeat (n : nat) (r : regex) : regex :=
  match n with
  | O => Empty
  | S n' => Seq r (Repeat n' r)
  end.
Definition AtLeast (n : nat) (r : regex) : regex := Seq (Repeat n r) (Star r).

Fixpoint nullable (r : regex) : bool :=
  match r with
  | Never => false
  | Empty => true
  | Class _ => false
  | Seq r1 r2 => nullable r1 && nullable r2
  | Alt r1 r2 => nullable r1 || nullable r2
  | Star _ => true
  end.

(** The words [w] such that [c :: w] matches. *)
Fixpoint deriv (c : ascii) (r : regex) : regex :=
  match r with
  | Never => Never
  | Empty => Never
  | Class f => if f c then Empty else Never
  | Seq r1 r2 =>
      if nullable r1 then Alt (Seq (deriv c r1) r2) (deriv c r2)
      else Seq (deriv c r1) r2
  | Alt r1 r2 => Alt (deriv c r1) (deriv c r2)
  | Star r1 => Seq (deriv c r1) (Star r1)
  end.

Fixpoint accepts (r : regex) (w : list ascii) : bool :=
  match w with
  | [] => nullable r
  | c :: w' => accepts (deriv c r) w'
  end.

(** [/^r$/.test(s)] *)
Definition test (r : regex) (s : string) : bool :=
  accepts r (list_ascii_of_string s).

(** The language of a pattern. *)
Inductive matches : regex -> list ascii -> Prop :=
  | MEmpty : matches Empty []
  | MClass f c : f c = true -> matches (Class f) [c]
  | MSeq r1 r2 w1 w2 :
      matches r1 w1 -> matches r2 w2 -> matches (Seq r1 r2) (w1 ++ w2)
  | MAltL r1 r2 w : matches r1 w -> matches (Alt r1 r2) w
  | MAltR r1 r2 w : matches r2 w -> matches (Alt r1 r2) w
  | MStarNil r : matches (Star r) []
  | MStarApp r w1 w2 :
      matches r w1 -> matches (Star r) w2 -> matches (Star r) (w1 ++ w2).

End Regex.

Import Regex.

(** ** cart-utils: validation *)

Definition ascii_in (lo hi : N) (c : ascii) : bool :=
  (lo <=? N_of_ascii c)%N && (N_of_ascii c <=? hi)%N.

(** [\s] on code units below 256: tab, line feed, vertical tab, form feed,
    carriage return, space and no-break space. *)
Definition is_space (c : ascii) : bool :=
  ascii_in 9 13 c || Ascii.eqb c " " || (N_of_ascii c =? 160)%N.

(** [\d] *)
Definition is_digit (c : ascii) : bool := ascii_in 48 57 c.

Definition chr (a : ascii) : regex := Class (Ascii.eqb a).

(** [[^\s@]] *)
Definition not_space_at (c : ascii) : bool :=
  negb (is_space c || Ascii.eqb c "@").

(** [[\d\s\-+()]] *)
Definition phone_char (c : ascii) : bool :=
  is_digit c || is_space c || Ascii.eqb c "-" || Ascii.eqb c "+"
  || Ascii.eqb c "(" || Ascii.eqb c ")".

(** [/^[^\s@]+@[^\s@]+\.[^\s@]+$/] *)
Definition emailRegex : regex :=
  Seq (Plus (Class not_space_at))
      (Seq (chr "@")
           (Seq (Plus (Class not_space_at))
                (Seq (chr ".") (Plus (Class not_space_at))))).

Definition isValidEmail (email : string) : bool := test emailRegex email.

(** [/^[\d\s\-+()]{7,}$/] *)
Definition phoneRegex : regex := AtLeast 7 (Class phone_char).

Definition isValidPhone (phone : string) : bool := test phoneRegex phone.

(** [/^\d{5}(-\d{4})?$/] *)
Definition usPostalRegex : regex :=
  Seq (Repeat 5 (Class is_digit))
      (Opt (Seq (chr "-") (Repeat 4 (Class is_digit)))).

(** The [country] parameter has the default value ['US']. *)
Definition isValidPostalCode (postalCode : string) (country : option string)
    : bool :=
  if String.eqb (country ?? "US") "US" then test usPostalRegex postalCode
  else (3 <=? Z.of_nat (String.length postalCode)).

(** [String.prototype.trim] *)
Fixpoint trimStart (w : list ascii) : list ascii :=
  match w with
  | [] => []
  | c :: w' => if is_space c then trimStart w' else w
  end.

Definition trim (s : string) : string :=
  string_of_list_ascii
    (rev (trimStart (rev (trimStart (list_ascii_of_string s))))).

(** Truthiness of a string: it is not empty. *)
Definition truthy (s : string) : bool := negb (String.eqb s "").

(** ** Checkout form *)

Record ShippingAddress : Type := {
  firstName : string;
  lastName : string;
  email : string;
  phone : option string;
  address1 : string;
  address2 : option string;
  city : string;
  addr_state : string;
  postalCode : string;
  country : string;
}.

(** A billing address is a shipping address with the flag. *)
Record BillingAddress : Type := {
  billing_address : ShippingAddress;
  sameAsShipping : bool;
}.

Record CheckoutFormValues : Type := {
  v_shipping : ShippingAddress;
  v_billing : BillingAddress;
  v_notes : option string;
}.

Inductive RedirectMethod : Type := GET | POST.

Record PaymentRedirectConfig : Type := {
  url : string;
  method : RedirectMethod;
  params : option (list (string * string));
}.

Record OrderData : Type := {
  order_id : string;
  order_items : list CartItem;
  order_shipping : ShippingAddress;
  order_billing : BillingAddress;
  order_subtotal : number;
  order_shippingCost : number;
  order_tax : number;
  order_total : number;
  order_notes : option string;
  createdAt : string;
}.

(** What a rejected promise carries: an [Error] with its message, or any
    other value. *)
Inductive Thrown : Type :=
  | ThrownError (message : string)
  | ThrownOther.

(** How the promise of the order-creation function settles. *)
Inductive CreateOrderResult : Type :=
  | Resolved (order : OrderData) (paymentRedirect : PaymentRedirectConfig)
  | Rejected (err : Thrown).

Definition CreateOrderFn : Type :=
  CheckoutFormValues -> list CartItem -> Totals -> CreateOrderResult.

(** What a call of a callback does: it returns, or it throws. *)
Inductive CallResult : Type :=
  | Returns
  | Throws (err : Thrown).

(** The props that the submit handler reads. [onOrderCreated] is handed
    the order id, [onError] the error, of which the model keeps the
    message. *)
Record CheckoutFormProps : Type := {
  onCreateOrder : CreateOrderFn;
  onOrderCreated : option (string -> CallResult);
  onError : option (string -> CallResult);
  showBillingAddress : bool;
  showNotes : bool;
}.

(** What [redirectToPayment] uses of the browser: whether [new URL(text)]
    accepts a text (it throws a [TypeError] on a text that is not an
    absolute URL), and the message of that error. *)
Record Platform : Type := {
  url_accepts : string -> bool;
  url_error_message : string -> string;
}.

(** [redirectToPayment]: a GET redirect parses the URL first, which may
    throw; a POST redirect builds a form and submits it. *)
Definition redirectToPayment (env : Platform) (config : PaymentRedirectConfig)
    : CallResult :=
  match method config with
  | GET =>
      if url_accepts env (url config) then Returns
      else Throws (ThrownError (url_error_message env (url config)))
  | POST => Returns
  end.

Definition initialAddress : ShippingAddress :=
  {| firstName := ""; lastName := ""; email := ""; phone := Some "";
     address1 := ""; address2 := Some ""; city := ""; addr_state := "";
     postalCode := ""; country := "US" |}.

Definition initialBilling : BillingAddress :=
  {| billing_address := initialAddress; sameAsShipping := true |}.

(** The component state: the [useState] cells of [CheckoutForm]. *)
Record FormState : Type := {
  shipping : ShippingAddress;
  billing : BillingAddress;
  notes : string;
  isSubmitting : bool;
  errors : gmap string string;
}.

Definition initialForm : FormState :=
  {| shipping := initialAddress; billing := initialBilling; notes := "";
     isSubmitting := false; errors := ∅ |}.

(** The calls that leave the handler, in order. *)
Inductive Effect : Type :=
  | CallCreateOrder (formData : CheckoutFormValues) (its : list CartItem)
                    (totals : Totals)
  | CallOrderCreated (orderId : string)
  | Dispatch (action : CartAction)
  | CallRedirectToPayment (config : PaymentRedirectConfig)
  | CallOnError (message : string).

(** The cart store, the component state and the log of calls. *)
Record World : Type := {
  cart : CartState;
  form : FormState;
  log : list Effect;
}.

(** State passing. *)
Definition M (A : Type) : Type := World -> A * World.

Definition ret {A} (x : A) : M A := fun w => (x, w).
Definition bind {A B} (m : M A) (k : A -> M B) : M B :=
  fun w => let (x, w') := m w in k x w'.

Notation "x <- m ;; k" := (bind m (fun x => k))
  (at level 100, m at next level, right associativity).
Notation "m ;; k" := (bind m (fun _ => k))
  (at level 100, right associativity).

Definition with_errors (w : World) (e : gmap string string) : World :=
  {| cart := cart w;
     form := {| shipping := shipping (form w); billing := billing (form w);
                notes := notes (form w); isSubmitting := isSubmitting (form w);
                errors := e |};
     log := log w |}.

Definition setErrors (e : gmap string string) : M unit := fun w =>
  (tt, with_errors w e).

Definition setIsSubmitting (b : bool) : M unit := fun w =>
  (tt, {| cart := cart w;
          form := {| shipping := shipping (form w); billing := billing (form w);
                     notes := notes (form w);
                     isSubmitting := b; errors := errors (form w) |};
          log := log w |}).

Definition emit (e : Effect) : M unit := fun w =>
  (tt, {| cart := cart w; form := form w; log := log w ++ [e] |}).

(** [dispatch]: the store takes the action through the reducer. *)
Definition dispatch (a : CartAction) : M unit := fun w =>
  (tt, {| cart := cartReducer (cart w) a; form := form w;
          log := log w ++ [Dispatch a] |}).

(** [callback?.(arg)]: called when present, and then it returns or
    throws. *)
Definition optional_call (callback : option (string -> CallResult))
    (arg : string) (e : Effect) : M CallResult :=
  match callback with
  | Some f => emit e ;; ret (f arg)
  | None => ret Returns
  end.

(** [if (cond) newErrors[key] = message] *)
Definition set_if (cond : bool) (key message : string)
    (newErrors : gmap string string) : gmap string string :=
  if cond then <[key := message]> newErrors else newErrors.

Definition blank (s : string) : bool := negb (truthy (trim s)).

(** The [newErrors] object that [validateForm] builds. *)
Definition validation_errors (props : CheckoutFormProps)
    (shipping : ShippingAddress) (billing : BillingAddress)
    : gmap string string :=
  let e : gmap string string := ∅ in
  let e := set_if (blank (firstName shipping))
             "shipping.firstName" "First name is required" e in
  let e := set_if (blank (lastName shipping))
             "shipping.lastName" "Last name is required" e in
  let e := if blank (email shipping)
           then <["shipping.email" := "Email is required"]> e
           else set_if (negb (isValidEmail (email shipping)))
                  "shipping.email" "Please enter a valid email" e in
  let e := set_if (match phone shipping with
                   | Some p => truthy p && negb (isValidPhone p)
                   | None => false
                   end)
             "shipping.phone" "Please enter a valid phone number" e in
  let e := set_if (blank (address1 shipping))
             "shipping.address1" "Address is required" e in
  let e := set_if (blank (city shipping))
             "shipping.city" "City is required" e in
  let e := set_if (blank (addr_state shipping))
             "shipping.state" "State is required" e in
  let e := if blank (postalCode shipping)
           then <["shipping.postalCode" := "Postal code is required"]> e
           else set_if (negb (isValidPostalCode (postalCode shipping)
                                                (Some (country shipping))))
                  "shipping.postalCode" "Please enter a valid postal code" e in
  if showBillingAddress props && negb (sameAsShipping billing) then
    let b := billing_address billing in
    let e := set_if (blank (firstName b))
               "billing.firstName" "First name is required" e in
    let e := set_if (blank (lastName b))
               "billing.lastName" "Last name is required" e in
    let e := if blank (email b)
             then <["billing.email" := "Email is required"]> e
             else set_if (negb (isValidEmail (email b)))
                    "billing.email" "Please enter a valid email" e in
    let e := set_if (blank (address1 b))
               "billing.address1" "Address is required" e in
    let e := set_if (blank (city b))
               "billing.city" "City is required" e in
    let e := set_if (blank (addr_state b))
               "billing.state" "State is required" e in
    if blank (postalCode b)
    then <["billing.postalCode" := "Postal code is required"]> e
    else set_if (negb (isValidPostalCode (postalCode b) (Some (country b))))
           "billing.postalCode" "Please enter a valid postal code" e
  else e.

Definition validateForm (props : CheckoutFormProps) : M bool := fun w =>
  let newErrors :=
    validation_errors props (shipping (form w)) (billing (form w)) in
  (_ <- setErrors newErrors ;;
   ret (Nat.eqb (size newErrors) 0)) w.

(** The [formData] that the handler hands to the order-creation function. *)
Definition formData_of (props : CheckoutFormProps) (f : FormState)
    : CheckoutFormValues :=
  let finalBilling :=
    if sameAsShipping (billing f)
    then {| billing_address := shipping f; sameAsShipping := true |}
    else billing f in
  {| v_shipping := shipping f; v_billing := finalBilling;
     v_notes := if showNotes props then Some (notes f) else None |}.

(** [err instanceof Error ? err : new Error('Failed to create order')],
    then its message. *)
Definition error_message (err : Thrown) : string :=
  match err with
  | ThrownError message => message
  | ThrownOther => "Failed to create order"
  end.

(** The [catch] block: whatever was thrown inside [try] ends here. When
    [onError] throws in its turn, the last statement is not reached. *)
Definition handleSubmit_catch (props : CheckoutFormProps) (err : Thrown)
    : M unit :=
  setErrors {[ "form" := error_message err ]} ;;
  r <- optional_call (onError props) (error_message err)
                     (CallOnError (error_message err)) ;;
  match r with
  | Returns => setIsSubmitting false
  | Throws _ => ret tt
  end.

(** The submit handler. The order-creation function, [onOrderCreated],
    [clearCart] and [redirectToPayment] all run inside [try]: a rejected
    promise and a throw of either call end in the [catch] block. *)
Definition handleSubmit (env : Platform) (props : CheckoutFormProps) : M unit :=
  fun w =>
  let its := items (cart w) in
  let f := form w in
  (valid <- validateForm props ;;
   if negb valid then ret tt
   else if Nat.eqb (length its) 0 then
     setErrors {[ "form" := "Your cart is empty" ]}
   else
     setIsSubmitting true ;;
     setErrors ∅ ;;
     let totals := calculateTotals its in
     let formData := formData_of props f in
     emit (CallCreateOrder formData its totals) ;;
     match onCreateOrder props formData its totals with
     | Resolved order paymentRedirect =>
         r <- optional_call (onOrderCreated props) (order_id order)
                            (CallOrderCreated (order_id order)) ;;
         match r with
         | Throws err => handleSubmit_catch props err
         | Returns =>
             dispatch clearCart ;;
             emit (CallRedirectToPayment paymentRedirect) ;;
             match redirectToPayment env paymentRedirect with
             | Throws err => handleSubmit_catch props err
             | Returns => ret tt
             end
         end
     | Rejected err => handleSubmit_catch props err
     end) w.

(** The [disabled] attribute of the submit button. *)
Definition submitDisabled (w : World) : bool :=
  isSubmitting (form w) || Nat.eqb (length (items (cart w))) 0.

(** ** Vocabulary of the properties *)

Definition has_key (key : string) (item : CartItem) : bool :=
  String.eqb (itemKey item) key.

Definition keys (its : list CartItem) : list string := map itemKey its.

(** A well-formed number that is at least one (so it is not NaN). *)
Definition at_least_one (q : number) : Prop :=
  valid q = true /\ (q >=? of_Z 1)%num = true.

(** The quantities of a line list are all at least one. *)
Definition quantities_positive (its : list CartItem) : Prop :=
  Forall (fun item => at_least_one (quantity item)) its.

(** A command whose own data respects the quantity invariant: ADD_ITEM adds
    at least one, UPDATE_QUANTITY sets a quantity that is at most zero (it
    removes the line) or at least one, HYDRATE restores lines of quantity
    at least one. *)
Definition quantity_respecting (a : CartAction) : Prop :=
  match a with
  | ADD_ITEM _ q => at_least_one q
  | UPDATE_QUANTITY _ q =>
      valid q = true /\
      ((q <=? of_Z 0)%num = true \/ (q >=? of_Z 1)%num = true)
  | HYDRATE its => quantities_positive its
  | _ => True
  end.

(** A command whose own data respects key uniqueness: only HYDRATE carries
    a line list. *)
Definition payload_distinct (a : CartAction) : Prop :=
  match a with
  | HYDRATE its => NoDup (keys its)
  | _ => True
  end.

(** Two products that carry the same (productId, variantId) pair. *)
Definition same_pair (p p' : Product) : Prop :=
  product_id p' = product_id p /\
  option_map variant_id (variant p') = option_map variant_id (variant p).

(** The AddItem commands of a list of (product, quantity) pairs, in order. *)
Definition add_commands (pqs : list (Product * number)) : list CartAction :=
  map (fun pq => addItem (fst pq) (Some (snd pq))) pqs.

(** The sum of a first quantity and the quantities that follow, as the
    language adds them: from the left, each sum rounded to binary64. *)
Definition sum_quantities (q : number) (rest : list (Product * number))
    : number :=
  fold_left (fun acc pq => (acc + snd pq)%num) rest q.

(** The sum of whole numbers. *)
Definition sum_Z (zs : list Z) : Z := fold_right Z.add 0 zs.

(** The lines hold the whole numbers [zs], none of them negative, as their
    quantities. *)
Definition whole_quantities (its : list CartItem) (zs : list Z) : Prop :=
  Forall2 (fun item z => quantity item = of_Z z /\ 0 <= z) its zs.

(** The binary64 inputs of the pricing functions, the prices and the
    quantities of the lines, are well-formed. *)
Definition lines_valid (its : list CartItem) : Prop :=
  Forall (fun item => valid (price (product item)) = true /\
                      valid (quantity item) = true) its.

Definition valid_opt (o : option number) : Prop :=
  match o with
  | Some x => valid x = true
  | None => True
  end.

(** A non-empty run of characters that are neither whitespace nor "@". *)
Definition plain_part (w : list ascii) : Prop :=
  w <> [] /\ forallb not_space_at w = true.

Definition plain_string (s : string) : Prop :=
  plain_part (list_ascii_of_string s).

(** The shape as the specification words it: no whitespace anywhere, at
    least one "@", and at least one "." somewhere after an "@". *)
Fixpoint dot_after_at (w : list ascii) : bool :=
  match w with
  | [] => false
  | c :: w' =>
      (Ascii.eqb c "@" && existsb (Ascii.eqb ".") w') || dot_after_at w'
  end.

Definition claimed_email_shape (s : string) : bool :=
  let w := list_ascii_of_string s in
  forallb (fun c => negb (is_space c)) w && dot_after_at w.

(** The calls that one run of the handler adds to the log. *)
Definition submit_effects (env : Platform) (props : CheckoutFormProps)
    (w : World) : list Effect :=
  drop (length (log w)) (log (snd (handleSubmit env props w))).

(** The effect that an optional callback leaves in the log. *)
Definition call_of (callback : option (string -> CallResult)) (e : Effect)
    : list Effect :=
  match callback with Some _ => [e] | None => [] end.

(** What an optional callback does on an argument; a missing one does
    nothing. *)
Definition result_of (callback : option (string -> CallResult))
    (arg : string) : CallResult :=
  match callback with Some f => f arg | None => Returns end.

(** How a submission that has called the order-creation function ends:
    with the redirect made, or in the [catch] block, before or after the
    cart was cleared, with what was thrown. *)
Inductive SubmitOutcome : Type :=
  | Redirected
  | Failed (cleared : bool) (err : Thrown).

Definition submit_outcome (env : Platform) (props : CheckoutFormProps)
    (result : CreateOrderResult) : SubmitOutcome :=
  match result with
  | Rejected err => Failed false err
  | Resolved order paymentRedirect =>
      match result_of (onOrderCreated props) (order_id order) with
      | Throws err => Failed false err
      | Returns =>
          match redirectToPayment env paymentRedirect with
          | Throws err => Failed true err
          | Returns => Redirected
          end
      end
  end.

(** The calls that follow the call of the order-creation function. *)
Definition after_call_effects (env : Platform) (props : CheckoutFormProps)
    (result : CreateOrderResult) : list Effect :=
  match result with
  | Rejected _ => []
  | Resolved order paymentRedirect =>
      call_of (onOrderCreated props) (CallOrderCreated (order_id order)) ++
      match result_of (onOrderCreated props) (order_id order) with
      | Throws _ => []
      | Returns => [Dispatch clearCart; CallRedirectToPayment paymentRedirect]
      end
  end ++
  match submit_outcome env props result with
  | Redirected => []
  | Failed _ err => call_of (onError props) (CallOnError (error_message err))
  end.

(** ** Sample inputs *)

(** The product of the usage example: [{ id: '1', name: 'Product',
    price: 29.99 }]. *)
Definition sample_product : Product :=
  {| product_id := "1"; product_name := "Product"; price := dec 2999 100;
     image := None; description := None; sku := None; variant := None |}.

(** A product without variant whose id holds a hyphen, and a product with a
    variant, whose ids and names differ. *)
Definition product_a_b_plain : Product :=
  {| product_id := "a-b"; product_name := "Plain"; price := dec 1000 100;
     image := None; description := None; sku := None; variant := None |}.

Definition product_a_variant_b : Product :=
  {| product_id := "a"; product_name := "With variant"; price := dec 2000 100;
     image := None; description := None; sku := None;
     variant := Some {| variant_id := "b"; variant_name := "B";
                        variant_options := [("size", "M")] |} |}.

(** The cart of the scenario: one line of the 29.99 product, quantity 1. *)
Definition scenario_cart : CartState :=
  {| items := [{| product := sample_product; quantity := of_Z 1;
                  itemKey := "1" |}];
     isOpen := false; isLoading := false |}.

Definition empty_cart : CartState :=
  {| items := []; isOpen := false; isLoading := false |}.

Definition valid_shipping : ShippingAddress :=
  {| firstName := "Ada"; lastName := "Lovelace"; email := "a@b.com";
     phone := Some ""; address1 := "1 Main St"; address2 := Some "";
     city := "Springfield"; addr_state := "IL"; postalCode := "12345";
     country := "US" |}.

Definition valid_form : FormState :=
  {| shipping := valid_shipping; billing := initialBilling; notes := "";
     isSubmitting := false; errors := ∅ |}.

(** An order-creation function whose promise always rejects. *)
Definition rejecting_props : CheckoutFormProps :=
  {| onCreateOrder := fun _ _ _ => Rejected (ThrownError "Service unavailable");
     onOrderCreated := Some (fun _ => Returns);
     onError := Some (fun _ => Returns);
     showBillingAddress := true; showNotes := true |}.

(** An order-creation function whose promise resolves with an order built
    from what it was given. *)
Definition resolving_props : CheckoutFormProps :=
  {| onCreateOrder := fun formData its totals =>
       Resolved
         {| order_id := "ORD-1"; order_items := its;
            order_shipping := v_shipping formData;
            order_billing := v_billing formData;
            order_subtotal := t_subtotal totals;
            order_shippingCost := t_shippingCost totals;
            order_tax := t_tax totals; order_total := t_total totals;
            order_notes := v_notes formData;
            createdAt := "2024-01-01T00:00:00.000Z" |}
         {| url := "https://pay.example/checkout"; method := POST;
            params := Some [("order", "ORD-1")] |};
     onOrderCreated := Some (fun _ => Returns);
     onError := Some (fun _ => Returns);
     showBillingAddress := true; showNotes := true |}.

(** An order-creation function that answers with a GET redirect to a path
    of the site itself. *)
Definition relative_redirect_props : CheckoutFormProps :=
  {| onCreateOrder := fun formData its totals =>
       match onCreateOrder resolving_props formData its totals with
       | Resolved order _ =>
           Resolved order {| url := "/payment/process"; method := GET;
                             params := None |}
       | Rejected err => Rejected err
       end;
     onOrderCreated := Some (fun _ => Returns);
     onError := Some (fun _ => Returns);
     showBillingAddress := true; showNotes := true |}.

(** A browser that accepts absolute http(s) URLs only; the sample needs no
    more than that it refuses a path. *)
Definition sample_platform : Platform :=
  {| url_accepts := fun text => String.prefix "https://" text;
     url_error_message := fun _ => "Invalid URL" |}.

(** ** useCart *)

(** The [isEmpty] field of the hook. *)
Definition isEmpty (s : CartState) : bool := Nat.eqb (length (items s)) 0.

(** The [itemCount] and [subtotal] values of the provider. *)
Definition itemCount (s : CartState) : number :=
  calculateItemCount (items s).
Definition subtotal (s : CartState) : number := calculateSubtotal (items s).

(** The commands that act on the lines, and those that act on the drawer. *)
Definition is_line_command (a : CartAction) : bool :=
  match a with
  | ADD_ITEM _ _ | REMOVE_ITEM _ | UPDATE_QUANTITY _ _ | CLEAR_CART
  | HYDRATE _ => true
  | _ => false
  end.

Definition is_drawer_command (a : CartAction) : bool :=
  match a with
  | OPEN_CART | CLOSE_CART | TOGGLE_CART => true
  | _ => false
  end.

(** A string of exactly [n] decimal digits. *)
Definition digit_string (n : nat) (s : string) : Prop :=
  String.length s = n /\
  forallb is_digit (list_ascii_of_string s) = true.

(** A list of characters that does not start with whitespace. *)
Definition no_leading_space (w : list ascii) : Prop :=
  match w with
  | [] => True
  | c :: _ => is_space c = false
  end.

(** A string with at least one character that is not whitespace. *)
Definition has_text (s : string) : bool :=
  existsb (fun c => negb (is_space c)) (list_ascii_of_string s).

(** What [validateForm] asks of the shipping address and of a billing
    address that is not the shipping address. *)
Definition shipping_passes (a : ShippingAddress) : bool :=
  has_text (firstName a) && has_text (lastName a)
  && isValidEmail (email a)
  && match phone a with
     | Some p => negb (truthy p) || isValidPhone p
     | None => true
     end
  && has_text (address1 a) && has_text (city a) && has_text (addr_state a)
  && has_text (postalCode a)
  && isValidPostalCode (postalCode a) (Some (country a)).

Definition billing_passes (a : ShippingAddress) : bool :=
  has_text (firstName a) && has_text (lastName a)
  && isValidEmail (email a)
  && has_text (address1 a) && has_text (city a) && has_text (addr_state a)
  && has_text (postalCode a)
  && isValidPostalCode (postalCode a) (Some (country a)).

(** ** Checkout form: field edits *)

(** The keys of [ShippingAddress]. *)
Inductive AddressField : Type :=
  | F_firstName | F_lastName | F_email | F_phone | F_address1 | F_address2
  | F_city | F_state | F_postalCode | F_country.

Definition field_name (f : AddressField) : string :=
  match f with
  | F_firstName => "firstName"
  | F_lastName => "lastName"
  | F_email => "email"
  | F_phone => "phone"
  | F_address1 => "address1"
  | F_address2 => "address2"
  | F_city => "city"
  | F_state => "state"
  | F_postalCode => "postalCode"
  | F_country => "country"
  end.

(** [a[field]] *)
Definition address_field (a : ShippingAddress) (f : AddressField)
    : option string :=
  match f with
  | F_firstName => Some (firstName a)
  | F_lastName => Some (lastName a)
  | F_email => Some (email a)
  | F_phone => phone a
  | F_address1 => Some (address1 a)
  | F_address2 => address2 a
  | F_city => Some (city a)
  | F_state => Some (addr_state a)
  | F_postalCode => Some (postalCode a)
  | F_country => Some (country a)
  end.

(** [{ ...prev, [field]: value }] *)
Definition set_address_field (a : ShippingAddress) (f : AddressField)
    (v : string) : ShippingAddress :=
  {| firstName := match f with F_firstName => v | _ => firstName a end;
     lastName := match f with F_lastName => v | _ => lastName a end;
     email := match f with F_email => v | _ => email a end;
     phone := match f with F_phone => Some v | _ => phone a end;
     address1 := match f with F_address1 => v | _ => address1 a end;
     address2 := match f with F_address2 => Some v | _ => address2 a end;
     city := match f with F_city => v | _ => city a end;
     addr_state := match f with F_state => v | _ => addr_state a end;
     postalCode := match f with F_postalCode => v | _ => postalCode a end;
     country := match f with F_country => v | _ => country a end |}.

Definition with_form (w : World) (f : FormState) : World :=
  {| cart := cart w; form := f; log := log w |}.

(** [setErrors((prev) => { const newErrors = { ...prev };
    delete newErrors[key]; delete newErrors.form; return newErrors })] *)
Definition clearFieldError (key : string) : M unit := fun w =>
  (tt, with_errors w (delete "form" (delete key (errors (form w))))).

Definition updateShipping (field : AddressField) (value : string) : M unit :=
  (fun w =>
     (tt, with_form w
            {| shipping := set_address_field (shipping (form w)) field value;
               billing := billing (form w); notes := notes (form w);
               isSubmitting := isSubmitting (form w);
               errors := errors (form w) |})) ;;
  clearFieldError ("shipping." +:+ field_name field).

(** A key of [BillingAddress] with a value for it: a text for an address
    field, a boolean for the flag. *)
Inductive BillingEdit : Type :=
  | EditField (field : AddressField) (value : string)
  | EditSameAsShipping (value : bool).

Definition billing_edit_name (edit : BillingEdit) : string :=
  match edit with
  | EditField f _ => field_name f
  | EditSameAsShipping _ => "sameAsShipping"
  end.

Definition apply_billing_edit (b : BillingAddress) (edit : BillingEdit)
    : BillingAddress :=
  match edit with
  | EditField f v =>
      {| billing_address := set_address_field (billing_address b) f v;
         sameAsShipping := sameAsShipping b |}
  | EditSameAsShipping v =>
      {| billing_address := billing_address b; sameAsShipping := v |}
  end.

Definition updateBilling (edit : BillingEdit) : M unit :=
  (fun w =>
     (tt, with_form w
            {| shipping := shipping (form w);
               billing := apply_billing_edit (billing (form w)) edit;
               notes := notes (form w);
               isSubmitting := isSubmitting (form w);
               errors := errors (form w) |})) ;;
  clearFieldError ("billing." +:+ billing_edit_name edit).

(** A call of the order-creation function, in the log. *)
Definition is_create_order (e : Effect) : bool :=
  match e with
  | CallCreateOrder _ _ _ => true
  | _ => false
  end.

(** ** CartItem: the quantity controls *)

(** The value of a decimal digit. *)
Definition digit_value (c : ascii) : Z := Z.of_N (N_of_ascii c) - 48.

(** The value of the longest prefix of decimal digits, with the number of
    digits read. *)
Fixpoint read_digits (w : list ascii) (acc : Z) (n : nat) : Z * nat :=
  match w with
  | c :: w' =>
      if is_digit c then read_digits w' (10 * acc + digit_value c) (S n)
      else (acc, n)
  | [] => (acc, n)
  end.

(** [parseInt(s, 10)]: leading whitespace is skipped, one sign is read, then
    the longest run of digits. The result is NaN when no digit is read, and
    else the binary64 value nearest to the whole number read, with its
    sign: -0 for "-0", an infinity for a run of digits too long for
    binary64. (An implementation may read the digits after the twentieth
    as zeros; the model reads them all.) *)
Definition parseInt10 (s : string) : number :=
  let w := trimStart (list_ascii_of_string s) in
  let '(negative, w) :=
    match w with
    | c :: w' =>
        if Ascii.eqb c "-" then (true, w')
        else if Ascii.eqb c "+" then (false, w')
        else (false, w)
    | [] => (false, w)
    end in
  let '(value, n) := read_digits w 0 0 in
  if Nat.eqb n 0 then S754_nan
  else if negative then SFopp (of_Z value) else of_Z value.

(** The handlers of a rendered line, as the actions they dispatch. *)
Definition handleIncrement (item : CartItem) : list CartAction :=
  [updateQuantity (itemKey item) (quantity item + of_Z 1)%num].

Definition handleDecrement (item : CartItem) : list CartAction :=
  if (quantity item >? of_Z 1)%num
  then [updateQuantity (itemKey item) (quantity item - of_Z 1)%num]
  else [].

Definition handleRemove (item : CartItem) : list CartAction :=
  [removeItem (itemKey item)].

Definition handleQuantityChange (item : CartItem) (text : string)
    : list CartAction :=
  let value := parseInt10 text in
  if negb (isNaN value) && (value >? of_Z 0)%num
  then [updateQuantity (itemKey item) value]
  else [].

(** ** AddToCartButton *)

(** The props that the handlers and the [disabled] attributes read. *)
Record AddToCartButtonProps : Type := {
  btn_product : Product;
  btn_quantity : option number;
  btn_showQuantitySelector : option bool;
  btn_openCartOnAdd : option bool;
  btn_onAdd : option (Product -> number -> CallResult);
  btn_disabled : option bool;
}.

(** The [quantity] state starts at the [quantity] prop, 1 when missing. *)
Definition initialQuantity (props : AddToCartButtonProps) : number :=
  btn_quantity props ?? of_Z 1.

Definition incrementQuantity (q : number) : number := (q + of_Z 1)%num.
Definition decrementQuantity (q : number) : number :=
  Math_max (of_Z 1) (q - of_Z 1)%num.

(** The cart store, the two [useState] cells of the button, and the number
    of 300 ms timers that have been set and have not fired yet. *)
Record ButtonState : Type := {
  b_cart : CartState;
  b_quantity : number;
  b_isAdding : bool;
  b_timers : nat;
}.

(** [handleAddToCart]. [openCartOnAdd] defaults to true. When [onAdd]
    throws, the handler ends there: the drawer is not opened and no timer
    is set, so [isAdding] stays true. *)
Definition handleAddToCart (props : AddToCartButtonProps) (st : ButtonState)
    : ButtonState :=
  let q := b_quantity st in
  let added := cartReducer (b_cart st) (addItem (btn_product props) (Some q)) in
  match match btn_onAdd props with
        | Some f => f (btn_product props) q
        | None => Returns
        end with
  | Throws _ =>
      {| b_cart := added; b_quantity := q; b_isAdding := true;
         b_timers := b_timers st |}
  | Returns =>
      {| b_cart := if btn_openCartOnAdd props ?? true
                   then cartReducer added OPEN_CART else added;
         b_quantity := q; b_isAdding := true;
         b_timers := S (b_timers st) |}
  end.

(** What can happen to a rendered button: a click on one of its three
    controls, or one of its timers firing. *)
Inductive ButtonEvent : Type :=
  | ClickIncrement
  | ClickDecrement
  | ClickAdd
  | TimerFires.

(** The state after an event. A click on a control that is not rendered
    ([showQuantitySelector], false by default) or that is disabled does
    nothing: the minus control is disabled when [quantity <= 1] or
    [disabled], the plus control when [disabled], the button when
    [disabled] or [isAdding]. *)
Definition button_step (props : AddToCartButtonProps)
    (st : ButtonState) (ev : ButtonEvent) : ButtonState :=
  let disabled := btn_disabled props ?? false in
  let selector := btn_showQuantitySelector props ?? false in
  let q := b_quantity st in
  match ev with
  | ClickIncrement =>
      if selector && negb disabled
      then {| b_cart := b_cart st; b_quantity := incrementQuantity q;
              b_isAdding := b_isAdding st; b_timers := b_timers st |}
      else st
  | ClickDecrement =>
      if selector && negb ((q <=? of_Z 1)%num || disabled)
      then {| b_cart := b_cart st; b_quantity := decrementQuantity q;
              b_isAdding := b_isAdding st; b_timers := b_timers st |}
      else st
  | ClickAdd =>
      if negb (disabled || b_isAdding st) then handleAddToCart props st
      else st
  | TimerFires =>
      match b_timers st with
      | S n => {| b_cart := b_cart st; b_quantity := q;
                  b_isAdding := false; b_timers := n |}
      | O => st
      end
  end.

Definition button_start (props : AddToCartButtonProps) (c : CartState)
    : ButtonState :=
  {| b_cart := c; b_quantity := initialQuantity props;
     b_isAdding := false; b_timers := 0 |}.

Definition button_run (props : AddToCartButtonProps)
    (events : list ButtonEvent) (c : CartState) : ButtonState :=
  fold_left (button_step props) events (button_start props c).

(** ** CartProvider: restore and persist *)

(** What [JSON.parse] does on a stored text: it throws, it returns a list
    of lines, or it returns a value that is no list of lines ([null], a
    number, an object, an array of other things). *)
Inductive Parsed : Type :=
  | ParseThrows
  | ParsedLines (its : list CartItem)
  | ParsedOther.

(** What the provider uses of the browser: [JSON.parse] on a stored text,
    [JSON.stringify] on a line list, whether [localStorage.getItem] can be
    called, and whether the write of a text under a key goes through
    ([false] when [localStorage.setItem] throws). *)
Record Browser : Type := {
  json_parse : string -> Parsed;
  json_stringify : list CartItem -> string;
  storage_readable : bool;
  setItem_ok : string -> string -> bool;
}.

(** The action that the restore effect dispatches on mount. The result of
    [JSON.parse] is cast to a line list and not checked: a value that is
    not one is dispatched as the payload of HYDRATE all the same. That is
    no action of the cart type: [None]. *)
Definition hydrateEffect (env : Browser) (storageKey : string)
    (store : gmap string string) : option CartAction :=
  if storage_readable env then
    match store !! storageKey with
    | Some stored =>
        if truthy stored then
          match json_parse env stored with
          | ParsedLines its => Some (HYDRATE its)
          | ParseThrows => Some (SET_LOADING false)
          | ParsedOther => None
          end
        else Some (SET_LOADING false)
    | None => Some (SET_LOADING false)
    end
  else Some (SET_LOADING false).

(** The persist effect on a state: the storage after it. *)
Definition persistEffect (env : Browser) (storageKey : string)
    (s : CartState) (store : gmap string string) : gmap string string :=
  if negb (isLoading s) then
    let text := json_stringify env (items s) in
    if setItem_ok env storageKey text then <[storageKey := text]> store
    else store
  else store.

(** Whether an action changes a dependency of the persist effect: a line
    command returns a new line array (a HYDRATE payload is taken to be an
    array of its own), SET_LOADING changes the flag when its value differs,
    the drawer commands keep both. *)
Definition persist_runs (s : CartState) (a : CartAction) : bool :=
  match a with
  | SET_LOADING b => negb (Bool.eqb b (isLoading s))
  | _ => is_line_command a
  end.

(** Mounting the provider: both effects run on the initial state, the
    restore effect dispatches, and the persist effect runs again on the
    state that results. [None]: the reducer was handed a value that is no
    line list and has installed it as the lines, so the provider holds no
    cart state any more and is not followed further (the render that comes
    next calls [calculateItemCount] and [calculateSubtotal] on that value;
    on [null], a number or an object the first of them throws). *)
Definition mount (env : Browser) (storageKey : string)
    (store : gmap string string)
    : option (CartState * gmap string string) :=
  let store1 := persistEffect env storageKey initialState store in
  match hydrateEffect env storageKey store with
  | Some action =>
      let s1 := cartReducer initialState action in
      Some (s1, persistEffect env storageKey s1 store1)
  | None => None
  end.

(** One dispatch with the render that follows it. *)
Definition provider_step (env : Browser) (storageKey : string)
    (st : CartState * gmap string string) (a : CartAction)
    : CartState * gmap string string :=
  let '(s, store) := st in
  let s' := cartReducer s a in
  (s', if persist_runs s a then persistEffect env storageKey s' store
       else store).

(** A session: the mount, then the dispatches in order. *)
Definition session (env : Browser) (storageKey : string)
    (store : gmap string string) (actions : list CartAction)
    : option (CartState * gmap string string) :=
  match mount env storageKey store with
  | Some st => Some (fold_left (provider_step env storageKey) actions st)
  | None => None
  end.

(** A browser for the samples. Its storage accepts every write. Its JSON
    functions know two carts, one line of the sample product with quantity
    1 and with quantity 3: they are written as "[1]" and "[3]" and read
    back from these texts; "null" parses to a value that is no line list,
    and any other text does not parse. *)
Definition sample_lines (q : Z) : list CartItem :=
  [{| product := sample_product; quantity := of_Z q; itemKey := "1" |}].

Definition sample_browser : Browser :=
  {| json_parse := fun text =>
       if String.eqb text "[1]" then ParsedLines (sample_lines 1)
       else if String.eqb text "[3]" then ParsedLines (sample_lines 3)
       else if String.eqb text "null" then ParsedOther
       else ParseThrows;
     json_stringify := fun its =>
       match its with
       | [item] =>
           if (quantity item =? of_Z 1)%num then "[1]"
           else if (quantity item =? of_Z 3)%num then "[3]"
           else "[?]"
       | _ => "[]"
       end;
     storage_readable := true;
     setItem_ok := fun _ _ => true |}.

(** ** Vocabulary of the pricing properties *)

(** Neither an infinity nor NaN. *)
Definition is_finite (x : number) : bool :=
  match x with
  | S754_zero _ | S754_finite _ _ _ => true
  | S754_infinity _ | S754_nan => false
  end.

(** The value of a finite number in units of 2^-1074, the spacing of the
    smallest binary64 numbers: a whole number for every well-formed
    value. *)
Definition scaled (x : number) : Z :=
  match x with
  | S754_finite s m e => cond_Zopp s (Zpos m * 2 ^ (e + 1074))
  | _ => 0
  end.

(** A line as a shop produces it: a price and a quantity that are finite
    and not negative. *)
Definition priced_line (item : CartItem) : Prop :=
  valid (price (product item)) = true /\
  is_finite (price (product item)) = true /\
  (price (product item) >=? of_Z 0)%num = true /\
  valid (quantity item) = true /\
  is_finite (quantity item) = true /\
  (quantity item >=? of_Z 0)%num = true.

(** Not NaN and not below zero; a zero of either sign counts. *)
Definition not_negative (x : number) : Prop :=
  (exists s, x = S754_zero s) \/ x = S754_infinity false \/
  exists m e, x = S754_finite false m e.

(** * Properties *)

(** ** Binary64 arithmetic

    What the properties need of [SpecFloat]: the results of [+] and [*] are
    well-formed binary64 values; rounding is exact on the values that
    binary64 holds and never crosses one; whole numbers up to 2^53 add and
    subtract exactly; the order of the language is the order of the
    values. *)

Section Binary64.

Lemma fexp_unfold (e : Z) : SpecFloat.fexp prec emax e = Z.max (e - 53) (-1074).
Proof. reflexivity. Qed.

Lemma digits2_pos_size (p : positive) : digits2_pos p = Pos.size p.
Proof. induction p; simpl; congruence. Qed.

Lemma digits2_pos_log2 (p : positive) :
  Zpos (digits2_pos p) = Z.log2 (Zpos p) + 1.
Proof.
  destruct p as [p|p|]; simpl; rewrite ?digits2_pos_size; lia.
Qed.

Lemma Zdigits2_log2 (m : Z) : 0 < m -> Zdigits2 m = Z.log2 m + 1.
Proof.
  destruct m as [|p|p]; try lia. intros _. apply digits2_pos_log2.
Qed.

Lemma iter_pos_nat {A} (f : A -> A) (p : positive) (x : A) :
  SpecFloat.iter_pos f p x = Nat.iter (Pos.to_nat p) f x.
Proof.
  revert x. induction p as [p IH|p IH|]; intros x.
  - change (SpecFloat.iter_pos f p~1 x)
      with (SpecFloat.iter_pos f p (SpecFloat.iter_pos f p (f x))).
    rewrite !IH, Pos2Nat.inj_xI, <- Nat.iter_add, <- Nat.iter_succ_r.
    f_equal. lia.
  - change (SpecFloat.iter_pos f p~0 x)
      with (SpecFloat.iter_pos f p (SpecFloat.iter_pos f p x)).
    rewrite !IH, Pos2Nat.inj_xO, <- Nat.iter_add. f_equal. lia.
  - reflexivity.
Qed.

Lemma shr_1_m (mrs : shr_record) :
  0 <= shr_m mrs -> shr_m (shr_1 mrs) = Z.shiftr (shr_m mrs) 1.
Proof.
  destruct mrs as [m r s]. simpl. intros H.
  destruct m as [|[p|p|]|p]; try reflexivity. lia.
Qed.

Lemma shr_iter_m (n : nat) (mrs : shr_record) :
  0 <= shr_m mrs ->
  shr_m (Nat.iter n shr_1 mrs) = Z.shiftr (shr_m mrs) (Z.of_nat n).
Proof.
  intros H. induction n as [|n IH].
  - simpl. symmetry. apply Z.shiftr_0_r.
  - simpl Nat.iter. rewrite shr_1_m, IH.
    + rewrite Z.shiftr_shiftr by lia. f_equal. lia.
    + rewrite IH. apply Z.shiftr_nonneg. exact H.
Qed.

(** Shifting right by [n] places, or by none when [n] is not positive. *)
Lemma shr_spec (mrs : shr_record) (e n : Z) :
  0 <= shr_m mrs ->
  shr_m (fst (shr mrs e n)) = Z.shiftr (shr_m mrs) (Z.max 0 n) /\
  snd (shr mrs e n) = e + Z.max 0 n.
Proof.
  intros H. destruct n as [|p|p]; simpl.
  - rewrite Z.shiftr_0_r. lia.
  - rewrite iter_pos_nat, shr_iter_m by exact H.
    rewrite positive_nat_Z. split; reflexivity.
  - rewrite Z.shiftr_0_r. lia.
Qed.

Lemma shr_record_of_loc_m (m : Z) (l : location) :
  shr_m (shr_record_of_loc m l) = m.
Proof. destruct l as [|[]]; reflexivity. Qed.

Lemma round_nearest_even_cases (m : Z) (l : location) :
  round_nearest_even m l = m \/ round_nearest_even m l = m + 1.
Proof. destruct l as [|[]]; simpl; try destruct (Z.even m); auto. Qed.

Lemma binary_round_aux_unfold (s : bool) (M e : Z) (l : location) :
  binary_round_aux prec emax s M e l =
  let r1 := shr_fexp prec emax M e l in
  let m1 := round_nearest_even (shr_m (fst r1)) (loc_of_shr_record (fst r1)) in
  let r2 := shr_fexp prec emax m1 (snd r1) loc_Exact in
  match shr_m (fst r2) with
  | Z0 => S754_zero s
  | Zpos m =>
      if snd r2 <=? emax - prec then S754_finite s m (snd r2)
      else S754_infinity s
  | Zneg _ => S754_nan
  end.
Proof.
  unfold binary_round_aux. destruct (shr_fexp prec emax M e l) as [mrs' e'].
  simpl. destruct (shr_fexp prec emax _ e' loc_Exact) as [mrs'' e''].
  reflexivity.
Qed.


(** The second half of the rounding: a positive [m1] whose exponent [e'] is
    not above the canonical one is shifted into a well-formed value. *)
Lemma round_finish (s : bool) (m1 e' : Z) :
  0 < m1 -> e' <= SpecFloat.fexp prec emax (Z.log2 m1 + 1 + e') ->
  SpecFloat.fexp prec emax (Z.log2 m1 + 1 + e') - e' <= Z.log2 m1 ->
  let r2 := shr_fexp prec emax m1 e' loc_Exact in
  let r := match shr_m (fst r2) with
           | Z0 => S754_zero s
           | Zpos m =>
               if snd r2 <=? emax - prec then S754_finite s m (snd r2)
               else S754_infinity s
           | Zneg _ => S754_nan
           end in
  valid r = true /\
  (r = S754_infinity s \/ exists m e, r = S754_finite s m e).
Proof.
  intros Hm1 Hle Hn r2 r. subst r r2. unfold shr_fexp.
  rewrite (Zdigits2_log2 m1 Hm1).
  set (n2 := SpecFloat.fexp prec emax (Z.log2 m1 + 1 + e') - e') in *.
  destruct (shr_spec (shr_record_of_loc m1 loc_Exact) e' n2) as [Hm2 He2];
    [simpl; lia|].
  simpl shr_m in Hm2 at 2. rewrite Hm2, He2.
  replace (Z.max 0 n2) with n2 by lia.
  assert (Hpos : 0 < Z.shiftr m1 n2).
  { pose proof (Z.shiftr_nonneg m1 n2) as Hnn.
    pose proof (Z.shiftr_eq_0_iff m1 n2) as Hz.
    destruct (Z.eq_dec (Z.shiftr m1 n2) 0) as [E|E]; [|lia].
    apply Hz in E. lia. }
  assert (Hlog : Z.log2 (Z.shiftr m1 n2) = Z.log2 m1 - n2).
  { rewrite Z.log2_shiftr by exact Hm1. lia. }
  destruct (Z.shiftr m1 n2) as [|p|p] eqn:Ep; try lia.
  destruct (e' + n2 <=? emax - prec) eqn:Hb.
  - split; [|right; eauto].
    unfold valid, valid_binary, bounded, canonical_mantissa.
    rewrite Hb, andb_true_r, digits2_pos_log2, Hlog.
    apply Z.eqb_eq. unfold n2.
    replace (Z.log2 m1 - _ + 1 + _) with (Z.log2 m1 + 1 + e') by lia. lia.
  - split; [reflexivity | left; reflexivity].
Qed.

Lemma round_of_zero (s : bool) (e' : Z) :
  match shr_m (fst (shr_fexp prec emax 0 e' loc_Exact)) with
  | Z0 => S754_zero s
  | Zpos m =>
      if snd (shr_fexp prec emax 0 e' loc_Exact) <=? emax - prec
      then S754_finite s m (snd (shr_fexp prec emax 0 e' loc_Exact))
      else S754_infinity s
  | Zneg _ => S754_nan
  end = S754_zero s.
Proof.
  unfold shr_fexp.
  destruct (shr_spec (shr_record_of_loc 0 loc_Exact) e'
              (SpecFloat.fexp prec emax (Zdigits2 0 + e') - e')) as [Hm _];
    [simpl; lia|].
  rewrite Hm. simpl shr_m. rewrite Z.shiftr_0_l. reflexivity.
Qed.

(** Rounding a positive integer mantissa [M] at exponent [e], when [e] is
    not above the canonical exponent: the result is well-formed, carries
    the sign [s], and is not zero unless the shift drops every digit. *)
Lemma binary_round_aux_spec (s : bool) (M e : Z) (l : location) :
  0 < M -> e <= SpecFloat.fexp prec emax (Z.log2 M + 1 + e) ->
  let r := binary_round_aux prec emax s M e l in
  valid r = true /\
  (r = S754_zero s \/ r = S754_infinity s \/
   exists m e', r = S754_finite s m e') /\
  (SpecFloat.fexp prec emax (Z.log2 M + 1 + e) - e <= Z.log2 M ->
   r <> S754_zero s).
Proof.
  intros HM Hle r. subst r. rewrite binary_round_aux_unfold. cbv zeta.
  set (r1 := shr_fexp prec emax M e l).
  set (n1 := SpecFloat.fexp prec emax (Z.log2 M + 1 + e) - e) in *.
  assert (Hr1 : shr_m (fst r1) = Z.shiftr M n1 /\ snd r1 = e + n1).
  { unfold r1, shr_fexp. rewrite (Zdigits2_log2 M HM). fold n1.
    destruct (shr_spec (shr_record_of_loc M l) e n1) as [Hm He];
      [rewrite shr_record_of_loc_m; lia|].
    rewrite shr_record_of_loc_m in Hm.
    replace (Z.max 0 n1) with n1 in * by lia. auto. }
  destruct Hr1 as [HM0 He'].
  set (M0 := shr_m (fst r1)) in *. set (e' := snd r1) in *.
  set (m1 := round_nearest_even M0 (loc_of_shr_record (fst r1))).
  assert (Hm1 : m1 = M0 \/ m1 = M0 + 1) by apply round_nearest_even_cases.
  assert (HM0nn : 0 <= M0) by (rewrite HM0; apply Z.shiftr_nonneg; lia).
  assert (HM0z : M0 = 0 <-> Z.log2 M < n1).
  { rewrite HM0, Z.shiftr_eq_0_iff. lia. }
  assert (HM0log : 0 < M0 -> Z.log2 M0 = Z.log2 M - n1).
  { intros Hp. rewrite HM0, Z.log2_shiftr by exact HM.
    assert (~ Z.log2 M < n1) by (rewrite <- HM0z; lia). lia. }
  pose proof (Z.log2_nonneg M0) as Hlognn.
  pose proof (Z.log2_succ_or M0) as Hsucc. unfold Z.succ in Hsucc.
  unfold n1 in *. rewrite fexp_unfold in *.
  destruct (Z.eq_dec m1 0) as [Hz|Hnz].
  - rewrite Hz, round_of_zero. split; [reflexivity|]. split; [auto|].
    intros Hn. exfalso. lia.
  - assert (Hfin : 0 < m1) by lia.
    assert (HL : (M0 = 0 /\ m1 = 1 /\ Z.log2 m1 = 0) \/
                 (0 < M0 /\ (Z.log2 m1 = Z.log2 M0 \/
                             Z.log2 m1 = Z.log2 M0 + 1))).
    { destruct (Z.eq_dec M0 0) as [E0|E0].
      - left. assert (m1 = 1) by lia. subst m1. rewrite H. auto.
      - right. split; [lia|]. destruct Hm1 as [-> | ->]; [auto|lia]. }
    destruct (round_finish s m1 e' Hfin) as [Hv Hform].
    + rewrite fexp_unfold. destruct HL as [(E0 & _ & ->)|[Hp HL]].
      * apply HM0z in E0. lia.
      * specialize (HM0log Hp). lia.
    + rewrite fexp_unfold. destruct HL as [(E0 & _ & ->)|[Hp HL]].
      * apply HM0z in E0. lia.
      * specialize (HM0log Hp). lia.
    + cbv zeta in Hv, Hform. split; [exact Hv|]. split; [auto|].
      intros _ Hzero. rewrite Hzero in Hform.
      destruct Hform as [Hf|(m & e2 & Hf)]; discriminate Hf.
Qed.

Lemma pos_iter_xO (m d : positive) :
  Zpos (Pos.iter xO m d) = Zpos m * 2 ^ Zpos d.
Proof.
  induction d as [|d IH] using Pos.peano_ind.
  - simpl. lia.
  - rewrite Pos.iter_succ, Pos2Z.inj_xO, IH, Pos2Z.inj_succ.
    rewrite Z.pow_succ_r by lia. lia.
Qed.

(** Aligning a mantissa to a lower exponent multiplies it by the power of
    two in between; to an exponent that is not lower, it does nothing. *)
Lemma shl_align_spec (m : positive) (e e2 : Z) :
  Zpos (fst (shl_align m e e2)) = Zpos m * 2 ^ (e - Z.min e e2) /\
  snd (shl_align m e e2) = Z.min e e2.
Proof.
  unfold shl_align. destruct (e2 - e) as [|d|d] eqn:E; simpl.
  - replace (e - Z.min e e2) with 0 by lia. split; lia.
  - replace (e - Z.min e e2) with 0 by lia. split; lia.
  - rewrite pos_iter_xO. replace (e - Z.min e e2) with (Zpos d) by lia.
    split; lia.
Qed.

Lemma binary_round_spec (s : bool) (m : positive) (e : Z) :
  let r := binary_round prec emax s m e in
  valid r = true /\
  (r = S754_zero s \/ r = S754_infinity s \/
   exists m' e', r = S754_finite s m' e') /\
  (-1074 <= e -> r <> S754_zero s).
Proof.
  intros r. subst r. unfold binary_round.
  rewrite digits2_pos_log2.
  set (t := SpecFloat.fexp prec emax (Z.log2 (Zpos m) + 1 + e)).
  destruct (shl_align_spec m e t) as [Hmz Hez].
  destruct (shl_align m e t) as [mz ez]. simpl in Hmz, Hez.
  assert (Hlog : Z.log2 (Zpos mz) = e - ez + Z.log2 (Zpos m)).
  { rewrite Hmz, Hez, Z.log2_mul_pow2 by lia. reflexivity. }
  pose proof (Z.log2_nonneg (Zpos m)) as Hnn.
  destruct (binary_round_aux_spec s (Zpos mz) ez loc_Exact) as (Hv & Hf & Hnz).
  - lia.
  - rewrite Hlog. replace (e - ez + _ + 1 + ez) with (Z.log2 (Zpos m) + 1 + e)
      by lia. fold t. lia.
  - split; [exact Hv|]. split; [exact Hf|]. intros He. apply Hnz.
    rewrite Hlog. replace (e - ez + _ + 1 + ez) with (Z.log2 (Zpos m) + 1 + e)
      by lia. fold t. unfold t in *. rewrite fexp_unfold in *. lia.
Qed.

Lemma binary_normalize_valid (z e : Z) (szero : bool) :
  valid (binary_normalize prec emax z e szero) = true.
Proof.
  destruct z as [|p|p]; simpl; [reflexivity | |]; apply binary_round_spec.
Qed.

Lemma of_Z_valid (z : Z) : valid (of_Z z) = true.
Proof. apply binary_normalize_valid. Qed.

(** A well-formed finite value has its canonical exponent. *)
Lemma valid_finite_inv (s : bool) (m : positive) (e : Z) :
  valid (S754_finite s m e) = true ->
  Z.max (Z.log2 (Zpos m) + 1 + e - 53) (-1074) = e /\ e <= 971.
Proof.
  unfold valid, valid_binary, bounded, canonical_mantissa.
  intros [Hc Hb]%andb_true_iff. apply Z.eqb_eq in Hc. apply Z.leb_le in Hb.
  rewrite digits2_pos_log2, fexp_unfold in Hc. split; [exact Hc|].
  exact Hb.
Qed.

Theorem add_valid (x y : number) :
  valid x = true -> valid y = true -> valid (x + y)%num = true.
Proof.
  intros Hx Hy. unfold add.
  destruct x as [sx|sx| |sx mx ex], y as [sy|sy| |sy my ey];
    try exact (binary_normalize_valid _ _ _);
    try destruct sx; try destruct sy; try reflexivity; assumption.
Qed.

Theorem mul_valid (x y : number) :
  valid x = true -> valid y = true -> valid (x * y)%num = true.
Proof.
  intros Hx Hy. unfold mul.
  destruct x as [sx|sx| |sx mx ex], y as [sy|sy| |sy my ey];
    try reflexivity.
  simpl. apply valid_finite_inv in Hx as [Hx Hxb], Hy as [Hy Hyb].
  apply binary_round_aux_spec; [lia|].
  rewrite fexp_unfold, Pos2Z.inj_mul.
  pose proof (Z.log2_mul_below (Zpos mx) (Zpos my)).
  pose proof (Z.log2_nonneg (Zpos mx)). pose proof (Z.log2_nonneg (Zpos my)).
  lia.
Qed.

(** Of two well-formed mantissas, the one with the lower exponent is the
    smaller once both are aligned. *)
Lemma canonical_lower_exponent (m1 m2 : positive) (e1 e2 : Z) :
  Z.max (Z.log2 (Zpos m1) + 1 + e1 - 53) (-1074) = e1 ->
  Z.max (Z.log2 (Zpos m2) + 1 + e2 - 53) (-1074) = e2 ->
  e1 < e2 ->
  Zpos m1 < Zpos m2 * 2 ^ (e2 - e1).
Proof.
  intros H1 H2 Hlt.
  destruct (Z.log2_spec (Zpos m1)) as [_ Hup]; [lia|].
  destruct (Z.log2_spec (Zpos m2)) as [Hlo _]; [lia|].
  assert (L1 : Z.log2 (Zpos m1) <= 52) by lia.
  assert (L2 : Z.log2 (Zpos m2) = 52) by lia.
  rewrite L2 in Hlo. unfold Z.succ in Hup.
  assert (P1 : 2 ^ (Z.log2 (Zpos m1) + 1) <= 2 ^ 53)
    by (apply Z.pow_le_mono_r; lia).
  assert (P2 : 2 ^ 1 <= 2 ^ (e2 - e1)) by (apply Z.pow_le_mono_r; lia).
  change (2 ^ 1) with 2 in P2. change (2 ^ 53) with (2 ^ 52 * 2) in P1.
  nia.
Qed.

Lemma negative_below_zero (r : number) :
  r = S754_infinity true \/ (exists m e, r = S754_finite true m e) ->
  (r <? of_Z 0)%num = true.
Proof. intros [-> | (m & e & ->)]; reflexivity. Qed.

(** Subtracting a larger well-formed value gives a negative value. *)
Theorem sub_larger_negative (x d : number) :
  valid x = true -> valid d = true ->
  (d >? x)%num = true -> (x - d <? of_Z 0)%num = true.
Proof.
  intros Hx Hd Hgt. unfold gtb, ltb in Hgt.
  destruct x as [sx|sx| |sx mx ex], d as [sd|sd| |sd md ed];
    try (destruct sx; try destruct sd; simpl in Hgt; try discriminate Hgt;
         reflexivity);
    try (destruct sd; simpl in Hgt; try discriminate Hgt; reflexivity);
    try discriminate Hgt.
  apply negative_below_zero. unfold sub, SFsub.
  apply valid_finite_inv in Hx as [Hx _], Hd as [Hd _].
  set (ez := Z.min ex ed).
  destruct (shl_align_spec mx ex ez) as [HA _].
  destruct (shl_align_spec md ed ez) as [HB _].
  replace (Z.min ex ez) with ez in HA by lia.
  replace (Z.min ed ez) with ez in HB by lia.
  set (A := Zpos (fst (shl_align mx ex ez))) in *.
  set (B := Zpos (fst (shl_align md ed ez))) in *.
  assert (Hneg : cond_Zopp sx A - cond_Zopp sd B < 0).
  { simpl in Hgt. change (Pos.compare_cont Eq) with Pos.compare in Hgt.
    destruct sx, sd; simpl; try discriminate Hgt.
    - destruct (Z.compare_spec ex ed) as [E|E|E]; try discriminate Hgt.
      + subst ed. replace ez with ex in * by lia.
        rewrite Z.sub_diag in HA, HB. simpl in HA, HB.
        destruct (Pos.compare_spec mx md); try discriminate Hgt. lia.
      + replace ez with ed in * by lia.
        rewrite Z.sub_diag in HB. simpl in HB.
        pose proof (canonical_lower_exponent md mx ed ex Hd Hx E). lia.
    - lia.
    - destruct (Z.compare_spec ex ed) as [E|E|E]; try discriminate Hgt.
      + subst ed. replace ez with ex in * by lia.
        rewrite Z.sub_diag in HA, HB. simpl in HA, HB.
        destruct (Pos.compare_spec mx md); try discriminate Hgt. lia.
      + replace ez with ex in * by lia.
        rewrite Z.sub_diag in HA. simpl in HA.
        pose proof (canonical_lower_exponent mx md ex ed Hx Hd E). lia. }
  destruct (cond_Zopp sx A - cond_Zopp sd B) as [|p|p]; try lia.
  simpl binary_normalize.
  destruct (binary_round_spec true p ez) as (_ & Hform & Hnz).
  destruct Hform as [Hz | [Hi | Hf]].
  - exfalso. apply Hnz; [lia | exact Hz].
  - left. exact Hi.
  - right. exact Hf.
Qed.

(** ** Exact rounding *)

Lemma shr_iter_exact (k : nat) (c : Z) :
  0 <= c ->
  Nat.iter k shr_1
    {| shr_m := c * 2 ^ Z.of_nat k; shr_r := false; shr_s := false |} =
  {| shr_m := c; shr_r := false; shr_s := false |}.
Proof.
  revert c. induction k as [|k IH]; intros c Hc.
  - simpl. rewrite Z.mul_1_r. reflexivity.
  - simpl Nat.iter.
    replace (c * 2 ^ Z.of_nat (S k)) with ((2 * c) * 2 ^ Z.of_nat k).
    + rewrite IH by lia. destruct c as [|p|p]; [reflexivity|reflexivity|lia].
    + rewrite Nat2Z.inj_succ, Z.pow_succ_r by lia. ring.
Qed.

(** A shift that drops only zero digits is exact. *)
Lemma shr_exact (c e n : Z) :
  0 <= c -> 0 <= n ->
  fst (shr (shr_record_of_loc (c * 2 ^ n) loc_Exact) e n) =
  {| shr_m := c; shr_r := false; shr_s := false |}.
Proof.
  intros Hc Hn. destruct n as [|p|p]; try lia.
  - simpl. rewrite Z.mul_1_r. reflexivity.
  - cbn [shr fst shr_record_of_loc]. rewrite iter_pos_nat.
    rewrite <- (positive_nat_Z p) at 1. apply shr_iter_exact, Hc.
Qed.

Lemma pow2_pos (k : Z) : 0 <= k -> 0 < 2 ^ k.
Proof. intros H. apply Z.pow_pos_nonneg; lia. Qed.

(** The second half of the rounding keeps the value: a positive [m1] at
    exponent [E] is brought to its canonical exponent by a shift that drops
    only zero digits. *)
Lemma round_finish_value (s : bool) (m1 E : Z) :
  0 < m1 ->
  let n2 := SpecFloat.fexp prec emax (Z.log2 m1 + 1 + E) - E in
  0 <= n2 -> n2 <= Z.log2 m1 -> m1 mod 2 ^ n2 = 0 ->
  let r2 := shr_fexp prec emax m1 E loc_Exact in
  let r := match shr_m (fst r2) with
           | Z0 => S754_zero s
           | Zpos m =>
               if snd r2 <=? emax - prec then S754_finite s m (snd r2)
               else S754_infinity s
           | Zneg _ => S754_nan
           end in
  valid r = true /\
  ((r = S754_infinity s /\ 971 < E + n2) \/
   exists m, r = S754_finite s m (E + n2) /\ Zpos m * 2 ^ n2 = m1).
Proof.
  intros Hm1 n2 Hn0 Hn Hdiv r2 r. subst r r2. unfold shr_fexp.
  rewrite (Zdigits2_log2 m1 Hm1). fold n2.
  destruct (shr_spec (shr_record_of_loc m1 loc_Exact) E n2) as [Hm2 He2];
    [simpl; lia|].
  simpl shr_m in Hm2 at 2. rewrite Hm2, He2.
  replace (Z.max 0 n2) with n2 by lia.
  rewrite Z.shiftr_div_pow2 by exact Hn0.
  pose proof (pow2_pos n2 Hn0) as Hp.
  pose proof (Z.div_mod m1 (2 ^ n2) ltac:(lia)) as Hdm. rewrite Hdiv in Hdm.
  assert (Hq : 0 < m1 / 2 ^ n2) by nia.
  assert (Hlog : Z.log2 (m1 / 2 ^ n2) = Z.log2 m1 - n2).
  { rewrite <- Z.shiftr_div_pow2 by exact Hn0.
    rewrite Z.log2_shiftr by exact Hm1. lia. }
  destruct (m1 / 2 ^ n2) as [|q|q] eqn:Eq; try lia.
  destruct (E + n2 <=? emax - prec) eqn:Hb.
  - split.
    + unfold valid, valid_binary, bounded, canonical_mantissa.
      rewrite Hb, andb_true_r, digits2_pos_log2, Hlog.
      apply Z.eqb_eq. unfold n2.
      replace (Z.log2 m1 - _ + 1 + _) with (Z.log2 m1 + 1 + E) by lia. lia.
    + right. exists q. split; [reflexivity | lia].
  - split; [reflexivity|]. left. split; [reflexivity|].
    apply Z.leb_gt in Hb. unfold emax, prec in Hb. lia.
Qed.

(** Rounding a positive integer mantissa [M] at an exponent [e] that is not
    above the canonical one [E]: the result holds, at exponent [E], the
    quotient of [M] by the power of two in between, or the next integer
    when the division leaves a remainder; it overflows only from 2^1023
    on. *)
Lemma binary_round_aux_value (s : bool) (M e : Z) :
  0 < M -> -1074 <= e ->
  let E := SpecFloat.fexp prec emax (Z.log2 M + 1 + e) in
  e <= E ->
  let r := binary_round_aux prec emax s M e loc_Exact in
  valid r = true /\
  ((r = S754_infinity s /\ 1023 <= Z.log2 M + e) \/
   exists m' e', r = S754_finite s m' e' /\ E <= e' /\
     (Zpos m' * 2 ^ (e' - E) = M / 2 ^ (E - e) \/
      (Zpos m' * 2 ^ (e' - E) = M / 2 ^ (E - e) + 1 /\
       M mod 2 ^ (E - e) <> 0))).
Proof.
  intros HM He E HeE r. subst r. rewrite binary_round_aux_unfold. cbv zeta.
  set (r1 := shr_fexp prec emax M e loc_Exact).
  set (n1 := E - e).
  assert (Hn1 : 0 <= n1) by (unfold n1; lia).
  pose proof (pow2_pos n1 Hn1) as Hp1.
  assert (HEu : E = Z.max (Z.log2 M + 1 + e - 53) (-1074))
    by (unfold E; apply fexp_unfold).
  pose proof (Z.log2_nonneg M) as HlogM.
  assert (Hr1 : shr_m (fst r1) = M / 2 ^ n1 /\ snd r1 = E).
  { unfold r1, shr_fexp. rewrite (Zdigits2_log2 M HM). fold E. fold n1.
    destruct (shr_spec (shr_record_of_loc M loc_Exact) e n1) as [Hm Hx];
      [simpl; lia|].
    simpl shr_m in Hm at 2.
    replace (Z.max 0 n1) with n1 in * by lia.
    rewrite Z.shiftr_div_pow2 in Hm by exact Hn1. split; [exact Hm|].
    rewrite Hx. unfold n1. lia. }
  destruct Hr1 as [HM0 HE'].
  assert (Hloc : M mod 2 ^ n1 = 0 ->
                 loc_of_shr_record (fst r1) = loc_Exact).
  { intros Hz. unfold r1, shr_fexp. rewrite (Zdigits2_log2 M HM).
    fold E. fold n1.
    pose proof (Z.div_mod M (2 ^ n1) ltac:(lia)) as Hdm. rewrite Hz in Hdm.
    replace M with (M / 2 ^ n1 * 2 ^ n1) at 1 by lia.
    rewrite shr_exact; [reflexivity | | exact Hn1].
    apply Z.div_pos; lia. }
  set (M0 := shr_m (fst r1)) in *. rewrite HE'.
  set (m1 := round_nearest_even M0 (loc_of_shr_record (fst r1))).
  assert (Hm1 : m1 = M0 \/ (m1 = M0 + 1 /\ M mod 2 ^ n1 <> 0)).
  { destruct (Z.eq_dec (M mod 2 ^ n1) 0) as [Hz|Hz].
    - left. unfold m1. rewrite (Hloc Hz). reflexivity.
    - destruct (round_nearest_even_cases M0 (loc_of_shr_record (fst r1)));
        [left | right; split]; assumption. }
  assert (Hn1log : n1 <= Z.log2 M) by (unfold n1; lia).
  assert (HM0log : Z.log2 M0 = Z.log2 M - n1).
  { rewrite HM0, <- Z.shiftr_div_pow2 by exact Hn1.
    rewrite Z.log2_shiftr by exact HM. lia. }
  assert (HM0pos : 0 < M0).
  { rewrite HM0. apply Z.div_str_pos. split; [lia|].
    destruct (Z.log2_spec M HM) as [Hlo _].
    assert (2 ^ n1 <= 2 ^ Z.log2 M) by (apply Z.pow_le_mono_r; lia). lia. }
  assert (Hfin : 0 < m1) by lia.
  pose proof (Z.log2_nonneg M0) as Hl0.
  assert (HL : Z.log2 m1 = Z.log2 M0 \/
               (Z.log2 m1 = Z.log2 M0 + 1 /\ m1 = 2 ^ (Z.log2 M0 + 1))).
  { destruct Hm1 as [-> | [-> _]]; [auto|].
    pose proof (Z.log2_succ_or M0) as [Hs|Hs]; unfold Z.succ in Hs.
    - right. split; [lia|].
      destruct (Z.log2_spec M0 HM0pos) as [_ Hhi].
      destruct (Z.log2_spec (M0 + 1) ltac:(lia)) as [Hlo _].
      rewrite Hs in Hlo. unfold Z.succ in *. lia.
    - left. exact Hs. }
  set (n2 := SpecFloat.fexp prec emax (Z.log2 m1 + 1 + E) - E).
  assert (Hn2u : n2 = Z.max (Z.log2 m1 + 1 + E - 53) (-1074) - E)
    by (unfold n2; rewrite fexp_unfold; reflexivity).
  assert (Hn2 : 0 <= n2 <= 1) by lia.
  assert (Hdiv2 : m1 mod 2 ^ n2 = 0).
  { destruct (Z.eq_dec n2 0) as [->|Hne]; [apply Z.mod_1_r|].
    assert (n2 = 1) by lia.
    destruct HL as [HL|[HL ->]]; [lia|].
    replace n2 with 1 by lia.
    replace (Z.log2 M0 + 1) with (Z.succ (Z.log2 M0)) by lia.
    rewrite Z.pow_succ_r by lia. change (2 ^ 1) with 2.
    rewrite Z.mul_comm. apply Z.mod_mul. lia. }
  destruct (round_finish_value s m1 E Hfin) as [Hv Hform];
    [fold n2; lia | fold n2; lia | fold n2; exact Hdiv2 |].
  cbv zeta in Hv, Hform. fold n2 in Hform.
  split; [exact Hv|].
  destruct Hform as [[Hinf Hbig] | (m & Hr & Hval)].
  - left. split; [exact Hinf|]. lia.
  - right. exists m, (E + n2). split; [exact Hr|]. split; [lia|].
    replace (E + n2 - E) with n2 by lia. fold n1. rewrite <- HM0.
    destruct Hm1 as [Hm1 | [Hm1 Hnz]]; [left | right; split];
      try assumption; lia.
Qed.

(** Rounding [p * 2^e], [e] at least -1074, counted in units of 2^-1074:
    the result is the multiple of the spacing [u] just below the value, or
    the next one when the value is not a multiple of [u]. *)
Lemma binary_round_scaled (s : bool) (p : positive) (e : Z) :
  -1074 <= e ->
  let S := Zpos p * 2 ^ (e + 1074) in
  let u := 2 ^ (SpecFloat.fexp prec emax (Z.log2 (Zpos p) + 1 + e) + 1074) in
  let r := binary_round prec emax s p e in
  valid r = true /\
  ((r = S754_infinity s /\ 1023 <= Z.log2 (Zpos p) + e) \/
   exists m' e', r = S754_finite s m' e' /\
     (Zpos m' * 2 ^ (e' + 1074) = S / u * u \/
      (Zpos m' * 2 ^ (e' + 1074) = (S / u + 1) * u /\ S mod u <> 0))).
Proof.
  intros He S u r. subst r. unfold binary_round.
  rewrite digits2_pos_log2.
  set (E := SpecFloat.fexp prec emax (Z.log2 (Zpos p) + 1 + e)) in *.
  assert (HEu : E = Z.max (Z.log2 (Zpos p) + 1 + e - 53) (-1074))
    by (unfold E; apply fexp_unfold).
  destruct (shl_align_spec p e E) as [Hmz Hez].
  destruct (shl_align p e E) as [mz ez]. simpl in Hmz, Hez.
  pose proof (Z.log2_nonneg (Zpos p)) as Hnn.
  assert (Hlog : Z.log2 (Zpos mz) + ez = Z.log2 (Zpos p) + e).
  { rewrite Hmz, Hez, Z.log2_mul_pow2 by lia. lia. }
  destruct (binary_round_aux_value s (Zpos mz) ez) as [Hv Hform].
  - lia.
  - lia.
  - replace (Z.log2 (Zpos mz) + 1 + ez) with (Z.log2 (Zpos p) + 1 + e) by lia.
    fold E. lia.
  - cbv zeta in Hv, Hform.
    replace (Z.log2 (Zpos mz) + 1 + ez) with (Z.log2 (Zpos p) + 1 + e)
      in Hform by lia.
    fold E in Hform.
    split; [exact Hv|].
    destruct Hform as [[Hinf Hbig] | (m' & e' & Hr & He' & Hval)].
    + left. split; [exact Hinf | lia].
    + right. exists m', e'. split; [exact Hr|].
      set (d := E - ez) in *. set (a := ez + 1074).
      assert (Hd : 0 <= d) by (unfold d; lia).
      assert (Ha : 0 <= a) by (unfold a; lia).
      pose proof (pow2_pos d Hd) as Hpd. pose proof (pow2_pos a Ha) as Hpa.
      assert (HS : S = Zpos mz * 2 ^ a).
      { unfold S, a. rewrite Hmz, <- Z.mul_assoc, <- Z.pow_add_r by lia.
        do 2 f_equal. lia. }
      assert (Hu : u = 2 ^ d * 2 ^ a).
      { unfold u, d, a. rewrite <- Z.pow_add_r by lia. f_equal. lia. }
      assert (Hdiv : S / u = Zpos mz / 2 ^ d).
      { rewrite HS, Hu. apply Z.div_mul_cancel_r; lia. }
      assert (Hmod : S mod u = (Zpos mz mod 2 ^ d) * 2 ^ a).
      { rewrite HS, Hu. apply Z.mul_mod_distr_r; lia. }
      assert (Hm' : Zpos m' * 2 ^ (e' + 1074) = Zpos m' * 2 ^ (e' - E) * u).
      { unfold u. rewrite <- Z.mul_assoc, <- Z.pow_add_r by lia.
        do 2 f_equal. lia. }
      rewrite Hm', Hdiv, Hmod.
      destruct Hval as [Hval | [Hval Hnz]]; [left | right; split].
      * rewrite Hval. reflexivity.
      * rewrite Hval. reflexivity.
      * intros H0. apply Hnz. nia.
Qed.

(** ** Order and values *)

Lemma valid_finite_exponent (s : bool) (m : positive) (e : Z) :
  valid (S754_finite s m e) = true -> -1074 <= e.
Proof. intros H. apply valid_finite_inv in H as [H _]. lia. Qed.

(** Of two well-formed numbers of the same sign, the one with the lower
    exponent is the smaller in absolute value. *)
Lemma scaled_lower_exponent (m1 m2 : positive) (e1 e2 : Z) :
  valid (S754_finite false m1 e1) = true ->
  valid (S754_finite false m2 e2) = true ->
  e1 < e2 ->
  Zpos m1 * 2 ^ (e1 + 1074) < Zpos m2 * 2 ^ (e2 + 1074).
Proof.
  intros H1 H2 Hlt.
  pose proof (valid_finite_exponent _ _ _ H1) as Hb1.
  apply valid_finite_inv in H1 as [H1 _], H2 as [H2 _].
  pose proof (canonical_lower_exponent m1 m2 e1 e2 H1 H2 Hlt) as Hc.
  replace (e2 + 1074) with ((e2 - e1) + (e1 + 1074)) by lia.
  rewrite (Z.pow_add_r 2 (e2 - e1) (e1 + 1074)) by lia.
  pose proof (pow2_pos (e1 + 1074) ltac:(lia)). nia.
Qed.

Lemma compare_scaled_pos (m1 m2 : positive) (e1 e2 : Z) :
  valid (S754_finite false m1 e1) = true ->
  valid (S754_finite false m2 e2) = true ->
  match e1 ?= e2 with
  | Lt => Lt
  | Gt => Gt
  | Eq => Pos.compare_cont Eq m1 m2
  end = (Zpos m1 * 2 ^ (e1 + 1074) ?= Zpos m2 * 2 ^ (e2 + 1074)).
Proof.
  intros H1 H2. symmetry.
  destruct (Z.compare_spec e1 e2) as [E|E|E].
  - subst e2. change (Pos.compare_cont Eq m1 m2) with (Zpos m1 ?= Zpos m2).
    pose proof (valid_finite_exponent _ _ _ H1) as Hb1.
    pose proof (pow2_pos (e1 + 1074) ltac:(lia)) as Hp.
    destruct (Z.compare_spec (Zpos m1) (Zpos m2)) as [C|C|C].
    + rewrite C. apply Z.compare_refl.
    + apply Z.compare_lt_iff. nia.
    + apply Z.compare_gt_iff. nia.
  - apply Z.compare_lt_iff, scaled_lower_exponent; assumption.
  - apply Z.compare_gt_iff, scaled_lower_exponent; assumption.
Qed.

(** On well-formed numbers that are neither infinite nor NaN, the order of
    the language is the order of the values. *)
Lemma compare_scaled (x y : number) :
  valid x = true -> valid y = true ->
  is_finite x = true -> is_finite y = true ->
  SFcompare x y = Some (scaled x ?= scaled y).
Proof.
  intros Hx Hy Fx Fy.
  destruct x as [sx|sx| |sx mx ex], y as [sy|sy| |sy my ey];
    try discriminate; cbn [SFcompare scaled].
  - reflexivity.
  - pose proof (valid_finite_exponent _ _ _ Hy).
    pose proof (pow2_pos (ey + 1074) ltac:(lia)).
    destruct sy; cbn [cond_Zopp]; f_equal; symmetry;
      [apply Z.compare_gt_iff | apply Z.compare_lt_iff]; nia.
  - pose proof (valid_finite_exponent _ _ _ Hx).
    pose proof (pow2_pos (ex + 1074) ltac:(lia)).
    destruct sx; cbn [cond_Zopp]; f_equal; symmetry;
      [apply Z.compare_lt_iff | apply Z.compare_gt_iff]; nia.
  - pose proof (valid_finite_exponent _ _ _ Hx).
    pose proof (valid_finite_exponent _ _ _ Hy).
    pose proof (pow2_pos (ex + 1074) ltac:(lia)).
    pose proof (pow2_pos (ey + 1074) ltac:(lia)).
    destruct sx, sy; cbn [cond_Zopp]; f_equal.
    + rewrite Z.compare_opp.
      rewrite <- (compare_scaled_pos my mx ey ex Hy Hx).
      rewrite (Z.compare_antisym ey ex).
      destruct (ey ?= ex); cbn [CompOpp]; try reflexivity.
      change (Pos.compare_cont Eq mx my) with (Zpos mx ?= Zpos my).
      change (Pos.compare_cont Eq my mx) with (Zpos my ?= Zpos mx).
      rewrite (Z.compare_antisym (Zpos my) (Zpos mx)).
      destruct (Zpos my ?= Zpos mx); reflexivity.
    + symmetry. apply Z.compare_lt_iff. nia.
    + symmetry. apply Z.compare_gt_iff. nia.
    + apply compare_scaled_pos; assumption.
Qed.

(** A well-formed finite number is determined by its value. *)
Lemma scaled_inj (s1 s2 : bool) (m1 m2 : positive) (e1 e2 : Z) :
  valid (S754_finite s1 m1 e1) = true ->
  valid (S754_finite s2 m2 e2) = true ->
  scaled (S754_finite s1 m1 e1) = scaled (S754_finite s2 m2 e2) ->
  S754_finite s1 m1 e1 = S754_finite s2 m2 e2.
Proof.
  intros H1 H2 E.
  pose proof (valid_finite_exponent _ _ _ H1) as Hb1.
  pose proof (valid_finite_exponent _ _ _ H2) as Hb2.
  pose proof (pow2_pos (e1 + 1074) ltac:(lia)) as Hp1.
  pose proof (pow2_pos (e2 + 1074) ltac:(lia)) as Hp2.
  assert (Hs : s1 = s2).
  { destruct s1, s2; cbn [scaled cond_Zopp] in E; try reflexivity; nia. }
  subst s2.
  assert (Ev : Zpos m1 * 2 ^ (e1 + 1074) = Zpos m2 * 2 ^ (e2 + 1074)).
  { destruct s1; cbn [scaled cond_Zopp] in E; lia. }
  assert (V1 : valid (S754_finite false m1 e1) = true) by exact H1.
  assert (V2 : valid (S754_finite false m2 e2) = true) by exact H2.
  assert (He : e1 = e2).
  { destruct (Z.lt_trichotomy e1 e2) as [C|[C|C]]; [|exact C|].
    - pose proof (scaled_lower_exponent m1 m2 e1 e2 V1 V2 C). lia.
    - pose proof (scaled_lower_exponent m2 m1 e2 e1 V2 V1 C). lia. }
  subst e2. assert (Zpos m1 = Zpos m2) by nia.
  congruence.
Qed.

(** A representable value that is not above [S] is not above the multiple
    of the spacing just below [S]: rounding does not cross it. *)
Lemma below_spacing_multiple (mk p : positive) (ek e : Z) :
  valid (S754_finite false mk ek) = true -> -1074 <= e ->
  let S := Zpos p * 2 ^ (e + 1074) in
  let u := 2 ^ (SpecFloat.fexp prec emax (Z.log2 (Zpos p) + 1 + e) + 1074) in
  Zpos mk * 2 ^ (ek + 1074) <= S ->
  Zpos mk * 2 ^ (ek + 1074) <= S / u * u.
Proof.
  intros Hk He S u HK.
  pose proof (valid_finite_exponent _ _ _ Hk) as Hbk.
  apply valid_finite_inv in Hk as [Hk _].
  set (E := SpecFloat.fexp prec emax (Z.log2 (Zpos p) + 1 + e)) in *.
  assert (HEu : E = Z.max (Z.log2 (Zpos p) + 1 + e - 53) (-1074))
    by (unfold E; apply fexp_unfold).
  pose proof (Z.log2_nonneg (Zpos p)) as Hnp.
  pose proof (Z.log2_nonneg (Zpos mk)) as Hnk.
  set (K := Zpos mk * 2 ^ (ek + 1074)) in *.
  pose proof (pow2_pos (ek + 1074) ltac:(lia)) as Hpk.
  pose proof (pow2_pos (e + 1074) ltac:(lia)) as Hpe.
  assert (HKpos : 0 < K) by (unfold K; nia).
  assert (HSpos : 0 < S) by (unfold S; nia).
  assert (HlK : Z.log2 K = ek + 1074 + Z.log2 (Zpos mk))
    by (unfold K; apply Z.log2_mul_pow2; lia).
  assert (HlS : Z.log2 S = e + 1074 + Z.log2 (Zpos p))
    by (unfold S; apply Z.log2_mul_pow2; lia).
  pose proof (Z.log2_le_mono K S HK) as Hmono.
  assert (Hu : 0 < u) by (unfold u; apply pow2_pos; lia).
  destruct (Z.eq_dec ek E) as [Heq|Hne].
  - assert (HKu : K = Zpos mk * u) by (unfold K, u; rewrite Heq; reflexivity).
    assert (Zpos mk <= S / u).
    { rewrite <- (Z.div_mul (Zpos mk) u) by lia. rewrite <- HKu.
      apply Z.div_le_mono; lia. }
    nia.
  - assert (HltE : ek < E) by lia.
    set (L := Z.log2 (Zpos p) + e) in *.
    assert (HE : E = L - 52) by lia.
    assert (HKlt : K < 2 ^ (L + 1074)).
    { destruct (Z.log2_spec K HKpos) as [_ Hhi]. unfold Z.succ in Hhi.
      assert (2 ^ (Z.log2 K + 1) <= 2 ^ (L + 1074))
        by (apply Z.pow_le_mono_r; lia).
      lia. }
    assert (HSge : 2 ^ (L + 1074) <= S).
    { destruct (Z.log2_spec S HSpos) as [Hlo _].
      replace (L + 1074) with (Z.log2 S) by lia. exact Hlo. }
    assert (Hmul : 2 ^ (L + 1074) = 2 ^ 52 * u).
    { unfold u. rewrite <- Z.pow_add_r by lia. f_equal. lia. }
    assert (2 ^ 52 <= S / u).
    { rewrite <- (Z.div_mul (2 ^ 52) u) by lia. rewrite <- Hmul.
      apply Z.div_le_mono; lia. }
    nia.
Qed.

(** Rounding a value that is at least a representable value gives at
    least that value. *)
Lemma binary_round_ge (k : number) (p : positive) (e : Z) :
  valid k = true -> is_finite k = true -> -1074 <= e ->
  scaled k <= Zpos p * 2 ^ (e + 1074) ->
  (binary_round prec emax false p e >=? k)%num = true.
Proof.
  intros Hk Fk He HK.
  destruct (binary_round_scaled false p e He) as [Hv Hform].
  cbv zeta in Hv, Hform.
  destruct Hform as [[-> _] | (m' & e' & Hr & Hval)].
  - destruct k as [sk|sk| |sk mk ek]; try discriminate Fk; reflexivity.
  - rewrite Hr in *. unfold geb.
    rewrite compare_scaled by (try assumption; reflexivity).
    cbn [scaled cond_Zopp].
    pose proof (pow2_pos (e + 1074) ltac:(lia)) as Hpe.
    set (S := Zpos p * 2 ^ (e + 1074)) in *.
    set (u := 2 ^ (SpecFloat.fexp prec emax (Z.log2 (Zpos p) + 1 + e) + 1074))
      in *.
    assert (Hu : 0 < u).
    { unfold u. apply pow2_pos. rewrite fexp_unfold. lia. }
    assert (Hdown : scaled k <= S / u * u).
    { destruct k as [sk|sk| |[] mk ek]; try discriminate Fk;
        cbn [scaled cond_Zopp] in *.
      - assert (0 <= S / u) by (apply Z.div_pos; unfold S; nia). nia.
      - assert (0 <= S / u) by (apply Z.div_pos; unfold S; nia).
        pose proof (valid_finite_exponent _ _ _ Hk).
        pose proof (pow2_pos (ek + 1074) ltac:(lia)). nia.
      - apply (below_spacing_multiple mk p ek e Hk He HK). }
    destruct (Z.compare_spec (Zpos m' * 2 ^ (e' + 1074)) (scaled k));
      try reflexivity.
    destruct Hval as [Hval | [Hval _]]; nia.
Qed.

(** ** Whole numbers *)

(** Rounding a whole number of at most 2^53 is exact. *)
Lemma binary_round_exact (s : bool) (p : positive) (e v : Z) :
  -1074 <= e -> 0 < v <= 2 ^ 53 ->
  Zpos p * 2 ^ (e + 1074) = v * 2 ^ 1074 ->
  exists m' e',
    binary_round prec emax s p e = S754_finite s m' e' /\
    valid (S754_finite s m' e') = true /\
    Zpos m' * 2 ^ (e' + 1074) = v * 2 ^ 1074.
Proof.
  intros He Hv HS.
  destruct (binary_round_scaled s p e He) as [Hval Hform].
  cbv zeta in Hval, Hform. rewrite HS in Hform.
  pose proof (Z.log2_nonneg (Zpos p)) as Hnp.
  assert (HL : Z.log2 (Zpos p) + e = Z.log2 v).
  { assert (H1 : Z.log2 (Zpos p * 2 ^ (e + 1074)) =
                 e + 1074 + Z.log2 (Zpos p))
      by (apply Z.log2_mul_pow2; lia).
    assert (H2 : Z.log2 (v * 2 ^ 1074) = 1074 + Z.log2 v)
      by (apply Z.log2_mul_pow2; lia).
    rewrite HS in H1. lia. }
  assert (Hlv : Z.log2 v <= 53).
  { assert (Z.log2 v < 54); [|lia].
    apply Z.log2_lt_pow2; [lia|].
    assert (2 ^ 53 < 2 ^ 54) by (apply Z.pow_lt_mono_r; lia). lia. }
  pose proof (Z.log2_nonneg v) as Hnv.
  set (E := SpecFloat.fexp prec emax (Z.log2 (Zpos p) + 1 + e)) in *.
  assert (HEu : E = Z.max (Z.log2 v - 52) (-1074)).
  { unfold E. rewrite fexp_unfold. lia. }
  set (u := 2 ^ (E + 1074)) in *.
  assert (Hu : 0 < u) by (unfold u; apply pow2_pos; lia).
  assert (Hmod : (v * 2 ^ 1074) mod u = 0).
  { destruct (Z.eq_dec (Z.log2 v) 53) as [H53|H53].
    - assert (v = 2 ^ 53).
      { destruct (Z.log2_spec v ltac:(lia)) as [Hlo _].
        rewrite H53 in Hlo. lia. }
      subst v. replace u with (2 ^ 1075) by (unfold u; f_equal; lia).
      change (2 ^ 53) with (2 ^ 52 * 2).
      replace (2 ^ 52 * 2 * 2 ^ 1074) with (2 ^ 52 * 2 ^ 1075).
      + apply Z.mod_mul. lia.
      + change 1075 with (Z.succ 1074). rewrite Z.pow_succ_r by lia. ring.
    - replace (2 ^ 1074) with (2 ^ (- E) * u).
      + rewrite Z.mul_assoc. apply Z.mod_mul. lia.
      + unfold u. rewrite <- Z.pow_add_r by lia. f_equal. lia. }
  destruct Hform as [[_ Hbig] | (m' & e' & Hr & Hvalue)]; [lia|].
  exists m', e'. split; [exact Hr|]. rewrite Hr in Hval.
  split; [exact Hval|].
  destruct Hvalue as [Hvalue | [_ Hnz]]; [|contradiction].
  rewrite Hvalue.
  pose proof (Z.div_mod (v * 2 ^ 1074) u ltac:(lia)) as Hdm.
  rewrite Hmod in Hdm. lia.
Qed.

(** The binary64 value of a whole number of at most 2^53 in absolute
    value: it is finite and holds the number. *)
Lemma of_Z_exact (v : Z) :
  - 2 ^ 53 <= v <= 2 ^ 53 ->
  is_finite (of_Z v) = true /\ scaled (of_Z v) = v * 2 ^ 1074.
Proof.
  intros Hv. unfold of_Z. destruct v as [|p|p]; cbn [binary_normalize].
  - split; reflexivity.
  - destruct (binary_round_exact false p 0 (Zpos p)) as (m' & e' & -> & _ & E);
      [lia | lia | reflexivity |].
    split; [reflexivity | exact E].
  - destruct (binary_round_exact true p 0 (Zpos p)) as (m' & e' & -> & _ & E);
      [lia | lia | reflexivity |].
    split; [reflexivity|]. cbn [scaled cond_Zopp]. lia.
Qed.

(** A sum held exactly in an integer mantissa normalizes to the binary64
    value of the whole number it stands for. *)
Lemma binary_normalize_exact (z e v : Z) :
  -1074 <= e -> - 2 ^ 53 <= v <= 2 ^ 53 ->
  z * 2 ^ (e + 1074) = v * 2 ^ 1074 ->
  binary_normalize prec emax z e false = of_Z v.
Proof.
  intros He Hv HS.
  pose proof (pow2_pos (e + 1074) ltac:(lia)) as Hpe.
  assert (Hp1074 : 0 < 2 ^ 1074) by (apply pow2_pos; lia).
  unfold of_Z.
  destruct z as [|p|p], v as [|q|q]; cbn [binary_normalize];
    try reflexivity; try nia.
  - destruct (binary_round_exact false p e (Zpos q))
      as (m1 & e1 & -> & V1 & E1); [lia | lia | exact HS |].
    destruct (binary_round_exact false q 0 (Zpos q))
      as (m2 & e2 & -> & V2 & E2); [lia | lia | reflexivity |].
    apply scaled_inj; try assumption. cbn [scaled cond_Zopp]. lia.
  - destruct (binary_round_exact true p e (Zpos q))
      as (m1 & e1 & -> & V1 & E1); [lia | lia | lia |].
    destruct (binary_round_exact true q 0 (Zpos q))
      as (m2 & e2 & -> & V2 & E2); [lia | lia | reflexivity |].
    apply scaled_inj; try assumption. cbn [scaled cond_Zopp]. lia.
Qed.

(** What [+] and [-] hand to the rounding, for two finite numbers: an
    integer mantissa at the lower exponent that holds the exact result. *)
Lemma aligned_scaled (s : bool) (m : positive) (e ez : Z) :
  -1074 <= ez -> ez <= e ->
  cond_Zopp s (Zpos (fst (shl_align m e ez))) * 2 ^ (ez + 1074) =
  scaled (S754_finite s m e).
Proof.
  intros Hez Hle. destruct (shl_align_spec m e ez) as [Hm _].
  rewrite Hm. replace (Z.min e ez) with ez by lia.
  cbn [scaled].
  assert (E : Zpos m * 2 ^ (e - ez) * 2 ^ (ez + 1074) =
              Zpos m * 2 ^ (e + 1074)).
  { rewrite <- Z.mul_assoc, <- Z.pow_add_r by lia. do 2 f_equal. lia. }
  destruct s; cbn [cond_Zopp]; lia.
Qed.

Lemma add_finite_scaled (sx sy : bool) (mx my : positive) (ex ey : Z) :
  valid (S754_finite sx mx ex) = true ->
  valid (S754_finite sy my ey) = true ->
  exists z ez,
    (S754_finite sx mx ex + S754_finite sy my ey)%num =
      binary_normalize prec emax z ez false /\
    -1074 <= ez /\
    z * 2 ^ (ez + 1074) =
      scaled (S754_finite sx mx ex) + scaled (S754_finite sy my ey).
Proof.
  intros Hx Hy.
  pose proof (valid_finite_exponent _ _ _ Hx).
  pose proof (valid_finite_exponent _ _ _ Hy).
  eexists _, (Z.min ex ey). split; [reflexivity|]. split; [lia|].
  rewrite Z.mul_add_distr_r, !aligned_scaled by lia. reflexivity.
Qed.

Lemma sub_finite_scaled (sx sy : bool) (mx my : positive) (ex ey : Z) :
  valid (S754_finite sx mx ex) = true ->
  valid (S754_finite sy my ey) = true ->
  exists z ez,
    (S754_finite sx mx ex - S754_finite sy my ey)%num =
      binary_normalize prec emax z ez false /\
    -1074 <= ez /\
    z * 2 ^ (ez + 1074) =
      scaled (S754_finite sx mx ex) - scaled (S754_finite sy my ey).
Proof.
  intros Hx Hy.
  pose proof (valid_finite_exponent _ _ _ Hx).
  pose proof (valid_finite_exponent _ _ _ Hy).
  eexists _, (Z.min ex ey). split; [reflexivity|]. split; [lia|].
  rewrite Z.mul_sub_distr_r, !aligned_scaled by lia. reflexivity.
Qed.

(** Whole numbers add and subtract exactly as long as the operands and the
    result stay within 2^53 in absolute value. *)
Theorem add_exact (a b : Z) :
  - 2 ^ 53 <= a <= 2 ^ 53 -> - 2 ^ 53 <= b <= 2 ^ 53 ->
  - 2 ^ 53 <= a + b <= 2 ^ 53 ->
  (of_Z a + of_Z b)%num = of_Z (a + b).
Proof.
  intros Ha Hb Hab.
  destruct (of_Z_exact a Ha) as [Fa Sa], (of_Z_exact b Hb) as [Fb Sb].
  pose proof (of_Z_valid a) as Va. pose proof (of_Z_valid b) as Vb.
  assert (Hp : 0 < 2 ^ 1074) by (apply pow2_pos; lia).
  destruct (of_Z a) as [sa|sa| |sa ma ea] eqn:Ea; try discriminate Fa.
  - assert (a = 0) by (cbn [scaled] in Sa; nia). subst a.
    assert (sa = false) by (unfold of_Z in Ea; simpl in Ea; congruence).
    subst sa. rewrite Z.add_0_l.
    destruct (of_Z b) as [sb|sb| |sb mb eb] eqn:Eb; try discriminate Fb.
    + assert (b = 0) by (cbn [scaled] in Sb; nia). subst b.
      unfold of_Z in Eb; simpl in Eb. injection Eb as <-. reflexivity.
    + reflexivity.
  - destruct (of_Z b) as [sb|sb| |sb mb eb] eqn:Eb; try discriminate Fb.
    + assert (b = 0) by (cbn [scaled] in Sb; nia). subst b.
      rewrite Z.add_0_r, Ea. reflexivity.
    + destruct (add_finite_scaled sa sb ma mb ea eb Va Vb)
        as (z & ez & -> & Hez & Hz).
      apply binary_normalize_exact; [exact Hez | exact Hab |].
      rewrite Hz, Sa, Sb. ring.
Qed.

Theorem sub_exact (a b : Z) :
  - 2 ^ 53 <= a <= 2 ^ 53 -> - 2 ^ 53 <= b <= 2 ^ 53 ->
  - 2 ^ 53 <= a - b <= 2 ^ 53 ->
  (of_Z a - of_Z b)%num = of_Z (a - b).
Proof.
  intros Ha Hb Hab.
  destruct (of_Z_exact a Ha) as [Fa Sa], (of_Z_exact b Hb) as [Fb Sb].
  pose proof (of_Z_valid a) as Va. pose proof (of_Z_valid b) as Vb.
  assert (Hp : 0 < 2 ^ 1074) by (apply pow2_pos; lia).
  destruct (of_Z a) as [sa|sa| |sa ma ea] eqn:Ea; try discriminate Fa.
  - assert (a = 0) by (cbn [scaled] in Sa; nia). subst a.
    assert (sa = false) by (unfold of_Z in Ea; simpl in Ea; congruence).
    subst sa.
    destruct (of_Z b) as [sb|sb| |sb mb eb] eqn:Eb; try discriminate Fb.
    + assert (b = 0) by (cbn [scaled] in Sb; nia). subst b.
      assert (sb = false) by (unfold of_Z in Eb; simpl in Eb; congruence).
      subst sb. reflexivity.
    + change (S754_zero false - S754_finite sb mb eb)%num
        with (S754_finite (negb sb) mb eb).
      assert (Vn : valid (S754_finite (negb sb) mb eb) = true) by exact Vb.
      destruct (of_Z_exact (0 - b) ltac:(lia)) as [Fn Sn].
      pose proof (of_Z_valid (0 - b)) as Vnb.
      destruct (of_Z (0 - b)) as [sn|sn| |sn mn en] eqn:En;
        try discriminate Fn.
      * exfalso. cbn [scaled] in Sn.
        assert (b = 0) by nia. subst b.
        pose proof (valid_finite_exponent _ _ _ Vb).
        pose proof (pow2_pos (eb + 1074) ltac:(lia)).
        destruct sb; cbn [scaled cond_Zopp] in Sb; nia.
      * apply scaled_inj; try assumption.
        rewrite Sn. destruct sb; cbn [scaled cond_Zopp negb] in *; lia.
  - destruct (of_Z b) as [sb|sb| |sb mb eb] eqn:Eb; try discriminate Fb.
    + assert (b = 0) by (cbn [scaled] in Sb; nia). subst b.
      rewrite Z.sub_0_r, Ea. reflexivity.
    + destruct (sub_finite_scaled sa sb ma mb ea eb Va Vb)
        as (z & ez & -> & Hez & Hz).
      apply binary_normalize_exact; [exact Hez | exact Hab |].
      rewrite Hz, Sa, Sb. ring.
Qed.

(** ** Order of sums and differences *)

Lemma geb_finite (x k : number) :
  valid x = true -> valid k = true ->
  is_finite x = true -> is_finite k = true ->
  (x >=? k)%num = true <-> scaled k <= scaled x.
Proof.
  intros Vx Vk Fx Fk. unfold geb. rewrite compare_scaled by assumption.
  destruct (Z.compare_spec (scaled x) (scaled k)); split; intros;
    try reflexivity; try discriminate; lia.
Qed.

Lemma ltb_finite (x k : number) :
  valid x = true -> valid k = true ->
  is_finite x = true -> is_finite k = true ->
  (x <? k)%num = true <-> scaled x < scaled k.
Proof.
  intros Vx Vk Fx Fk. unfold ltb. rewrite compare_scaled by assumption.
  destruct (Z.compare_spec (scaled x) (scaled k)); split; intros;
    try reflexivity; try discriminate; lia.
Qed.

(** A number that is at least a positive finite one is +Infinity or a
    finite number of at least that value. *)
Lemma geb_positive_inv (x k : number) :
  valid x = true -> valid k = true -> is_finite k = true ->
  0 < scaled k -> (x >=? k)%num = true ->
  not_negative x /\ (is_finite x = true -> scaled k <= scaled x).
Proof.
  intros Vx Vk Fk Hk Hge.
  assert (Hfin : is_finite x = true -> scaled k <= scaled x).
  { intros Fx. apply geb_finite; assumption. }
  split; [|exact Hfin].
  destruct x as [sx|[]| |[] mx ex]; unfold not_negative; eauto.
  - destruct k as [sk|sk| |sk mk ek]; try discriminate Fk; discriminate Hge.
  - destruct k as [sk|sk| |sk mk ek]; discriminate Hge.
  - exfalso. specialize (Hfin eq_refl). cbn [scaled cond_Zopp] in Hfin.
    pose proof (valid_finite_exponent _ _ _ Vx).
    pose proof (pow2_pos (ex + 1074) ltac:(lia)). nia.
Qed.

(** The sum of two numbers that are not negative is at least every
    positive finite number that their values reach together. *)
Lemma add_ge (x y k : number) :
  valid x = true -> valid y = true -> valid k = true ->
  not_negative x -> not_negative y ->
  is_finite k = true -> 0 < scaled k ->
  (is_finite x = true -> is_finite y = true ->
   scaled k <= scaled x + scaled y) ->
  (x + y >=? k)%num = true.
Proof.
  intros Vx Vy Vk Nx Ny Fk Hk Hsum.
  assert (Hinf : (S754_infinity false >=? k)%num = true).
  { destruct k as [sk|sk| |sk mk ek]; try discriminate Fk; reflexivity. }
  destruct Nx as [[sx ->]|[->|(mx & ex & ->)]],
           Ny as [[sy ->]|[->|(my & ey & ->)]];
    try exact Hinf.
  - exfalso. specialize (Hsum eq_refl eq_refl). cbn [scaled] in Hsum. lia.
  - change (S754_zero sx + S754_finite false my ey)%num
      with (S754_finite false my ey).
    apply geb_finite; try assumption; try reflexivity.
    specialize (Hsum eq_refl eq_refl). cbn [scaled] in *. lia.
  - change (S754_finite false mx ex + S754_zero sy)%num
      with (S754_finite false mx ex).
    apply geb_finite; try assumption; try reflexivity.
    specialize (Hsum eq_refl eq_refl). cbn [scaled] in *. lia.
  - specialize (Hsum eq_refl eq_refl).
    destruct (add_finite_scaled false false mx my ex ey Vx Vy)
      as (z & ez & -> & Hez & Hz).
    pose proof (pow2_pos (ez + 1074) ltac:(lia)) as Hp.
    destruct z as [|p|p]; try nia.
    cbn [binary_normalize]. apply binary_round_ge; try assumption. lia.
Qed.

(** Subtracting a smaller number gives a positive one. *)
Theorem sub_smaller_positive (x d : number) :
  valid x = true -> valid d = true ->
  (x >? d)%num = true -> (x - d >? of_Z 0)%num = true.
Proof.
  intros Vx Vd Hgt. unfold gtb, ltb in Hgt.
  destruct x as [sx|sx| |sx mx ex], d as [sd|sd| |sd md ed];
    try (destruct sx; try destruct sd; simpl in Hgt; try discriminate Hgt;
         reflexivity);
    try (destruct sd; simpl in Hgt; try discriminate Hgt; reflexivity);
    try discriminate Hgt.
  assert (Hlt : scaled (S754_finite sd md ed) < scaled (S754_finite sx mx ex)).
  { apply ltb_finite; try assumption; reflexivity. }
  destruct (sub_finite_scaled sx sd mx md ex ed Vx Vd)
    as (z & ez & -> & Hez & Hz).
  pose proof (pow2_pos (ez + 1074) ltac:(lia)) as Hp.
  destruct z as [|p|p]; try nia.
  cbn [binary_normalize].
  destruct (binary_round_scaled false p ez Hez) as [_ Hform].
  cbv zeta in Hform.
  destruct Hform as [[-> _] | (m' & e' & -> & _)]; reflexivity.
Qed.

(** The order of whole numbers of at most 2^53 in absolute value is the
    order of their binary64 values. *)
Lemma of_Z_compare (a b : Z) :
  - 2 ^ 53 <= a <= 2 ^ 53 -> - 2 ^ 53 <= b <= 2 ^ 53 ->
  SFcompare (of_Z a) (of_Z b) = Some (a ?= b).
Proof.
  intros Ha Hb.
  destruct (of_Z_exact a Ha) as [Fa Sa], (of_Z_exact b Hb) as [Fb Sb].
  rewrite compare_scaled by (try apply of_Z_valid; assumption).
  rewrite Sa, Sb. f_equal.
  pose proof (pow2_pos 1074 ltac:(lia)) as Hp.
  destruct (Z.compare_spec a b) as [C|C|C].
  - subst. apply Z.compare_refl.
  - apply Z.compare_lt_iff. nia.
  - apply Z.compare_gt_iff. nia.
Qed.

Lemma of_Z_geb (a b : Z) :
  - 2 ^ 53 <= a <= 2 ^ 53 -> - 2 ^ 53 <= b <= 2 ^ 53 ->
  (of_Z a >=? of_Z b)%num = (b <=? a).
Proof.
  intros Ha Hb. unfold geb. rewrite of_Z_compare by assumption.
  destruct (Z.compare_spec a b), (Z.leb_spec b a); try reflexivity; lia.
Qed.

Lemma of_Z_ltb (a b : Z) :
  - 2 ^ 53 <= a <= 2 ^ 53 -> - 2 ^ 53 <= b <= 2 ^ 53 ->
  (of_Z a <? of_Z b)%num = (a <? b).
Proof.
  intros Ha Hb. unfold ltb. rewrite of_Z_compare by assumption.
  destruct (Z.compare_spec a b), (Z.ltb_spec a b); try reflexivity; lia.
Qed.

(** The binary64 value of a positive whole number, however large, is at
    least 1; that of a whole number that is not positive is not above 0. *)
Lemma of_Z_positive (z : Z) :
  0 < z -> (of_Z z >=? of_Z 1)%num = true /\ (of_Z z >? of_Z 0)%num = true.
Proof.
  intros Hz. destruct z as [|p|p]; try lia. unfold of_Z at 1 3.
  cbn [binary_normalize]. split.
  - apply binary_round_ge; [apply of_Z_valid | reflexivity | lia |].
    destruct (of_Z_exact 1 ltac:(lia)) as [_ ->]. lia.
  - destruct (binary_round_scaled false p 0 ltac:(lia)) as [_ Hform].
    cbv zeta in Hform.
    destruct Hform as [[-> _] | (m' & e' & -> & _)]; reflexivity.
Qed.

Lemma of_Z_not_positive (z : Z) :
  z <= 0 -> (of_Z z >? of_Z 0)%num = false.
Proof.
  intros Hz. destruct z as [|p|p]; try lia; [reflexivity|].
  unfold of_Z at 1. cbn [binary_normalize].
  destruct (binary_round_spec true p 0) as (_ & Hform & _).
  destruct Hform as [-> | [-> | (m' & e' & ->)]]; reflexivity.
Qed.

Lemma of_Z_not_nan (z : Z) : of_Z z <> S754_nan.
Proof.
  unfold of_Z. destruct z as [|p|p]; cbn [binary_normalize];
    [discriminate | |].
  - destruct (binary_round_spec false p 0) as (_ & Hform & _).
    destruct Hform as [-> | [-> | (m' & e' & ->)]]; discriminate.
  - destruct (binary_round_spec true p 0) as (_ & Hform & _).
    destruct Hform as [-> | [-> | (m' & e' & ->)]]; discriminate.
Qed.

(** ** Signs *)

Lemma geb_zero_not_negative (x : number) :
  (x >=? of_Z 0)%num = true <-> not_negative x.
Proof.
  unfold not_negative. split.
  - destruct x as [s|[]| |[] m e]; try discriminate; eauto.
  - intros [[s ->]|[->|(m & e & ->)]]; reflexivity.
Qed.

Lemma mul_not_negative (x y : number) :
  valid x = true -> valid y = true ->
  not_negative x -> not_negative y ->
  (is_finite x = true /\ is_finite y = true) \/
  ((forall s, x <> S754_zero s) /\ (forall s, y <> S754_zero s)) ->
  not_negative (x * y)%num.
Proof.
  intros Hvx Hvy Hx Hy Hc. unfold not_negative in *. unfold mul, SFmul.
  destruct Hx as [[sx ->]|[->|(mx & ex & ->)]],
           Hy as [[sy ->]|[->|(my & ey & ->)]].
  - left. eexists. reflexivity.
  - destruct Hc as [[_ Hc]|[Hc _]]; [discriminate Hc|].
    exfalso. apply (Hc sx). reflexivity.
  - left. eexists. reflexivity.
  - destruct Hc as [[Hc _]|[_ Hc]]; [discriminate Hc|].
    exfalso. apply (Hc sy). reflexivity.
  - right. left. reflexivity.
  - right. left. reflexivity.
  - left. eexists. reflexivity.
  - right. left. reflexivity.
  - apply valid_finite_inv in Hvx as [Hvx _], Hvy as [Hvy _].
    destruct (binary_round_aux_spec false (Zpos (mx * my)) (ex + ey) loc_Exact)
      as (_ & Hf & _).
    + lia.
    + rewrite fexp_unfold, Pos2Z.inj_mul.
      pose proof (Z.log2_mul_below (Zpos mx) (Zpos my)).
      pose proof (Z.log2_nonneg (Zpos mx)).
      pose proof (Z.log2_nonneg (Zpos my)).
      lia.
    + simpl xorb. destruct Hf as [Hf|[Hf|Hf]]; rewrite ?Hf; eauto.
Qed.

Lemma add_not_negative (x y : number) :
  not_negative x -> not_negative y -> not_negative (x + y)%num.
Proof.
  intros Hx Hy. unfold not_negative in *. unfold add, SFadd.
  destruct Hx as [[sx ->]|[->|(mx & ex & ->)]],
           Hy as [[sy ->]|[->|(my & ey & ->)]].
  - left. destruct sx, sy; eexists; reflexivity.
  - right. left. reflexivity.
  - right. right. eauto.
  - right. left. reflexivity.
  - right. left. reflexivity.
  - right. left. reflexivity.
  - right. right. eauto.
  - right. left. reflexivity.
  - simpl cond_Zopp.
    destruct (binary_round_spec false
                (fst (shl_align mx ex (Z.min ex ey)) +
                 fst (shl_align my ey (Z.min ex ey)))
                (Z.min ex ey)) as (_ & Hf & _).
    simpl binary_normalize.
    destruct Hf as [Hf|[Hf|Hf]]; rewrite ?Hf; eauto.
Qed.

(** ** Numbers of at least one *)

Lemma scaled_one : scaled (of_Z 1) = 2 ^ 1074.
Proof. destruct (of_Z_exact 1 ltac:(lia)) as [_ ->]. lia. Qed.

Lemma at_least_one_inv (q : number) :
  at_least_one q ->
  not_negative q /\ (is_finite q = true -> 2 ^ 1074 <= scaled q).
Proof.
  intros [Vq Hq].
  destruct (geb_positive_inv q (of_Z 1) Vq (of_Z_valid 1) eq_refl) as [H1 H2];
    [rewrite scaled_one; apply pow2_pos; lia | exact Hq |].
  rewrite scaled_one in H2. auto.
Qed.

(** Adding a number of at least one to a number that is not negative gives
    a number of at least one, rounding included. *)
Lemma add_at_least_one (x y : number) :
  valid x = true -> not_negative x -> at_least_one y ->
  at_least_one (x + y)%num.
Proof.
  intros Vx Nx Hy. pose proof Hy as [Vy _].
  destruct (at_least_one_inv y Hy) as [Ny Sy].
  split; [apply add_valid; assumption|].
  apply add_ge;
    [exact Vx | exact Vy | apply of_Z_valid | exact Nx | exact Ny
    | reflexivity | rewrite scaled_one; apply pow2_pos; lia |].
  intros Fx Fy. rewrite scaled_one. specialize (Sy Fy).
  assert (0 <= scaled x); [|lia].
  destruct Nx as [[s ->]|[->|(m & e & ->)]]; cbn [scaled cond_Zopp]; lia.
Qed.

Lemma at_least_one_not_negative (q : number) :
  at_least_one q -> not_negative q.
Proof. intros H. apply at_least_one_inv, H. Qed.

Lemma at_least_one_not_zero (q : number) :
  at_least_one q -> (q =? of_Z 0)%num = false /\ (q <=? of_Z 0)%num = false.
Proof.
  intros [Vq Hq]. unfold eqb, leb, geb in *.
  destruct q as [s|[]| |[] m e]; try discriminate Hq; split; reflexivity.
Qed.

(** The sum of two positive numbers is positive. *)
Lemma positive_inv (x : number) :
  (x >? of_Z 0)%num = true ->
  x = S754_infinity false \/ exists m e, x = S754_finite false m e.
Proof.
  destruct x as [s|[]| |[] m e]; try discriminate; eauto.
Qed.

Lemma add_positive (x y : number) :
  valid x = true -> valid y = true ->
  (x >? of_Z 0)%num = true -> (y >? of_Z 0)%num = true ->
  (x + y >? of_Z 0)%num = true.
Proof.
  intros Vx Vy Hx Hy.
  destruct (positive_inv x Hx) as [->|(mx & ex & ->)],
           (positive_inv y Hy) as [->|(my & ey & ->)]; try reflexivity.
  destruct (add_finite_scaled false false mx my ex ey Vx Vy)
    as (z & ez & -> & Hez & Hz).
  pose proof (valid_finite_exponent _ _ _ Vx).
  pose proof (valid_finite_exponent _ _ _ Vy).
  pose proof (pow2_pos (ex + 1074) ltac:(lia)).
  pose proof (pow2_pos (ey + 1074) ltac:(lia)).
  pose proof (pow2_pos (ez + 1074) ltac:(lia)).
  cbn [scaled cond_Zopp] in Hz.
  destruct z as [|p|p]; try nia.
  cbn [binary_normalize].
  destruct (binary_round_scaled false p ez Hez) as [_ Hform].
  cbv zeta in Hform.
  destruct Hform as [[-> _] | (m' & e' & -> & _)]; reflexivity.
Qed.

(** ** Subtraction and maximum *)

Lemma binary_normalize_not_nan (z e : Z) (szero : bool) :
  binary_normalize prec emax z e szero <> S754_nan.
Proof.
  destruct z as [|p|p]; cbn [binary_normalize]; [discriminate | |].
  - destruct (binary_round_spec false p e) as (_ & Hform & _).
    destruct Hform as [-> | [-> | (m' & e' & ->)]]; discriminate.
  - destruct (binary_round_spec true p e) as (_ & Hform & _).
    destruct Hform as [-> | [-> | (m' & e' & ->)]]; discriminate.
Qed.

Theorem sub_valid (x y : number) :
  valid x = true -> valid y = true -> valid (x - y)%num = true.
Proof.
  intros Hx Hy. unfold sub.
  destruct x as [sx|sx| |sx mx ex], y as [sy|sy| |sy my ey];
    try exact (binary_normalize_valid _ _ _);
    try destruct sx; try destruct sy; try reflexivity; assumption.
Qed.

(** Subtracting a finite number from a number that is not NaN does not give
    NaN. *)
Lemma sub_finite_not_nan (x y : number) :
  x <> S754_nan -> is_finite y = true -> (x - y)%num <> S754_nan.
Proof.
  intros Hx Fy. unfold sub.
  destruct x as [sx|sx| |sx mx ex], y as [sy|sy| |sy my ey];
    try discriminate Fy; try contradiction;
    try (apply binary_normalize_not_nan);
    try destruct sx; try destruct sy; discriminate.
Qed.

Lemma compare_flip (x y : number) (c : comparison) :
  valid x = true -> valid y = true ->
  is_finite x = true -> is_finite y = true ->
  SFcompare x y = Some c -> SFcompare y x = Some (CompOpp c).
Proof.
  intros Vx Vy Fx Fy. rewrite !compare_scaled by assumption.
  intros H. injection H as <-. f_equal. apply Z.compare_antisym.
Qed.

(** The maximum of 1 and a number that is not NaN is at least 1. *)
Lemma max_one_at_least_one (x : number) :
  valid x = true -> x <> S754_nan ->
  at_least_one (Math_max (of_Z 1) x).
Proof.
  intros Vx Hx.
  assert (V1 : valid (of_Z 1) = true) by apply of_Z_valid.
  assert (F1 : is_finite (of_Z 1) = true) by reflexivity.
  assert (G1 : (of_Z 1 >=? of_Z 1)%num = true) by reflexivity.
  assert (Z1 : match of_Z 1 with S754_zero true => x | _ => of_Z 1 end
               = of_Z 1) by reflexivity.
  unfold at_least_one, Math_max. rewrite Z1.
  set (one := of_Z 1) in *. clearbody one.
  destruct (SFcompare one x) as [[]|] eqn:C.
  - split; assumption.
  - split; [exact Vx|]. unfold geb.
    destruct x as [sx|sx| |sx mx ex]; try contradiction.
    + rewrite (compare_flip one _ Lt V1 Vx F1 eq_refl C). reflexivity.
    + destruct one as [s1|s1| |s1 m1 e1]; try discriminate F1;
        destruct sx; try discriminate C; reflexivity.
    + rewrite (compare_flip one _ Lt V1 Vx F1 eq_refl C). reflexivity.
  - split; assumption.
  - exfalso. destruct one as [s1|s1| |s1 m1 e1]; try discriminate F1;
      destruct x as [sx|sx| |sx mx ex]; try discriminate C; contradiction.
Qed.

Lemma at_least_one_not_nan (q : number) : at_least_one q -> q <> S754_nan.
Proof. intros [_ H] ->. discriminate H. Qed.

(** A number above 1 is at least 1; so is a number that is not at most 1
    and not NaN. *)
Lemma gtb_one_at_least_one (q : number) :
  valid q = true -> (q >? of_Z 1)%num = true -> at_least_one q.
Proof.
  intros Vq H. split; [exact Vq|]. unfold gtb, ltb, geb in *.
  assert (V1 : valid (of_Z 1) = true) by apply of_Z_valid.
  assert (F1 : is_finite (of_Z 1) = true) by reflexivity.
  set (one := of_Z 1) in *. clearbody one.
  destruct q as [s|s| |s m e].
  - destruct (SFcompare one (S754_zero s)) as [[]|] eqn:C;
      try discriminate H.
    rewrite (compare_flip one _ Lt V1 Vq F1 eq_refl C). reflexivity.
  - destruct one as [s1|s1| |s1 m1 e1]; try discriminate F1;
      destruct s; try discriminate H; reflexivity.
  - destruct one as [s1|s1| |s1 m1 e1]; discriminate H.
  - destruct (SFcompare one (S754_finite s m e)) as [[]|] eqn:C;
      try discriminate H.
    rewrite (compare_flip one _ Lt V1 Vq F1 eq_refl C). reflexivity.
Qed.

End Binary64.

(** ** Cart store *)

Section FindIndex.
Context {A : Type} (pred : A -> bool).

Lemma findIndex_from_absent (l : list A) (i : Z) :
  Forall (fun x => pred x = false) l -> findIndex_from pred l i = -1.
Proof.
  intros H. revert i. induction H as [|x l Hx _ IH]; intros i; simpl.
  - reflexivity.
  - rewrite Hx. apply IH.
Qed.

Lemma findIndex_from_present (l1 l2 : list A) (x : A) (i : Z) :
  Forall (fun y => pred y = false) l1 -> pred x = true ->
  findIndex_from pred (l1 ++ x :: l2) i = i + Z.of_nat (length l1).
Proof.
  intros H Hx. revert i. induction H as [|y l Hy _ IH]; intros i; simpl.
  - rewrite Hx. lia.
  - rewrite Hy, IH. lia.
Qed.

(** The first element that satisfies the predicate splits the list. *)
Lemma first_match_split (l : list A) :
  Forall (fun x => pred x = false) l \/
  exists l1 x l2, l = l1 ++ x :: l2 /\ pred x = true /\
                  Forall (fun y => pred y = false) l1.
Proof.
  induction l as [|a l IH].
  - left. constructor.
  - destruct (pred a) eqn:Ha.
    + right. exists [], a, l. repeat split; [assumption | constructor].
    + destruct IH as [IH | (l1 & x & l2 & -> & Hx & Hl1)].
      * left. constructor; assumption.
      * right. exists (a :: l1), x, l2. repeat split; try assumption.
        constructor; assumption.
Qed.
End FindIndex.

Lemma add_item_absent (s : CartState) (p : Product) (q : number) :
  Forall (fun item => has_key (generateItemKey p) item = false) (items s) ->
  cartReducer s (ADD_ITEM p q) =
  set_items s (items s ++
    [{| product := p; quantity := q; itemKey := generateItemKey p |}]).
Proof.
  intros H. unfold cartReducer, findIndex.
  pose proof (findIndex_from_absent (has_key (generateItemKey p)) _ 0 H) as E.
  unfold has_key in E. rewrite E. reflexivity.
Qed.

Lemma add_item_present (s : CartState) (p : Product) (q : number) l1 x l2 :
  items s = l1 ++ x :: l2 ->
  Forall (fun item => has_key (generateItemKey p) item = false) l1 ->
  has_key (generateItemKey p) x = true ->
  cartReducer s (ADD_ITEM p q) =
  set_items s (l1 ++ set_quantity x (quantity x + q)%num :: l2).
Proof.
  intros Hs H1 Hx. unfold cartReducer, findIndex. rewrite Hs.
  pose proof (findIndex_from_present (has_key (generateItemKey p))
                l1 l2 x 0 H1 Hx) as E.
  unfold has_key in E. rewrite E. clear E.
  replace (0 <=? 0 + Z.of_nat (length l1)) with true by (symmetry; apply Z.leb_le; lia).
  replace (Z.to_nat (0 + Z.of_nat (length l1))) with (length l1 + 0)%nat by lia.
  rewrite lookup_app_r by lia.
  replace (length l1 + 0 - length l1)%nat with 0%nat by lia. simpl.
  rewrite insert_app_r. reflexivity.
Qed.

Lemma keys_app (l1 l2 : list CartItem) : keys (l1 ++ l2) = keys l1 ++ keys l2.
Proof. apply map_app. Qed.

Lemma has_key_false_not_in (key : string) (l : list CartItem) :
  Forall (fun item => has_key key item = false) l <-> ~ In key (keys l).
Proof.
  unfold has_key, keys. rewrite Forall_forall, in_map_iff. split.
  - intros H (x & Hk & Hx%list_elem_of_In). apply H in Hx.
    apply String.eqb_neq in Hx. contradiction.
  - intros H x Hx%list_elem_of_In. apply String.eqb_neq. intros Hk.
    apply H. exists x. split; assumption.
Qed.

Lemma keys_filter_NoDup (f : CartItem -> bool) (l : list CartItem) :
  NoDup (keys l) -> NoDup (keys (List.filter f l)).
Proof.
  induction l as [|x l IH]; simpl; intros H.
  - constructor.
  - apply NoDup_cons in H as [Hx Hl]. destruct (f x); simpl.
    + apply NoDup_cons. split; [|apply IH, Hl].
      intros Hin%list_elem_of_In. apply Hx, list_elem_of_In.
      unfold keys in *. apply in_map_iff in Hin as (y & Hy & Hin).
      apply filter_In in Hin as [Hin _]. apply in_map_iff. eauto.
    + apply IH, Hl.
Qed.

Lemma keys_map_set_quantity (key : string) (q : number) (l : list CartItem) :
  keys (map (fun item => if String.eqb (itemKey item) key
                         then set_quantity item q else item) l) = keys l.
Proof.
  unfold keys. rewrite map_map. apply map_ext. intros x.
  destruct (String.eqb (itemKey x) key); reflexivity.
Qed.

(** What ADD_ITEM does to the line list, in its two cases. *)
Lemma add_item_cases (s : CartState) (p : Product) (q : number) :
  (~ In (generateItemKey p) (keys (items s)) /\
   items (cartReducer s (ADD_ITEM p q)) =
   items s ++ [{| product := p; quantity := q; itemKey := generateItemKey p |}])
  \/
  (exists l1 x l2,
     items s = l1 ++ x :: l2 /\ itemKey x = generateItemKey p /\
     ~ In (generateItemKey p) (keys l1) /\
     items (cartReducer s (ADD_ITEM p q)) =
     l1 ++ set_quantity x (quantity x + q)%num :: l2).
Proof.
  destruct (first_match_split (has_key (generateItemKey p)) (items s))
    as [H | (l1 & x & l2 & Hs & Hx & H1)].
  - left. split; [apply has_key_false_not_in, H|].
    rewrite add_item_absent by assumption. reflexivity.
  - right. exists l1, x, l2. repeat split; try assumption.
    + apply String.eqb_eq, Hx.
    + apply has_key_false_not_in, H1.
    + rewrite (add_item_present s p q l1 x l2) by assumption. reflexivity.
Qed.

Lemma update_quantity_unfold (s : CartState) (key : string) (q : number) :
  cartReducer s (UPDATE_QUANTITY key q) =
  if (q <=? of_Z 0)%num then
    set_items s
      (List.filter (fun item => negb (String.eqb (itemKey item) key))
                   (items s))
  else
    set_items s
      (map (fun item =>
              if String.eqb (itemKey item) key then set_quantity item q
              else item)
           (items s)).
Proof. reflexivity. Qed.

Lemma reducer_keeps_distinct (s : CartState) (a : CartAction) :
  payload_distinct a -> NoDup (keys (items s)) ->
  NoDup (keys (items (cartReducer s a))).
Proof.
  intros Ha Hs. destruct a as [p q|key|key q| | | | |b|its]; simpl in Ha;
    try exact Hs; try exact Ha.
  - destruct (add_item_cases s p q) as [[Hn ->] | (l1 & x & l2 & E & Hx & _ & ->)].
    + rewrite keys_app. apply NoDup_app. repeat split.
      * exact Hs.
      * intros k Hk Hk'. apply list_elem_of_In in Hk.
        simpl in Hk'. apply list_elem_of_singleton in Hk'. subst k. contradiction.
      * simpl. apply NoDup_singleton.
    + rewrite E in Hs. rewrite keys_app in *. exact Hs.
  - simpl. apply keys_filter_NoDup, Hs.
  - rewrite update_quantity_unfold. destruct (q <=? of_Z 0)%num; simpl.
    + apply keys_filter_NoDup, Hs.
    + rewrite keys_map_set_quantity. exact Hs.
  - simpl. constructor.
Qed.

Lemma run_invariant (P : CartState -> Prop) (Q : CartAction -> Prop) :
  (forall s a, Q a -> P s -> P (cartReducer s a)) ->
  forall actions s, Forall Q actions -> P s -> P (run actions s).
Proof.
  intros Hstep actions. induction actions as [|a l IH]; intros s Hl Hs.
  - exact Hs.
  - apply Forall_cons in Hl as [Ha Hl]. simpl. apply IH; [exact Hl|].
    apply Hstep; assumption.
Qed.

Lemma distinct_key_one_line (l : list CartItem) (x y : CartItem) :
  NoDup (keys l) -> In x l -> In y l -> itemKey x = itemKey y -> x = y.
Proof.
  induction l as [|a l IH]; simpl; intros H Hx Hy E; [contradiction|].
  apply NoDup_cons in H as [Ha Hl].
  assert (Hin : forall z, In z l -> itemKey z = itemKey a -> False).
  { intros z Hz Hk. apply Ha, list_elem_of_In. unfold keys.
    apply in_map_iff. eauto. }
  destruct Hx as [-> | Hx], Hy as [-> | Hy].
  - reflexivity.
  - exfalso. eapply Hin; eauto.
  - exfalso. eapply Hin; eauto.
  - apply IH; assumption.
Qed.

Lemma filter_keeps_quantities (f : CartItem -> bool) (l : list CartItem) :
  quantities_positive l -> quantities_positive (List.filter f l).
Proof.
  unfold quantities_positive. rewrite !Forall_forall.
  intros H x Hx%list_elem_of_In. apply filter_In in Hx as [Hx _].
  apply H, list_elem_of_In, Hx.
Qed.

(** Every command whose own quantities respect the invariant keeps it: a
    line that is grown stays at one or above through the rounding of the
    sum. *)
Lemma reducer_keeps_quantities (s : CartState) (a : CartAction) :
  quantity_respecting a -> quantities_positive (items s) ->
  quantities_positive (items (cartReducer s a)).
Proof.
  intros Ha Hs. destruct a as [p q|key|key q| | | | |b|its];
    cbn [quantity_respecting] in Ha; try exact Hs; try exact Ha.
  - unfold quantities_positive in *.
    destruct (add_item_cases s p q) as [[Hn ->] | (l1 & x & l2 & E & Hx & _ & ->)].
    + apply Forall_app. split; [exact Hs|]. repeat constructor; apply Ha.
    + rewrite E in Hs. apply Forall_app in Hs as [H1 H2].
      apply Forall_cons in H2 as [Hq H2].
      apply Forall_app. split; [exact H1|]. constructor; [|exact H2].
      simpl. apply add_at_least_one; [apply Hq | | exact Ha].
      apply at_least_one_not_negative, Hq.
  - simpl. apply filter_keeps_quantities, Hs.
  - rewrite update_quantity_unfold. destruct Ha as [Vq Hq].
    destruct (q <=? of_Z 0)%num eqn:E; simpl.
    + apply filter_keeps_quantities, Hs.
    + destruct Hq as [Hq|Hq]; [congruence|].
      unfold quantities_positive in *. apply Forall_map.
      eapply List.Forall_impl; [|exact Hs]. intros x Hx. simpl.
      destruct (String.eqb (itemKey x) key); simpl; [split; assumption|].
      exact Hx.
  - simpl. constructor.
Qed.

Lemma same_pair_key (p p' : Product) :
  same_pair p p' -> generateItemKey p' = generateItemKey p.
Proof.
  unfold same_pair, generateItemKey. intros [Hid Hv]. rewrite Hid.
  destruct (variant p') as [v'|], (variant p) as [v|]; simpl in Hv;
    try discriminate; [|reflexivity].
  injection Hv as ->. reflexivity.
Qed.

Lemma has_key_refl (key : string) (x : CartItem) :
  itemKey x = key -> has_key key x = true.
Proof. intros <-. apply String.eqb_refl. Qed.

(** Adding to a cart whose last line carries the key only grows that line. *)
Lemma add_commands_merge (p : Product) (rest : list (Product * number)) :
  Forall (fun pq => same_pair p (fst pq)) rest ->
  forall (s : CartState) (l0 : list CartItem) (line : CartItem),
    items s = l0 ++ [line] ->
    itemKey line = generateItemKey p ->
    ~ In (generateItemKey p) (keys l0) ->
    items (run (add_commands rest) s) =
    l0 ++ [set_quantity line (sum_quantities (quantity line) rest)].
Proof.
  induction 1 as [|[p' q'] rest Hp _ IH]; intros s l0 line Hs Hk Hl0.
  - simpl. rewrite Hs. destruct line; reflexivity.
  - simpl in Hp. apply same_pair_key in Hp.
    change (run (add_commands ((p', q') :: rest)) s)
      with (run (add_commands rest) (cartReducer s (ADD_ITEM p' q'))).
    assert (E : cartReducer s (ADD_ITEM p' q') =
                set_items s
                  (l0 ++ [set_quantity line (quantity line + q')%num])).
    { apply add_item_present; rewrite ?Hp.
      - exact Hs.
      - apply has_key_false_not_in, Hl0.
      - apply has_key_refl, Hk. }
    rewrite E.
    rewrite (IH _ l0 (set_quantity line (quantity line + q')%num));
      [| reflexivity | exact Hk | exact Hl0].
    reflexivity.
Qed.

Lemma filter_has_key_absent (key : string) (l : list CartItem) :
  ~ In key (keys l) -> List.filter (has_key key) l = [].
Proof.
  intros H. apply has_key_false_not_in in H.
  induction H as [|x l Hx _ IH]; simpl; [reflexivity|].
  rewrite Hx. exact IH.
Qed.

(** The sum of positive quantities is positive, rounding included. *)
Lemma sum_quantities_positive (q : number) (rest : list (Product * number)) :
  Forall (fun pq => valid (snd pq) = true /\ (snd pq >? of_Z 0)%num = true)
         rest ->
  valid q = true -> (q >? of_Z 0)%num = true ->
  valid (sum_quantities q rest) = true /\
  (sum_quantities q rest >? of_Z 0)%num = true.
Proof.
  unfold sum_quantities. intros H. revert q.
  induction H as [|[p' q'] rest [Vq' Hq'] _ IH]; intros q Vq Hq; simpl.
  - auto.
  - apply IH; [apply add_valid | apply add_positive]; assumption.
Qed.

(** The sum of whole quantities is the whole sum as long as it stays
    within 2^53. *)
Lemma sum_quantities_whole (rest : list (Product * number)) :
  forall (z : Z) (zs : list Z),
    map snd rest = map of_Z zs ->
    0 <= z -> Forall (fun z' => 0 <= z') zs -> z + sum_Z zs <= 2 ^ 53 ->
    sum_quantities (of_Z z) rest = of_Z (z + sum_Z zs).
Proof.
  unfold sum_quantities.
  induction rest as [|[p' q'] rest IH]; intros z zs E Hz Hzs Hsum;
    destruct zs as [|z' zs]; try discriminate E; simpl in *.
  - rewrite Z.add_0_r. reflexivity.
  - injection E as -> E. apply Forall_cons in Hzs as [Hz' Hzs].
    assert (0 <= sum_Z zs).
    { clear -Hzs. induction Hzs; simpl; lia. }
    rewrite add_exact by lia. rewrite (IH (z + z') zs E); try assumption.
    + f_equal. lia.
    + lia.
    + lia.
Qed.

(** C2. For every sequence of AddItem commands that all carry the same
    (productId, variantId) pair, run on a cart that does not hold the key
    yet (the empty cart among them), the first command appends one line at
    the end and leaves the lines before it as they were, the later ones
    only grow it: the result is the old list followed by one line for the
    pair, the only line that carries the key, whose quantity is the sum of
    the quantities added. The sum is the one the language computes, from
    the left in binary64; it is positive when the quantities are, and for
    whole quantities whose total is at most 2^53 it is the whole total. *)
Theorem add_same_pair_one_line_sum
    (s : CartState) (p : Product) (q : number)
    (rest : list (Product * number)) :
  ~ In (generateItemKey p) (keys (items s)) ->
  Forall (fun pq => same_pair p (fst pq)) rest ->
  Forall (fun pq => valid (snd pq) = true /\ (snd pq >? of_Z 0)%num = true)
         ((p, q) :: rest) ->
  let result := run (add_commands ((p, q) :: rest)) s in
  let total := sum_quantities q rest in
  items (cartReducer s (addItem p (Some q))) =
    items s ++ [{| product := p; quantity := q; itemKey := generateItemKey p |}]
  /\ items result =
     items s ++ [{| product := p; quantity := total;
                    itemKey := generateItemKey p |}]
  /\ List.filter (has_key (generateItemKey p)) (items result) =
     [{| product := p; quantity := total; itemKey := generateItemKey p |}]
  /\ (total >? of_Z 0)%num = true
  /\ (forall zs : list Z,
        map snd ((p, q) :: rest) = map of_Z zs ->
        Forall (fun z => 0 < z) zs -> sum_Z zs <= 2 ^ 53 ->
        total = of_Z (sum_Z zs)).
Proof.
  intros Hs Hrest Hpos result total.
  assert (Hfirst : cartReducer s (ADD_ITEM p q) =
    set_items s (items s ++
      [{| product := p; quantity := q; itemKey := generateItemKey p |}])).
  { apply add_item_absent, has_key_false_not_in, Hs. }
  assert (Hres : items result =
     items s ++ [{| product := p; quantity := total;
                    itemKey := generateItemKey p |}]).
  { unfold result.
    change (run (add_commands ((p, q) :: rest)) s)
      with (run (add_commands rest) (cartReducer s (ADD_ITEM p q))).
    rewrite Hfirst.
    rewrite (add_commands_merge p rest Hrest _ (items s)
               {| product := p; quantity := q; itemKey := generateItemKey p |});
      [reflexivity | reflexivity | reflexivity | exact Hs]. }
  split; [|split; [|split; [|split]]].
  - unfold addItem. simpl nullish. rewrite Hfirst. reflexivity.
  - exact Hres.
  - rewrite Hres, List.filter_app, filter_has_key_absent by exact Hs. simpl.
    unfold has_key. simpl. rewrite String.eqb_refl. reflexivity.
  - apply Forall_cons in Hpos as [[Vq Hq] Hpos]. simpl in Vq, Hq.
    apply sum_quantities_positive; assumption.
  - intros zs E Hzs Hsum. destruct zs as [|z zs]; [discriminate E|].
    simpl in E. injection E as -> E.
    apply Forall_cons in Hzs as [Hz Hzs]. simpl in Hsum. unfold total.
    apply sum_quantities_whole; try assumption; try lia.
    eapply List.Forall_impl; [|exact Hzs]. simpl. intros; lia.
Qed.

Lemma add_same_pair_one_line_sum_witness :
  let pqs := [(sample_product, of_Z 1); (sample_product, of_Z 2)] in
  items (run (add_commands pqs) initialState) =
    [{| product := sample_product; quantity := of_Z 3; itemKey := "1" |}].
Proof.
  intros pqs.
  destruct (add_same_pair_one_line_sum initialState sample_product (of_Z 1)
              [(sample_product, of_Z 2)]) as (_ & H2 & _ & _ & H5).
  - simpl. intros [].
  - repeat constructor.
  - repeat constructor.
  - cbv zeta in H2, H5. unfold pqs. rewrite H2.
    rewrite (H5 [1; 2] eq_refl); [reflexivity | repeat constructor; lia|].
    simpl. lia.
Defined.

(** C1, as stated, fails: AddItem stores a quantity that is zero or negative
    as it is given, so the empty cart reaches a snapshot with a line of
    quantity zero; and a line brought to zero by AddItem stays in the
    cart. *)
Lemma add_item_nonpositive_not_defaulted :
  addItem sample_product (Some (of_Z 0)) <> ADD_ITEM sample_product (of_Z 1) /\
  items (run [addItem sample_product (Some (of_Z 0))] initialState) =
    [{| product := sample_product; quantity := of_Z 0; itemKey := "1" |}] /\
  ~ quantities_positive
      (items (run [addItem sample_product (Some (of_Z 0))] initialState)) /\
  items (run [addItem sample_product (Some (of_Z 2));
              addItem sample_product (Some (of_Z (-2)))]
             initialState) =
    [{| product := sample_product; quantity := of_Z 0; itemKey := "1" |}].
Proof.
  split; [|split; [|split]].
  - intros H. injection H as H. vm_compute in H. discriminate H.
  - reflexivity.
  - intros H. apply Forall_cons in H as [[_ H] _]. vm_compute in H.
    discriminate H.
  - vm_compute. reflexivity.
Qed.

Lemma removed_key_not_in (key : string) (l : list CartItem) :
  ~ In key (keys (List.filter
                    (fun item => negb (String.eqb (itemKey item) key)) l)).
Proof.
  unfold keys. rewrite in_map_iff. intros (x & Hk & Hx).
  apply filter_In in Hx as [_ Hx]. subst key.
  rewrite String.eqb_refl in Hx. discriminate Hx.
Qed.

(** C1, amended. AddItem with a missing quantity adds 1, and with a given
    quantity adds it as given. In every snapshot reached from the initial
    empty cart by commands whose AddItem quantities are at least 1, whose
    Hydrate lists hold quantities of at least 1 and whose UpdateQuantity
    quantities are at most 0 or at least 1, every line has quantity at
    least 1. UpdateQuantity with a quantity of zero or below removes every
    line of the key: none is kept. The condition on UpdateQuantity is
    needed: the test [quantity <= 0] lets a quantity between 0 and 1, and
    NaN, through, and the line then holds it. *)
Theorem quantity_at_least_one :
  (forall p, addItem p None = ADD_ITEM p (of_Z 1)) /\
  (forall p q, addItem p (Some q) = ADD_ITEM p q) /\
  (forall actions,
     Forall quantity_respecting actions ->
     quantities_positive (items (run actions initialState))) /\
  (forall s key q,
     (q <=? of_Z 0)%num = true ->
     items (cartReducer s (updateQuantity key q)) =
       items (cartReducer s (removeItem key)) /\
     ~ In key (keys (items (cartReducer s (updateQuantity key q))))) /\
  (forall q,
     q = dec 5 10 \/ q = S754_nan ->
     (q <=? of_Z 0)%num = false /\
     items (cartReducer scenario_cart (updateQuantity "1" q)) =
       [{| product := sample_product; quantity := q; itemKey := "1" |}] /\
     ~ quantities_positive
         (items (cartReducer scenario_cart (updateQuantity "1" q)))).
Proof.
  split; [|split; [|split; [|split]]].
  - reflexivity.
  - reflexivity.
  - intros actions H.
    apply (run_invariant (fun s => quantities_positive (items s))
                         quantity_respecting); try assumption.
    + apply reducer_keeps_quantities.
    + constructor.
  - intros s key q Hq. unfold updateQuantity.
    rewrite update_quantity_unfold, Hq. simpl.
    split; [reflexivity | apply removed_key_not_in].
  - intros q [-> | ->].
    + split; [vm_compute; reflexivity|]. split; [reflexivity|].
      intros H. apply Forall_cons in H as [[_ H] _]. vm_compute in H.
      discriminate H.
    + split; [reflexivity|]. split; [reflexivity|].
      intros H. apply Forall_cons in H as [[_ H] _]. discriminate H.
Qed.

Lemma quantity_at_least_one_witness :
  let actions := [addItem sample_product None;
                  addItem sample_product (Some (of_Z 2));
                  updateQuantity "1" (of_Z 5);
                  HYDRATE [{| product := sample_product; quantity := of_Z 4;
                              itemKey := "1" |}];
                  addItem product_a_b_plain (Some (of_Z 2));
                  updateQuantity "1" (of_Z 0)] in
  items (run actions initialState) =
    [{| product := product_a_b_plain; quantity := of_Z 2;
        itemKey := "a-b" |}] /\
  quantities_positive (items (run actions initialState)) /\
  ~ In "1" (keys (items (cartReducer
       {| items := [{| product := sample_product; quantity := of_Z 4;
                       itemKey := "1" |}];
          isOpen := false; isLoading := false |}
       (updateQuantity "1" (of_Z 0))))).
Proof.
  split; [vm_compute; reflexivity|]. split.
  - refine (proj1 (proj2 (proj2 quantity_at_least_one)) _ _).
    repeat constructor; vm_compute; reflexivity.
  - refine (proj2 (proj1 (proj2 (proj2 (proj2 quantity_at_least_one)))
                     _ "1" (of_Z 0) _)).
    reflexivity.
Defined.

(** C3, as stated, fails for Hydrate: it replaces the line list by its
    payload, duplicates included. *)
Lemma hydrate_can_duplicate_keys :
  let line := {| product := sample_product; quantity := of_Z 1;
                 itemKey := "1" |} in
  NoDup (keys (items initialState)) /\
  ~ NoDup (keys (items (cartReducer initialState (HYDRATE [line; line])))) /\
  ~ NoDup (keys (items (run [HYDRATE [line; line]] initialState))).
Proof.
  simpl. split; [constructor|].
  split; intros H; apply NoDup_cons in H as [H _]; apply H; left.
Qed.

(** C3, amended. Every command maps a snapshot whose lines have pairwise
    distinct item keys to such a snapshot, Hydrate on condition that the
    lines it restores have pairwise distinct keys (it installs them as they
    are). Hence every snapshot reached from the empty cart by commands whose
    Hydrate lists are duplicate-free has no duplicate item key, and there
    two lines with the same key are the same line, the one [getItem]
    returns. *)
Theorem item_keys_unique :
  (forall s a,
     payload_distinct a -> NoDup (keys (items s)) ->
     NoDup (keys (items (cartReducer s a)))) /\
  (forall s its, items (cartReducer s (HYDRATE its)) = its) /\
  (forall actions,
     Forall payload_distinct actions ->
     NoDup (keys (items (run actions initialState)))) /\
  (forall s x y,
     NoDup (keys (items s)) -> In x (items s) -> In y (items s) ->
     itemKey x = itemKey y -> x = y /\ getItem s (itemKey x) = Some x).
Proof.
  split; [|split; [|split]].
  - apply reducer_keeps_distinct.
  - reflexivity.
  - intros actions H.
    apply (run_invariant (fun s => NoDup (keys (items s))) payload_distinct);
      try assumption.
    + apply reducer_keeps_distinct.
    + constructor.
  - intros s x y Hs Hx Hy E. split.
    + eapply distinct_key_one_line; eassumption.
    + unfold getItem.
      destruct (find (fun item => String.eqb (itemKey item) (itemKey x)) (items s))
        as [z|] eqn:Hz.
      * apply find_some in Hz as [Hz Hk]. apply String.eqb_eq in Hk.
        f_equal. eapply distinct_key_one_line; eassumption.
      * eapply find_none in Hz; [|exact Hx]. simpl in Hz.
        rewrite String.eqb_refl in Hz. discriminate Hz.
Qed.

Lemma item_keys_unique_witness :
  let line := {| product := sample_product; quantity := of_Z 4;
                 itemKey := "1" |} in
  let actions := [addItem sample_product None; HYDRATE [line];
                  addItem product_a_b_plain (Some (of_Z 1));
                  addItem sample_product (Some (of_Z 2)); removeItem "a-b"] in
  NoDup (keys (items (run actions initialState))) /\
  getItem (run actions initialState) "1" =
    Some {| product := sample_product; quantity := of_Z 6; itemKey := "1" |}.
Proof.
  intros line actions.
  destruct item_keys_unique as (_ & _ & Hreach & Hone).
  assert (Hd : NoDup (keys (items (run actions initialState)))).
  { apply Hreach. repeat constructor. simpl. intros H. inversion H. }
  split; [exact Hd|].
  refine (proj2 (Hone (run actions initialState)
                   {| product := sample_product; quantity := of_Z 6;
                      itemKey := "1" |}
                   {| product := sample_product; quantity := of_Z 6;
                      itemKey := "1" |}
                   Hd _ _ eq_refl)); left; vm_compute; reflexivity.
Defined.

(** C10. The product with id "a-b" and no variant and the product with id
    "a" and variant id "b" are different products with the same item key,
    "a-b". AddItem of the second after the first does not open a second
    line: the one line keeps the first product and its quantity is the sum
    of the two quantities, as the language adds them; for whole quantities
    whose sum stays within 2^53 it is their whole sum. *)
Theorem item_key_collision_merges :
  product_a_b_plain <> product_a_variant_b /\
  generateItemKey product_a_b_plain = "a-b" /\
  generateItemKey product_a_variant_b = "a-b" /\
  (forall q1 q2 : number,
     items (run [addItem product_a_b_plain (Some q1);
                 addItem product_a_variant_b (Some q2)] initialState) =
     [{| product := product_a_b_plain; quantity := (q1 + q2)%num;
         itemKey := "a-b" |}]) /\
  (forall z1 z2 : Z,
     - 2 ^ 53 <= z1 <= 2 ^ 53 -> - 2 ^ 53 <= z2 <= 2 ^ 53 ->
     - 2 ^ 53 <= z1 + z2 <= 2 ^ 53 ->
     items (run [addItem product_a_b_plain (Some (of_Z z1));
                 addItem product_a_variant_b (Some (of_Z z2))] initialState) =
     [{| product := product_a_b_plain; quantity := of_Z (z1 + z2);
         itemKey := "a-b" |}]).
Proof.
  assert (H : forall q1 q2 : number,
     items (run [addItem product_a_b_plain (Some q1);
                 addItem product_a_variant_b (Some q2)] initialState) =
     [{| product := product_a_b_plain; quantity := (q1 + q2)%num;
         itemKey := "a-b" |}]) by reflexivity.
  split; [discriminate|]. split; [reflexivity|]. split; [reflexivity|].
  split; [exact H|].
  intros z1 z2 H1 H2 H12. rewrite H, add_exact by assumption. reflexivity.
Qed.

Lemma item_key_collision_merges_witness :
  items (run [addItem product_a_b_plain (Some (of_Z 2));
              addItem product_a_variant_b (Some (of_Z 3))] initialState) =
  [{| product := product_a_b_plain; quantity := of_Z 5; itemKey := "a-b" |}].
Proof.
  apply (proj2 (proj2 (proj2 (proj2 item_key_collision_merges))) 2 3); lia.
Defined.

(** ** Pricing *)

(** The decimal literals of the pricing code, as binary64 values. *)
Example literal_29_99 :
  dec 2999 100 = S754_finite false 8441434551552573 (-48).
Proof. vm_compute. reflexivity. Qed.

Example literal_5_99 : dec 599 100 = S754_finite false 6744140441987318 (-50).
Proof. vm_compute. reflexivity. Qed.

Example literal_0_08 : dec 8 100 = S754_finite false 5764607523034235 (-56).
Proof. vm_compute. reflexivity. Qed.

Example literal_50 : of_Z 50 = S754_finite false 7036874417766400 (-47).
Proof. vm_compute. reflexivity. Qed.

Lemma geb_trans (x y z : number) :
  (x >=? y)%num = true -> (y >=? z)%num = true -> (x >=? z)%num = true.
Proof.
  unfold geb, SFcompare.
  destruct x as [sx|sx| |sx mx ex], y as [sy|sy| |sy my ey],
           z as [sz|sz| |sz mz ez];
    try destruct sx; try destruct sy; try destruct sz;
    try reflexivity; try discriminate;
    change (Pos.compare_cont Eq) with Pos.compare;
    destruct (Z.compare_spec ex ey), (Z.compare_spec ey ez),
             (Z.compare_spec ex ez);
    try reflexivity; try discriminate; try lia; subst;
    try destruct (Pos.compare_spec mx my);
    try destruct (Pos.compare_spec my mz);
    try destruct (Pos.compare_spec mx mz);
    simpl; try reflexivity; try discriminate; try lia.
Qed.

Lemma ltb_not_geb (x y : number) :
  (x <? y)%num = true -> (x >=? y)%num = false.
Proof. unfold ltb, geb. destruct (SFcompare x y) as [[]|]; congruence. Qed.

(** C7. calculateShipping returns 0 for every subtotal at or above 50 and
    the flat fee 5.99, which is positive, for every subtotal below 50; so
    at 49.99 it is positive and at 50.00 it is 0; and it never grows with
    the subtotal. *)
Theorem shipping_threshold :
  (forall subtotal, (subtotal >=? of_Z 50)%num = true ->
     calculateShipping subtotal = of_Z 0) /\
  (forall subtotal, (subtotal <? of_Z 50)%num = true ->
     calculateShipping subtotal = dec 599 100) /\
  (dec 599 100 >? of_Z 0)%num = true /\
  (calculateShipping (dec 4999 100) >? of_Z 0)%num = true /\
  calculateShipping (dec 5000 100) = of_Z 0 /\
  (forall x y, (x <=? y)%num = true ->
     (calculateShipping y <=? calculateShipping x)%num = true).
Proof.
  split; [|split; [|split; [|split; [|split]]]].
  - intros subtotal H. unfold calculateShipping. rewrite H. reflexivity.
  - intros subtotal H. unfold calculateShipping.
    rewrite (ltb_not_geb _ _ H). reflexivity.
  - vm_compute. reflexivity.
  - vm_compute. reflexivity.
  - vm_compute. reflexivity.
  - intros x y Hxy. unfold leb in *. unfold calculateShipping.
    destruct (x >=? of_Z 50)%num eqn:Hx.
    + rewrite (geb_trans y x (of_Z 50) Hxy Hx). vm_compute. reflexivity.
    + destruct (y >=? of_Z 50)%num; vm_compute; reflexivity.
Qed.

Lemma shipping_threshold_witness :
  calculateShipping (dec 12000 100) = of_Z 0 /\
  calculateShipping (dec 1250 100) = dec 599 100 /\
  (calculateShipping (dec 12000 100) <=? calculateShipping (dec 1250 100))%num
    = true.
Proof.
  destruct shipping_threshold as (Hge & Hlt & _ & _ & _ & Hmono).
  split; [|split].
  - apply Hge. vm_compute. reflexivity.
  - apply Hlt. vm_compute. reflexivity.
  - apply Hmono. vm_compute. reflexivity.
Defined.

(** C8. From a cart with one line of price 29.99 and quantity 1, AddItem of
    the same product with quantity 2 gives exactly one line, of quantity 3,
    and calculateTotals on it returns subtotal 89.97, shippingCost 0, tax
    7.1976 and total 97.1676, which is within half a cent of 97.17. The
    decimals are the binary64 values the literals denote. *)
Theorem scenario_totals :
  let after :=
    cartReducer scenario_cart (addItem sample_product (Some (of_Z 2))) in
  items after =
    [{| product := sample_product; quantity := of_Z 3; itemKey := "1" |}] /\
  calculateTotals (items after) =
    {| t_subtotal := dec 8997 100; t_shippingCost := of_Z 0;
       t_tax := dec 71976 10000; t_total := dec 971676 10000 |} /\
  calculateTax (dec 8997 100) = dec 71976 10000 /\
  (SFabs (t_total (calculateTotals (items after)) - dec 9717 100)
     <? dec 5 1000)%num = true.
Proof.
  repeat split; vm_compute; reflexivity.
Qed.

Lemma subtotal_valid (its : list CartItem) :
  lines_valid its -> valid (calculateSubtotal its) = true.
Proof.
  unfold calculateSubtotal, lines_valid.
  assert (H : forall acc, valid acc = true ->
            Forall (fun item => valid (price (product item)) = true /\
                                valid (quantity item) = true) its ->
            valid (fold_left
                     (fun sum item =>
                        (sum + price (product item) * quantity item)%num)
                     its acc) = true).
  { induction its as [|item its IH]; intros acc Hacc Hits; simpl.
    - exact Hacc.
    - apply Forall_cons in Hits as [[Hp Hq] Hits]. apply IH; [|exact Hits].
      apply add_valid; [exact Hacc|]. apply mul_valid; assumption. }
  apply H, of_Z_valid.
Qed.

Lemma shipping_valid (subtotal : number) :
  valid (calculateShipping subtotal) = true.
Proof.
  unfold calculateShipping. destruct (subtotal >=? of_Z 50)%num;
    vm_compute; reflexivity.
Qed.

Lemma tax_valid (subtotal : number) :
  valid subtotal = true -> valid (calculateTax subtotal) = true.
Proof.
  intros H. unfold calculateTax. apply mul_valid; [exact H|].
  vm_compute. reflexivity.
Qed.

Lemma nullish_valid (o : option number) (x : number) :
  valid_opt o -> valid x = true -> valid (o ?? x) = true.
Proof. destruct o; simpl; auto. Qed.

(** C6. For every line list and every choice of shipping override, tax
    override and discount (each given or missing), the summary's total is
    subtotal + (the shipping override if given, else
    calculateShipping(subtotal)) + (the tax override if given, else
    calculateTax(subtotal)) - discount, the discount being 0 when missing.
    Nothing clamps it at zero: whenever the discount is larger than the sum
    of the other three terms, the total is negative. The second part is
    about binary64 values, so the prices and quantities of the lines, the
    overrides and the discount are taken to be well-formed ones. *)
Theorem order_summary_total (its : list CartItem)
    (customShipping customTax discount : option number) :
  let subtotal := calculateSubtotal its in
  let summary := orderSummaryTotals its customShipping customTax discount in
  s_subtotal summary = subtotal /\
  s_shippingCost summary = customShipping ?? calculateShipping subtotal /\
  s_tax summary = customTax ?? calculateTax subtotal /\
  s_discount summary = discount ?? of_Z 0 /\
  s_total summary =
    (subtotal + s_shippingCost summary + s_tax summary
     - s_discount summary)%num /\
  (lines_valid its -> valid_opt customShipping -> valid_opt customTax ->
   valid_opt discount ->
   (s_discount summary >? subtotal + s_shippingCost summary + s_tax summary)%num
     = true ->
   (s_total summary <? of_Z 0)%num = true).
Proof.
  intros subtotal summary.
  split; [reflexivity|]. split; [reflexivity|]. split; [reflexivity|].
  split; [reflexivity|]. split; [reflexivity|].
  intros Hp Hs Ht Hd Hgt. subst summary. unfold orderSummaryTotals in *.
  simpl in *. fold subtotal in Hgt |- *.
  assert (Hsub : valid subtotal = true) by (apply subtotal_valid, Hp).
  apply sub_larger_negative.
  - apply add_valid; [apply add_valid; [exact Hsub|]|].
    + apply nullish_valid; [exact Hs | apply shipping_valid].
    + apply nullish_valid; [exact Ht | apply tax_valid, Hsub].
  - apply nullish_valid; [exact Hd | reflexivity].
  - exact Hgt.
Qed.

Lemma order_summary_total_witness :
  let its := [{| product := sample_product; quantity := of_Z 3;
                 itemKey := "1" |}] in
  let summary := orderSummaryTotals its None None (Some (of_Z 100)) in
  s_total summary = (dec 971676 10000 - of_Z 100)%num /\
  (s_total summary <? of_Z 0)%num = true.
Proof.
  intros its summary. split; [vm_compute; reflexivity|].
  refine (proj2 (proj2 (proj2 (proj2 (proj2
           (order_summary_total its None None (Some (of_Z 100)))))))
           _ _ _ _ _).
  - repeat constructor.
  - exact I.
  - exact I.
  - vm_compute. reflexivity.
  - vm_compute. reflexivity.
Defined.

(** ** Validation *)

Example isValidEmail_ab : isValidEmail "a@b.com" = true.
Proof. reflexivity. Qed.
Example isValidEmail_no : isValidEmail "not-an-email" = false.
Proof. reflexivity. Qed.
Example isValidEmail_2at : isValidEmail "a@@b.com" = false.
Proof. reflexivity. Qed.
Example postal1 : isValidPostalCode "12345" (Some "US") = true.
Proof. reflexivity. Qed.
Example postal2 : isValidPostalCode "1234" (Some "US") = false.
Proof. reflexivity. Qed.
Example postal3 : isValidPostalCode "12345-6789" None = true.
Proof. reflexivity. Qed.
Example postal4 : isValidPostalCode "12345-678" None = false.
Proof. reflexivity. Qed.
Example phone1 : isValidPhone "+1 (555) 123-4567" = true.
Proof. reflexivity. Qed.
Example phone2 : isValidPhone "123456" = false.
Proof. reflexivity. Qed.
Example trim1 : trim "  a b  " = "a b".
Proof. reflexivity. Qed.

Section RegexCorrect.

Ltac invert H := inversion H; subst; clear H.

Lemma nullable_matches (r : regex) : nullable r = true <-> matches r [].
Proof.
  induction r as [| |f|r1 IH1 r2 IH2|r1 IH1 r2 IH2|r IH]; simpl.
  - split; [discriminate | intros H; invert H].
  - split; [constructor | reflexivity].
  - split; [discriminate | intros H; invert H].
  - rewrite andb_true_iff, IH1, IH2. split.
    + intros [H1 H2]. apply (MSeq _ _ [] [] H1 H2).
    + intros H. invert H.
      match goal with E : _ ++ _ = [] |- _ =>
        apply app_eq_nil in E as [-> ->] end.
      auto.
  - rewrite orb_true_iff, IH1, IH2. split.
    + intros [H|H]; [apply MAltL | apply MAltR]; exact H.
    + intros H. invert H; auto.
  - split; [constructor | reflexivity].
Qed.

Lemma star_cons_inv (r : regex) (c : ascii) (w : list ascii) :
  matches (Star r) (c :: w) ->
  exists w1 w2, w = w1 ++ w2 /\ matches r (c :: w1) /\ matches (Star r) w2.
Proof.
  intros H. remember (Star r) as sr eqn:Er. remember (c :: w) as cw eqn:Ew.
  revert r c w Er Ew.
  induction H as [| | | | | |r' w1 w2 H1 _ H2 IH2]; intros r0 c0 w0 Er Ew;
    try discriminate.
  injection Er as ->. destruct w1 as [|c1 w1].
  - simpl in Ew. apply IH2; [reflexivity | exact Ew].
  - simpl in Ew. injection Ew as -> <-. exists w1, w2. auto.
Qed.

Lemma seq_cons_inv (r1 r2 : regex) (c : ascii) (w : list ascii) :
  matches (Seq r1 r2) (c :: w) ->
  (exists w1 w2, w = w1 ++ w2 /\ matches r1 (c :: w1) /\ matches r2 w2) \/
  (matches r1 [] /\ matches r2 (c :: w)).
Proof.
  intros H. inversion H as [| |? ? w1 w2 H1 H2 E1 E2| | | |]. subst.
  destruct w1 as [|c1 w1]; simpl in *.
  - right. subst. auto.
  - left. match goal with E : _ :: _ = _ :: _ |- _ => injection E as -> <- end.
    exists w1, w2. auto.
Qed.

Lemma deriv_matches (c : ascii) (r : regex) (w : list ascii) :
  matches (deriv c r) w <-> matches r (c :: w).
Proof.
  revert w.
  induction r as [| |f|r1 IH1 r2 IH2|r1 IH1 r2 IH2|r IH]; intros w; simpl.
  - split; intros H; invert H.
  - split; intros H; invert H.
  - destruct (f c) eqn:Hf; split; intros H; invert H.
    + constructor. exact Hf.
    + constructor.
    + congruence.
  - assert (Hseq : matches (Seq (deriv c r1) r2) w ->
                   matches (Seq r1 r2) (c :: w)).
    { intros H. invert H.
      match goal with H1 : matches (deriv c r1) ?u, H2 : matches r2 ?v |- _ =>
        apply IH1 in H1; apply (MSeq _ _ (c :: u) v H1 H2) end. }
    assert (Hinv : matches (Seq r1 r2) (c :: w) ->
                   matches (Seq (deriv c r1) r2) w \/
                   (matches r1 [] /\ matches r2 (c :: w))).
    { intros H. apply seq_cons_inv in H as [(w1 & w2 & -> & H1 & H2)|H].
      - left. constructor; [apply IH1, H1 | exact H2].
      - right. exact H. }
    destruct (nullable r1) eqn:Hn; split.
    + intros H. invert H; [auto|].
      apply nullable_matches in Hn. apply (MSeq _ _ [] (c :: w) Hn).
      apply IH2. assumption.
    + intros H. apply Hinv in H as [H | [_ H]].
      * apply MAltL, H.
      * apply MAltR, IH2, H.
    + exact Hseq.
    + intros H. apply Hinv in H as [H | [H _]]; [exact H|].
      apply nullable_matches in H. congruence.
  - split; intros H; invert H;
      solve [apply MAltL, IH1; assumption | apply MAltR, IH2; assumption].
  - split.
    + intros H. invert H.
      match goal with H1 : matches (deriv c r) ?u, H2 : matches (Star r) ?v |- _ =>
        apply IH in H1; apply (MStarApp _ (c :: u) v H1 H2) end.
    + intros H. apply star_cons_inv in H as (w1 & w2 & -> & H1 & H2).
      constructor; [apply IH, H1 | exact H2].
Qed.

Theorem accepts_matches (r : regex) (w : list ascii) :
  accepts r w = true <-> matches r w.
Proof.
  revert r. induction w as [|c w IH]; intros r; simpl.
  - apply nullable_matches.
  - rewrite IH. apply deriv_matches.
Qed.

Lemma matches_class_inv (f : ascii -> bool) (w : list ascii) :
  matches (Class f) w -> exists c, w = [c] /\ f c = true.
Proof. intros H. invert H. eauto. Qed.

Lemma matches_star_class (f : ascii -> bool) (w : list ascii) :
  matches (Star (Class f)) w <-> forallb f w = true.
Proof.
  split.
  - intros H. remember (Star (Class f)) as sr eqn:Er.
    induction H as [| | | | | |r' w1 w2 H1 _ H2 IH2]; try discriminate.
    + reflexivity.
    + injection Er as ->.
      apply matches_class_inv in H1 as (c & -> & Hc). simpl.
      rewrite Hc, IH2 by reflexivity. reflexivity.
  - induction w as [|c w IH]; simpl; intros H.
    + constructor.
    + apply andb_true_iff in H as [Hc Hw].
      apply (MStarApp _ [c] w); [constructor; exact Hc | apply IH, Hw].
Qed.

Lemma matches_seq_inv (r1 r2 : regex) (w : list ascii) :
  matches (Seq r1 r2) w ->
  exists w1 w2, w = w1 ++ w2 /\ matches r1 w1 /\ matches r2 w2.
Proof. intros H. invert H. eauto. Qed.

Lemma matches_plus_class (f : ascii -> bool) (w : list ascii) :
  matches (Plus (Class f)) w <-> w <> [] /\ forallb f w = true.
Proof.
  unfold Plus. split.
  - intros (w1 & w2 & -> & H1 & H2)%matches_seq_inv.
    apply matches_class_inv in H1 as (c & -> & Hc). simpl.
    split; [discriminate|].
    apply matches_star_class in H2. rewrite Hc, H2. reflexivity.
  - intros [Hne H]. destruct w as [|c w]; [contradiction|]. simpl in H.
    apply andb_true_iff in H as [Hc Hw].
    apply (MSeq _ _ [c] w); [constructor; exact Hc|].
    apply matches_star_class, Hw.
Qed.

Lemma matches_chr (a : ascii) (w : list ascii) :
  matches (chr a) w <-> w = [a].
Proof.
  unfold chr. split.
  - intros (c & -> & Hc)%matches_class_inv.
    apply Ascii.eqb_eq in Hc. subst. reflexivity.
  - intros ->. constructor. apply Ascii.eqb_refl.
Qed.

End RegexCorrect.

Lemma emailRegex_language (w : list ascii) :
  matches emailRegex w <->
  exists l d t, w = l ++ "@"%char :: d ++ "."%char :: t /\
                plain_part l /\ plain_part d /\ plain_part t.
Proof.
  unfold emailRegex, plain_part. split.
  - intros (l & w2 & -> & Hl & H2)%matches_seq_inv.
    apply matches_seq_inv in H2 as (a & w3 & -> & Ha & H3).
    apply matches_seq_inv in H3 as (d & w4 & -> & Hd & H4).
    apply matches_seq_inv in H4 as (dot & t & -> & Hdot & Ht).
    apply matches_chr in Ha, Hdot. subst.
    apply matches_plus_class in Hl, Hd, Ht.
    exists l, d, t. simpl. auto.
  - intros (l & d & t & -> & Hl & Hd & Ht).
    apply matches_plus_class in Hl, Hd, Ht.
    apply MSeq; [exact Hl|].
    apply (MSeq _ _ ["@"%char]); [apply matches_chr; reflexivity|].
    apply MSeq; [exact Hd|].
    apply (MSeq _ _ ["."%char]); [apply matches_chr; reflexivity | exact Ht].
Qed.

Lemma list_ascii_of_string_app (a b : string) :
  list_ascii_of_string (a +:+ b) =
  list_ascii_of_string a ++ list_ascii_of_string b.
Proof. induction a as [|c a IH]; simpl; [reflexivity | rewrite IH; reflexivity]. Qed.

Lemma dot_after_at_app (l w : list ascii) :
  dot_after_at w = true -> dot_after_at (l ++ w) = true.
Proof.
  intros H. induction l as [|c l IH]; simpl; [exact H|].
  rewrite IH. apply orb_true_r.
Qed.

Lemma not_space_at_not_space (w : list ascii) :
  forallb not_space_at w = true ->
  forallb (fun c => negb (is_space c)) w = true.
Proof.
  induction w as [|c w IH]; simpl; [reflexivity|].
  intros [Hc Hw]%andb_true_iff. rewrite IH by exact Hw.
  unfold not_space_at in Hc. apply negb_true_iff, orb_false_iff in Hc as [-> _].
  reflexivity.
Qed.

(** C9, as stated, fails: a string with two "@" has no whitespace, an "@"
    and a "." after it, and is rejected; so are an empty local part and a
    "." right after the "@" or at the end. *)
Lemma isValidEmail_not_the_claimed_shape :
  claimed_email_shape "a@@b.com" = true /\ isValidEmail "a@@b.com" = false /\
  claimed_email_shape "@b.com" = true /\ isValidEmail "@b.com" = false /\
  claimed_email_shape "a@.com" = true /\ isValidEmail "a@.com" = false /\
  claimed_email_shape "a@b." = true /\ isValidEmail "a@b." = false /\
  ~ (forall s, isValidEmail s = true <-> claimed_email_shape s = true).
Proof.
  repeat split; try reflexivity.
  intros H. specialize (H "a@@b.com"). destruct H as [_ H].
  discriminate (H eq_refl).
Qed.

(** C9, amended. isValidEmail(s) is true exactly when s is
    local "@" domain "." tld where each of the three parts is non-empty and
    holds neither whitespace nor "@" (so s has exactly one "@", and a "."
    after it that neither follows the "@" directly nor ends the string).
    Every accepted string has no whitespace, an "@" and a "." after it.
    isValidEmail("a@b.com") is true and isValidEmail("not-an-email") is
    false. *)
Theorem isValidEmail_shape :
  (forall s,
     isValidEmail s = true <->
     exists l d t : string,
       s = l +:+ "@" +:+ d +:+ "." +:+ t /\
       plain_string l /\ plain_string d /\ plain_string t) /\
  (forall s, isValidEmail s = true -> claimed_email_shape s = true) /\
  isValidEmail "a@b.com" = true /\
  isValidEmail "not-an-email" = false.
Proof.
  assert (Hchar : forall s,
     isValidEmail s = true <->
     exists l d t : string,
       s = l +:+ "@" +:+ d +:+ "." +:+ t /\
       plain_string l /\ plain_string d /\ plain_string t).
  { intros s. unfold isValidEmail, test, plain_string.
    rewrite accepts_matches, emailRegex_language. split.
    - intros (l & d & t & E & Hl & Hd & Ht).
      exists (string_of_list_ascii l), (string_of_list_ascii d),
             (string_of_list_ascii t).
      rewrite !list_ascii_of_string_of_list_ascii.
      split; [|split; [exact Hl | split; [exact Hd | exact Ht]]].
      rewrite <- (string_of_list_ascii_of_string s), E.
      rewrite <- (string_of_list_ascii_of_string (_ +:+ _)).
      f_equal. rewrite !list_ascii_of_string_app.
      rewrite !list_ascii_of_string_of_list_ascii. reflexivity.
    - intros (l & d & t & -> & Hl & Hd & Ht).
      exists (list_ascii_of_string l), (list_ascii_of_string d),
             (list_ascii_of_string t).
      rewrite !list_ascii_of_string_app.
      split; [reflexivity | split; [exact Hl | split; [exact Hd | exact Ht]]]. }
  split; [exact Hchar|]. split; [|split; reflexivity].
  intros s (l & d & t & -> & [_ Hl] & [_ Hd] & [_ Ht])%Hchar.
  unfold claimed_email_shape. rewrite !list_ascii_of_string_app. simpl.
  apply andb_true_iff. split.
  - rewrite forallb_app. simpl. rewrite forallb_app. simpl.
    rewrite !not_space_at_not_space by assumption. reflexivity.
  - apply dot_after_at_app. simpl. rewrite existsb_app. simpl.
    rewrite orb_true_r. reflexivity.
Qed.

Lemma isValidEmail_shape_witness :
  isValidEmail "jo.doe@shop.example.com" = true /\
  claimed_email_shape "jo.doe@shop.example.com" = true.
Proof.
  assert (H : isValidEmail "jo.doe@shop.example.com" = true).
  { apply (proj1 isValidEmail_shape).
    exists "jo.doe", "shop.example", "com".
    repeat split; try reflexivity; discriminate. }
  split; [exact H | exact (proj1 (proj2 isValidEmail_shape) _ H)].
Defined.

(** ** Checkout submission *)

Lemma size_zero_empty (e : gmap string string) :
  Nat.eqb (size e) 0 = true <-> e = ∅.
Proof. rewrite Nat.eqb_eq. apply map_size_empty_iff. Qed.

Lemma length_zero_nil {A} (l : list A) : Nat.eqb (length l) 0 = true <-> l = [].
Proof. rewrite Nat.eqb_eq. apply length_zero_iff_nil. Qed.

Lemma validateForm_run (props : CheckoutFormProps) (w : World) :
  validateForm props w =
  (Nat.eqb (size (validation_errors props (shipping (form w))
                                    (billing (form w)))) 0,
   with_errors w (validation_errors props (shipping (form w))
                                    (billing (form w)))).
Proof. reflexivity. Qed.

(** The three ways the handler ends before or at the call. *)
Lemma handleSubmit_invalid (env : Platform) (props : CheckoutFormProps)
    (w : World) :
  validation_errors props (shipping (form w)) (billing (form w)) <> ∅ ->
  snd (handleSubmit env props w) =
  with_errors w (validation_errors props (shipping (form w)) (billing (form w))).
Proof.
  intros H. unfold handleSubmit, bind. rewrite validateForm_run.
  destruct (Nat.eqb (size _) 0) eqn:E; [|reflexivity].
  apply size_zero_empty in E. contradiction.
Qed.

Lemma handleSubmit_empty_cart (env : Platform) (props : CheckoutFormProps)
    (w : World) :
  validation_errors props (shipping (form w)) (billing (form w)) = ∅ ->
  items (cart w) = [] ->
  snd (handleSubmit env props w) =
  with_errors w {[ "form" := "Your cart is empty" ]}.
Proof.
  intros H Hc. unfold handleSubmit, bind. rewrite validateForm_run, H, Hc.
  reflexivity.
Qed.

(** The [catch] block: the form-level error is set, [onError] is called
    when given, and the submitting flag is lowered unless [onError]
    throws. *)
Lemma handleSubmit_catch_run (props : CheckoutFormProps) (err : Thrown)
    (w : World) :
  snd (handleSubmit_catch props err w) =
  {| cart := cart w;
     form := {| shipping := shipping (form w); billing := billing (form w);
                notes := notes (form w);
                isSubmitting :=
                  match result_of (onError props) (error_message err) with
                  | Returns => false
                  | Throws _ => isSubmitting (form w)
                  end;
                errors := {[ "form" := error_message err ]} |};
     log := log w ++ call_of (onError props)
                             (CallOnError (error_message err)) |}.
Proof.
  unfold handleSubmit_catch, optional_call, result_of, call_of, bind.
  destruct (onError props) as [f|]; simpl.
  - destruct (f (error_message err)); reflexivity.
  - rewrite app_nil_r. reflexivity.
Qed.

(** The handler once the fields pass and the cart has a line: the world it
    leaves, by the way the submission ends. *)
Lemma handleSubmit_called (env : Platform) (props : CheckoutFormProps)
    (w : World) :
  validation_errors props (shipping (form w)) (billing (form w)) = ∅ ->
  items (cart w) <> [] ->
  let formData := formData_of props (form w) in
  let its := items (cart w) in
  let totals := calculateTotals its in
  let result := onCreateOrder props formData its totals in
  snd (handleSubmit env props w) =
  {| cart := match submit_outcome env props result with
             | Redirected | Failed true _ => cartReducer (cart w) clearCart
             | Failed false _ => cart w
             end;
     form := {| shipping := shipping (form w); billing := billing (form w);
                notes := notes (form w);
                isSubmitting :=
                  match submit_outcome env props result with
                  | Redirected => true
                  | Failed _ err =>
                      match result_of (onError props) (error_message err) with
                      | Returns => false
                      | Throws _ => true
                      end
                  end;
                errors :=
                  match submit_outcome env props result with
                  | Redirected => ∅
                  | Failed _ err => {[ "form" := error_message err ]}
                  end |};
     log := log w ++ CallCreateOrder formData its totals ::
                     after_call_effects env props result |}.
Proof.
  intros H Hc formData its totals result.
  unfold handleSubmit, bind. rewrite validateForm_run, H.
  change (size (∅ : gmap string string)) with 0%nat. cbn [negb Nat.eqb].
  destruct (Nat.eqb (length (items (cart w))) 0) eqn:E.
  { apply length_zero_nil in E. contradiction. }
  fold formData its totals. fold result.
  unfold after_call_effects, submit_outcome.
  destruct result as [order redirect|err].
  - unfold optional_call, result_of, call_of, bind.
    destruct (onOrderCreated props) as [f|]; cbn -[handleSubmit_catch].
    + destruct (f (order_id order)) as [|err'].
      * cbn -[handleSubmit_catch].
        destruct (redirectToPayment env redirect) as [|err'].
        -- cbn. rewrite <- !app_assoc. reflexivity.
        -- rewrite handleSubmit_catch_run. cbn.
           rewrite <- !app_assoc. reflexivity.
      * rewrite handleSubmit_catch_run. cbn. rewrite <- !app_assoc.
        reflexivity.
    + destruct (redirectToPayment env redirect) as [|err'].
      * cbn. rewrite <- !app_assoc. reflexivity.
      * rewrite handleSubmit_catch_run. cbn.
        rewrite <- !app_assoc. reflexivity.
  - cbn -[handleSubmit_catch]. rewrite handleSubmit_catch_run. cbn.
    rewrite <- !app_assoc. reflexivity.
Qed.

Lemma drop_log_app (l extra : list Effect) : drop (length l) (l ++ extra) = extra.
Proof. rewrite drop_app_length. reflexivity. Qed.

Lemma submit_effects_called (env : Platform) (props : CheckoutFormProps)
    (w : World) :
  validation_errors props (shipping (form w)) (billing (form w)) = ∅ ->
  items (cart w) <> [] ->
  let formData := formData_of props (form w) in
  let its := items (cart w) in
  let totals := calculateTotals its in
  submit_effects env props w =
  CallCreateOrder formData its totals ::
  after_call_effects env props (onCreateOrder props formData its totals).
Proof.
  intros Hv Hne formData its totals. unfold submit_effects.
  rewrite (handleSubmit_called env props w Hv Hne). cbn [log].
  apply drop_log_app.
Qed.

(** No call of the order-creation function follows the first one. *)
Lemma after_call_no_create_order (env : Platform) (props : CheckoutFormProps)
    (result : CreateOrderResult) :
  List.filter is_create_order (after_call_effects env props result) = [].
Proof.
  unfold after_call_effects, call_of.
  rewrite List.filter_app.
  assert (H2 : List.filter is_create_order
            match submit_outcome env props result with
            | Redirected => []
            | Failed _ err =>
                match onError props with
                | Some _ => [CallOnError (error_message err)]
                | None => []
                end
            end = []).
  { destruct (submit_outcome env props result); [reflexivity|].
    destruct (onError props); reflexivity. }
  rewrite H2, app_nil_r.
  destruct result as [order redirect|err]; [|reflexivity].
  rewrite List.filter_app.
  destruct (onOrderCreated props) as [f|]; simpl;
    [destruct (f (order_id order)) | ]; reflexivity.
Qed.

Lemma in_filter_nil {A} (f : A -> bool) (l : list A) (x : A) :
  List.filter f l = [] -> In x l -> f x = false.
Proof.
  intros H Hx. destruct (f x) eqn:E; [|reflexivity].
  assert (Hin : In x (List.filter f l)) by (apply filter_In; auto).
  rewrite H in Hin. destruct Hin.
Qed.

(** The handler calls the order-creation function only after a clean
    validation and with a cart that has lines. *)
Lemma create_order_called_inv (env : Platform) (props : CheckoutFormProps)
    (w : World)
    (formData : CheckoutFormValues) (its : list CartItem) (totals : Totals) :
  In (CallCreateOrder formData its totals) (submit_effects env props w) ->
  validation_errors props (shipping (form w)) (billing (form w)) = ∅ /\
  items (cart w) <> [] /\
  formData = formData_of props (form w) /\ its = items (cart w) /\
  totals = calculateTotals (items (cart w)).
Proof.
  intros Hin.
  destruct (decide (validation_errors props (shipping (form w))
                                      (billing (form w)) = ∅)) as [Hv|Hv].
  - destruct (items (cart w)) as [|x l] eqn:Hc.
    + unfold submit_effects in Hin.
      rewrite handleSubmit_empty_cart in Hin by assumption. simpl in Hin.
      rewrite drop_all in Hin. destruct Hin.
    + assert (Hne : items (cart w) <> []) by (rewrite Hc; discriminate).
      rewrite (submit_effects_called env props w Hv Hne) in Hin.
      split; [exact Hv|]. split; [discriminate|].
      rewrite Hc in Hin. destruct Hin as [Hin|Hin].
      * injection Hin as <- <- <-. auto.
      * apply (in_filter_nil is_create_order) in Hin;
          [discriminate Hin | apply after_call_no_create_order].
  - unfold submit_effects in Hin.
    rewrite handleSubmit_invalid in Hin by assumption. simpl in Hin.
    rewrite drop_all in Hin. destruct Hin.
Qed.

(** The success path, for comparison: the order is announced, the cart is
    cleared through the store, and the payment redirect follows. *)
Example submit_success_clears_cart :
  let w := {| cart := scenario_cart; form := valid_form; log := [] |} in
  let w' := snd (handleSubmit sample_platform resolving_props w) in
  items (cart w') = [] /\
  isSubmitting (form w') = true /\
  errors (form w') = ∅ /\
  map (fun e => match e with
                | CallCreateOrder _ _ _ => "createOrder"
                | CallOrderCreated _ => "onOrderCreated"
                | Dispatch CLEAR_CART => "clearCart"
                | Dispatch _ => "dispatch"
                | CallRedirectToPayment _ => "redirectToPayment"
                | CallOnError _ => "onError"
                end) (log w') =
  ["createOrder"; "onOrderCreated"; "clearCart"; "redirectToPayment"].
Proof.
  intros w w'. subst w'.
  rewrite (handleSubmit_called sample_platform resolving_props w);
    [|vm_compute; reflexivity | discriminate].
  repeat split.
Qed.

(** C4. If the handler calls the order-creation function and its promise
    rejects, then after the handler the cart is what it was before
    (no action was dispatched to the store, clearCart among them), the
    error state is the single entry ["form"] with the message of the
    rejection, and the form can be submitted again (the submitting flag is
    down, unless the [onError] callback of the caller throws in its
    turn). *)
Theorem create_order_rejection_keeps_cart
    (env : Platform) (props : CheckoutFormProps) (w : World)
    (formData : CheckoutFormValues) (its : list CartItem) (totals : Totals)
    (err : Thrown) :
  In (CallCreateOrder formData its totals) (submit_effects env props w) ->
  onCreateOrder props formData its totals = Rejected err ->
  let w' := snd (handleSubmit env props w) in
  cart w' = cart w /\
  items (cart w') = its /\
  errors (form w') = {[ "form" := error_message err ]} /\
  size (errors (form w')) = 1%nat /\
  (result_of (onError props) (error_message err) = Returns ->
   isSubmitting (form w') = false) /\
  (forall a, ~ In (Dispatch a) (submit_effects env props w)).
Proof.
  intros Hcall Hrej w'.
  apply create_order_called_inv in Hcall as (Hv & Hne & -> & -> & ->).
  pose proof (handleSubmit_called env props w Hv Hne) as E.
  pose proof (submit_effects_called env props w Hv Hne) as Eff.
  cbv zeta in E, Eff. rewrite Hrej in E, Eff. subst w'. rewrite E, Eff.
  cbn.
  split; [reflexivity|]. split; [reflexivity|]. split; [reflexivity|].
  split; [apply map_size_singleton|].
  split; [intros ->; reflexivity|].
  intros a. unfold call_of.
  destruct (onError props); simpl; intuition discriminate.
Qed.

Lemma create_order_rejection_keeps_cart_witness :
  let w := {| cart := scenario_cart; form := valid_form; log := [] |} in
  let w' := snd (handleSubmit sample_platform rejecting_props w) in
  items (cart w') = items scenario_cart /\
  errors (form w') = {[ "form" := "Service unavailable" ]} /\
  isSubmitting (form w') = false.
Proof.
  intros w w'.
  assert (Hv : validation_errors rejecting_props valid_shipping initialBilling = ∅)
    by (vm_compute; reflexivity).
  assert (Hcall : In (CallCreateOrder (formData_of rejecting_props valid_form)
                        (items scenario_cart)
                        (calculateTotals (items scenario_cart)))
                     (submit_effects sample_platform rejecting_props w)).
  { rewrite (submit_effects_called sample_platform rejecting_props w Hv);
      [|discriminate].
    left. reflexivity. }
  destruct (create_order_rejection_keeps_cart sample_platform rejecting_props
              w _ _ _ (ThrownError "Service unavailable") Hcall eq_refl)
    as (_ & Hitems & Herr & _ & Hsub & _).
  split; [exact Hitems|]. split; [exact Herr | apply Hsub; reflexivity].
Defined.

(** When [onError] throws in its turn, the handler ends inside [catch]:
    the cart and the error are as above, and the submitting flag stays
    up. *)
Example onError_throw_keeps_submitting :
  let props := {| onCreateOrder := onCreateOrder rejecting_props;
                  onOrderCreated := None;
                  onError := Some (fun _ => Throws ThrownOther);
                  showBillingAddress := true; showNotes := true |} in
  let w := {| cart := scenario_cart; form := valid_form; log := [] |} in
  let w' := snd (handleSubmit sample_platform props w) in
  cart w' = cart w /\
  errors (form w') = {[ "form" := "Service unavailable" ]} /\
  isSubmitting (form w') = true.
Proof.
  intros props w w'. subst w'.
  rewrite (handleSubmit_called sample_platform props w);
    [|vm_compute; reflexivity | discriminate].
  split; [reflexivity|]. split; reflexivity.
Qed.

(** C5, as stated, fails: the fields are validated before the cart is
    looked at, so the blank form submitted with an empty cart ends with the
    seven field errors and no form-level one. *)
Lemma empty_cart_blank_form_errors :
  let w := {| cart := empty_cart; form := initialForm; log := [] |} in
  let w' := snd (handleSubmit sample_platform rejecting_props w) in
  items (cart w) = [] /\
  size (errors (form w')) = 7%nat /\
  errors (form w') !! "form" = None /\
  errors (form w') !! "shipping.email" = Some "Email is required".
Proof. vm_compute. repeat split. Qed.

(** C5, amended. Whenever a field fails validation or the cart is empty,
    the handler returns without calling the order-creation function: no call
    leaves it, the cart and the submitting flag stay as they were. When a
    field fails validation the error state is the field errors. When the
    fields pass and the cart is empty it is the single entry ["form"],
    "Your cart is empty". With an empty cart the submit button is
    disabled. *)
Theorem submission_blocked (env : Platform) (props : CheckoutFormProps)
    (w : World) :
  let field_errors :=
    validation_errors props (shipping (form w)) (billing (form w)) in
  let w' := snd (handleSubmit env props w) in
  (field_errors <> ∅ \/ items (cart w) = [] ->
     submit_effects env props w = [] /\ cart w' = cart w /\
     isSubmitting (form w') = isSubmitting (form w)) /\
  (field_errors <> ∅ -> errors (form w') = field_errors) /\
  (field_errors = ∅ -> items (cart w) = [] ->
     errors (form w') = {[ "form" := "Your cart is empty" ]} /\
     size (errors (form w')) = 1%nat) /\
  (items (cart w) = [] -> submitDisabled w = true).
Proof.
  intros field_errors w'. subst w'. unfold submit_effects.
  split; [|split; [|split]].
  - intros H.
    destruct (decide (field_errors = ∅)) as [Hv|Hv].
    + destruct H as [H|H]; [contradiction|].
      rewrite handleSubmit_empty_cart by assumption. simpl.
      rewrite drop_all. auto.
    + rewrite handleSubmit_invalid by assumption. simpl.
      rewrite drop_all. auto.
  - intros Hv. rewrite handleSubmit_invalid by assumption. reflexivity.
  - intros Hv Hc. rewrite handleSubmit_empty_cart by assumption. simpl.
    split; [reflexivity | apply map_size_singleton].
  - intros Hc. unfold submitDisabled. rewrite Hc. apply orb_true_r.
Qed.

Lemma submission_blocked_witness :
  let w := {| cart := empty_cart; form := valid_form; log := [] |} in
  let w' := snd (handleSubmit sample_platform rejecting_props w) in
  submit_effects sample_platform rejecting_props w = [] /\
  errors (form w') = {[ "form" := "Your cart is empty" ]} /\
  submitDisabled w = true.
Proof.
  intros w w'.
  assert (Hv : validation_errors rejecting_props valid_shipping initialBilling = ∅)
    by (vm_compute; reflexivity).
  destruct (submission_blocked sample_platform rejecting_props w)
    as (H1 & _ & H3 & H4).
  split; [|split].
  - apply H1. right. reflexivity.
  - apply H3; [exact Hv | reflexivity].
  - apply H4. reflexivity.
Defined.

(** * Further properties *)

(** ** Cart store: lookup, removal and update *)

Section FindFacts.
Context {A : Type} (pred : A -> bool).

Lemma find_first_match (l1 l2 : list A) (x : A) :
  Forall (fun y => pred y = false) l1 -> pred x = true ->
  find pred (l1 ++ x :: l2) = Some x.
Proof.
  intros H Hx. induction H as [|y l Hy _ IH]; simpl.
  - rewrite Hx. reflexivity.
  - rewrite Hy. exact IH.
Qed.

Lemma find_no_match (l : list A) :
  Forall (fun y => pred y = false) l -> find pred l = None.
Proof.
  induction 1 as [|y l Hy _ IH]; simpl; [reflexivity|].
  rewrite Hy. exact IH.
Qed.

Lemma find_app_no_match (l1 l2 : list A) :
  Forall (fun y => pred y = false) l1 -> find pred (l1 ++ l2) = find pred l2.
Proof.
  induction 1 as [|y l Hy _ IH]; simpl; [reflexivity|].
  rewrite Hy. exact IH.
Qed.

Lemma find_app_match (l1 l2 : list A) (x : A) :
  find pred l1 = Some x -> find pred (l1 ++ l2) = Some x.
Proof.
  induction l1 as [|y l IH]; simpl; [discriminate|].
  destruct (pred y); [auto | exact IH].
Qed.

Lemma find_filter_other (keep : A -> bool) (l : list A) :
  (forall x, pred x = true -> keep x = true) ->
  find pred (List.filter keep l) = find pred l.
Proof.
  intros H. induction l as [|y l IH]; simpl; [reflexivity|].
  destruct (keep y) eqn:Hk; simpl.
  - rewrite IH. reflexivity.
  - destruct (pred y) eqn:Hp; [|exact IH].
    apply H in Hp. congruence.
Qed.

Lemma find_map_same_test (f : A -> A) (l : list A) :
  (forall x, pred (f x) = pred x) ->
  find pred (map f l) = option_map f (find pred l).
Proof.
  intros H. induction l as [|y l IH]; simpl; [reflexivity|].
  rewrite H. destruct (pred y); [reflexivity | exact IH].
Qed.

End FindFacts.

Lemma getItem_unfold (s : CartState) (key : string) :
  getItem s key = find (has_key key) (items s).
Proof. reflexivity. Qed.

Lemma getItem_none_iff (s : CartState) (key : string) :
  getItem s key = None <-> ~ In key (keys (items s)).
Proof.
  rewrite getItem_unfold, <- has_key_false_not_in. split.
  - intros H. apply Forall_forall. intros x Hx%list_elem_of_In.
    apply (find_none _ _ H x Hx).
  - apply find_no_match.
Qed.

Lemma getItem_key (s : CartState) (key : string) (x : CartItem) :
  getItem s key = Some x -> itemKey x = key /\ In x (items s).
Proof.
  rewrite getItem_unfold. intros H. apply find_some in H as [Hin Hk].
  apply String.eqb_eq in Hk. auto.
Qed.

Lemma set_items_same (s : CartState) : set_items s (items s) = s.
Proof. destruct s. reflexivity. Qed.

Lemma filter_all_kept {A} (f : A -> bool) (l : list A) :
  Forall (fun x => f x = true) l -> List.filter f l = l.
Proof.
  induction 1 as [|x l Hx _ IH]; simpl; [reflexivity|].
  rewrite Hx, IH. reflexivity.
Qed.

Lemma removed_key_absent (s : CartState) (key : string) :
  ~ In key (keys (items (cartReducer s (REMOVE_ITEM key)))).
Proof.
  unfold keys. simpl. rewrite in_map_iff. intros (x & Hk & Hx).
  apply filter_In in Hx as [_ Hx]. subst key.
  rewrite String.eqb_refl in Hx. discriminate Hx.
Qed.

Lemma update_keeps_keys (s : CartState) (key : string) (q : number) :
  (q <=? of_Z 0)%num = false ->
  keys (items (cartReducer s (UPDATE_QUANTITY key q))) = keys (items s).
Proof.
  intros Hq. rewrite update_quantity_unfold, Hq.
  apply keys_map_set_quantity.
Qed.

(** X1. RemoveItem(k) leaves no line with key k and [getItem] finds none;
    the lines of every other key are found as before; on a cart without
    the key it changes nothing, so removing twice is removing once; the two
    flags are never touched. *)
Theorem remove_item_effect (s : CartState) (key : string) :
  let s' := cartReducer s (removeItem key) in
  ~ In key (keys (items s')) /\
  getItem s' key = None /\
  (forall k, k <> key -> getItem s' k = getItem s k) /\
  (~ In key (keys (items s)) -> s' = s) /\
  cartReducer s' (removeItem key) = s' /\
  isOpen s' = isOpen s /\ isLoading s' = isLoading s.
Proof.
  intros s'.
  assert (Hafter : ~ In key (keys (items s')))
    by apply removed_key_absent.
  assert (Hnoop : forall t, ~ In key (keys (items t)) ->
                            cartReducer t (removeItem key) = t).
  { intros t Ht. simpl. rewrite filter_all_kept; [apply set_items_same|].
    apply has_key_false_not_in in Ht.
    eapply Forall_impl; [exact Ht|]. intros x Hx. unfold has_key in Hx.
    simpl in Hx. rewrite Hx. reflexivity. }
  split; [exact Hafter|]. split; [apply getItem_none_iff, Hafter|].
  split; [|split; [apply Hnoop | split; [apply Hnoop, Hafter | split; reflexivity]]].
  intros k Hk. rewrite !getItem_unfold. simpl. apply find_filter_other.
  intros x Hx. unfold has_key in Hx. apply String.eqb_eq in Hx.
  apply negb_true_iff, String.eqb_neq. congruence.
Qed.

Lemma remove_item_effect_witness :
  cartReducer scenario_cart (removeItem "missing") = scenario_cart /\
  getItem (cartReducer scenario_cart (removeItem "1")) "1" = None.
Proof.
  split.
  - refine (proj1 (proj2 (proj2 (proj2
             (remove_item_effect scenario_cart "missing")))) _).
    simpl. intros [H|[]]. discriminate H.
  - exact (proj1 (proj2 (remove_item_effect scenario_cart "1"))).
Defined.

(** X2. UpdateQuantity(k, q) with a quantity that the test [quantity <= 0]
    lets through (every q > 0, and NaN) keeps the keys, their order and the
    number of lines; the line that [getItem] finds for k gets quantity q
    and nothing else of it changes; the lines of the other keys are found
    as before; on a cart without the key it changes nothing. *)
Theorem update_quantity_effect (s : CartState) (key : string) (q : number) :
  (q <=? of_Z 0)%num = false ->
  let s' := cartReducer s (updateQuantity key q) in
  keys (items s') = keys (items s) /\
  length (items s') = length (items s) /\
  (forall x, getItem s key = Some x ->
             getItem s' key = Some (set_quantity x q)) /\
  (forall k, k <> key -> getItem s' k = getItem s k) /\
  (getItem s key = None -> s' = s) /\
  isOpen s' = isOpen s /\ isLoading s' = isLoading s.
Proof.
  intros E s'. subst s'. unfold updateQuantity.
  rewrite update_quantity_unfold, E. simpl.
  set (f := fun item : CartItem =>
              if String.eqb (itemKey item) key then set_quantity item q
              else item).
  assert (Hkey : forall x, itemKey (f x) = itemKey x).
  { intros x. unfold f. destruct (String.eqb (itemKey x) key); reflexivity. }
  assert (Hfind : forall k, getItem (set_items s (map f (items s))) k =
                            option_map f (getItem s k)).
  { intros k. rewrite !getItem_unfold. simpl. apply find_map_same_test.
    intros x. unfold has_key. rewrite Hkey. reflexivity. }
  split; [apply keys_map_set_quantity|]. split; [apply length_map|].
  split; [|split; [|split; [|split; reflexivity]]].
  - intros x Hx. rewrite Hfind, Hx. simpl. unfold f.
    apply getItem_key in Hx as [Hk _]. rewrite Hk, String.eqb_refl.
    reflexivity.
  - intros k Hk. rewrite Hfind. destruct (getItem s k) as [x|] eqn:Hx;
      [|reflexivity].
    simpl. unfold f. apply getItem_key in Hx as [Hx _].
    replace (String.eqb (itemKey x) key) with false; [reflexivity|].
    symmetry. apply String.eqb_neq. congruence.
  - intros Hn. apply getItem_none_iff, has_key_false_not_in in Hn.
    replace (map f (items s)) with (items s); [apply set_items_same|].
    symmetry. rewrite <- (map_id (items s)) at 2. apply map_ext_Forall.
    eapply Forall_impl; [exact Hn|]. intros x Hx. unfold f.
    unfold has_key in Hx. simpl in Hx. rewrite Hx. reflexivity.
Qed.

Lemma update_quantity_effect_witness :
  getItem (cartReducer scenario_cart (updateQuantity "1" (of_Z 5))) "1" =
    Some {| product := sample_product; quantity := of_Z 5; itemKey := "1" |} /\
  cartReducer scenario_cart (updateQuantity "missing" (of_Z 5)) = scenario_cart.
Proof.
  assert (Hq : (of_Z 5 <=? of_Z 0)%num = false) by reflexivity.
  split.
  - exact (proj1 (proj2 (proj2
             (update_quantity_effect scenario_cart "1" (of_Z 5) Hq)))
             {| product := sample_product; quantity := of_Z 1;
                itemKey := "1" |}
             eq_refl).
  - refine (proj1 (proj2 (proj2 (proj2 (proj2
             (update_quantity_effect scenario_cart "missing" (of_Z 5) Hq)))))
             _).
    reflexivity.
Defined.

(** ** Item count *)

Lemma itemCount_app_one (l : list CartItem) (x : CartItem) :
  calculateItemCount (l ++ [x]) = (calculateItemCount l + quantity x)%num.
Proof. unfold calculateItemCount. rewrite fold_left_app. reflexivity. Qed.

Lemma sum_Z_app (l1 l2 : list Z) : sum_Z (l1 ++ l2) = sum_Z l1 + sum_Z l2.
Proof. induction l1 as [|z l IH]; simpl; [reflexivity | rewrite IH; lia]. Qed.

Lemma whole_quantities_sum (its : list CartItem) (zs : list Z) :
  whole_quantities its zs -> 0 <= sum_Z zs.
Proof. induction 1 as [|x z l zs [_ Hz] _ IH]; simpl; lia. Qed.

(** The count of whole quantities is their whole sum, as long as it stays
    within 2^53. *)
Lemma itemCount_whole (its : list CartItem) (zs : list Z) :
  whole_quantities its zs -> sum_Z zs <= 2 ^ 53 ->
  calculateItemCount its = of_Z (sum_Z zs).
Proof.
  unfold calculateItemCount. intros H.
  assert (G : forall a, 0 <= a -> a + sum_Z zs <= 2 ^ 53 ->
            fold_left (fun count item => (count + quantity item)%num) its
                      (of_Z a) = of_Z (a + sum_Z zs)).
  { induction H as [|x z l zs' [Hx Hz] Hl IH]; intros a Ha Hsum; simpl in *.
    - rewrite Z.add_0_r. reflexivity.
    - pose proof (whole_quantities_sum _ _ Hl).
      rewrite Hx, add_exact by lia. rewrite IH by lia. f_equal. lia. }
  intros Hsum. apply (G 0); lia.
Qed.

(** AddItem of a whole quantity keeps the quantities whole and raises
    their sum by that quantity. *)
Lemma add_item_whole (s : CartState) (p : Product) (z : Z) (zs : list Z) :
  whole_quantities (items s) zs -> 0 <= z -> sum_Z zs + z <= 2 ^ 53 ->
  exists zs',
    whole_quantities (items (cartReducer s (ADD_ITEM p (of_Z z)))) zs' /\
    sum_Z zs' = sum_Z zs + z.
Proof.
  intros H Hz Hsum.
  destruct (add_item_cases s p (of_Z z))
    as [[_ ->] | (l1 & x & l2 & E & _ & _ & ->)].
  - exists (zs ++ [z]). split.
    + apply List.Forall2_app; [exact H|]. repeat constructor. exact Hz.
    + rewrite sum_Z_app. simpl. lia.
  - unfold whole_quantities in H. rewrite E in H.
    apply List.Forall2_app_inv_l in H as (z1 & z2 & H1 & H2 & ->).
    inversion H2 as [|x' zx l2' z2' [Hx Hzx] H2' E1 E2]. subst.
    pose proof (whole_quantities_sum _ _ H1).
    pose proof (whole_quantities_sum _ _ H2').
    rewrite sum_Z_app in Hsum. simpl in Hsum.
    exists (z1 ++ (zx + z) :: z2'). split.
    + apply List.Forall2_app; [exact H1|]. constructor; [|exact H2'].
      simpl. rewrite Hx, add_exact by lia. split; [reflexivity | lia].
    + rewrite !sum_Z_app. simpl. lia.
Qed.

Lemma item_count_after_add_whole (s : CartState) (p : Product) (z : Z)
    (zs : list Z) :
  whole_quantities (items s) zs -> 0 <= z -> sum_Z zs + z <= 2 ^ 53 ->
  calculateItemCount (items s) = of_Z (sum_Z zs) /\
  calculateItemCount (items (cartReducer s (ADD_ITEM p (of_Z z)))) =
    of_Z (sum_Z zs + z).
Proof.
  intros H Hz Hsum. pose proof (whole_quantities_sum _ _ H).
  split; [apply itemCount_whole; [exact H | lia]|].
  destruct (add_item_whole s p z zs H Hz Hsum) as (zs' & H' & E).
  rewrite <- E. apply itemCount_whole; [exact H' | lia].
Qed.

(** X3. In a cart of whole quantities, AddItem of a whole quantity raises
    the item count by exactly that quantity, whether it opens a new line or
    grows an existing one, as long as the new count is at most 2^53; the
    count is then the whole sum of the quantities. When AddItem opens a new
    line the count is the old count plus the quantity whatever the numbers
    are. Beyond 2^53 the count stops following: with a line of 2^53 pieces,
    adding one piece of it leaves the count at 2^53. ClearCart brings the
    count to zero. *)
Theorem add_item_item_count (s : CartState) (p : Product) :
  (forall (zs : list Z) (z : Z),
     whole_quantities (items s) zs -> 0 <= z -> sum_Z zs + z <= 2 ^ 53 ->
     calculateItemCount (items s) = of_Z (sum_Z zs) /\
     calculateItemCount (items (cartReducer s (ADD_ITEM p (of_Z z)))) =
       of_Z (sum_Z zs + z) /\
     calculateItemCount (items (cartReducer s (ADD_ITEM p (of_Z z)))) =
       (calculateItemCount (items s) + of_Z z)%num) /\
  (forall q : number,
     ~ In (generateItemKey p) (keys (items s)) ->
     calculateItemCount (items (cartReducer s (ADD_ITEM p q))) =
       (calculateItemCount (items s) + q)%num) /\
  (let full := {| items := [{| product := sample_product;
                               quantity := of_Z (2 ^ 53); itemKey := "1" |}];
                  isOpen := false; isLoading := false |} in
   calculateItemCount
     (items (cartReducer full (addItem sample_product None))) =
   of_Z (2 ^ 53)) /\
  calculateItemCount (items (cartReducer s clearCart)) = of_Z 0.
Proof.
  split; [|split; [|split]].
  - intros zs z H Hz Hsum.
    destruct (item_count_after_add_whole s p z zs H Hz Hsum) as [E1 E2].
    pose proof (whole_quantities_sum _ _ H).
    split; [exact E1|]. split; [exact E2|].
    rewrite E2, E1, add_exact by lia. reflexivity.
  - intros q Hn.
    rewrite add_item_absent by (apply has_key_false_not_in, Hn).
    cbn [items set_items]. apply itemCount_app_one.
  - vm_compute. reflexivity.
  - reflexivity.
Qed.

Lemma add_item_item_count_witness :
  calculateItemCount
    (items (cartReducer scenario_cart (ADD_ITEM sample_product (of_Z 2)))) =
  of_Z 3.
Proof.
  refine (proj1 (proj2 (proj1 (add_item_item_count scenario_cart
                                 sample_product) [1] 2 _ _ _))).
  - repeat constructor. lia.
  - lia.
  - simpl. lia.
Defined.

(** X4. After AddItem of a product, [getItem] on its key finds the line
    that was there before with its quantity raised by the amount added (the
    sum the language computes) and its product untouched, or, when there
    was none, the new line of the product; the lines of every other key are
    found as before. *)
Theorem add_item_lookup (s : CartState) (p : Product) (q : number) :
  let key := generateItemKey p in
  let s' := cartReducer s (ADD_ITEM p q) in
  getItem s' key =
    Some (match getItem s key with
          | Some x => set_quantity x (quantity x + q)%num
          | None => {| product := p; quantity := q; itemKey := key |}
          end) /\
  (forall k, k <> key -> getItem s' k = getItem s k).
Proof.
  intros key s'. subst s'. rewrite !getItem_unfold.
  destruct (first_match_split (has_key key) (items s))
    as [H | (l1 & x & l2 & E & Hx & H1)].
  - rewrite (add_item_absent s p q H). simpl.
    rewrite (find_no_match _ _ H). split.
    + rewrite (find_app_no_match _ _ _ H). simpl. unfold has_key. simpl.
      fold key. rewrite String.eqb_refl. reflexivity.
    + intros k Hk. rewrite !getItem_unfold. simpl.
      destruct (find (has_key k) (items s)) as [y|] eqn:Hy.
      * apply find_app_match. exact Hy.
      * rewrite find_app_no_match.
        -- simpl. unfold has_key. simpl. fold key.
           replace (String.eqb key k) with false; [reflexivity|].
           symmetry. apply String.eqb_neq. congruence.
        -- apply Forall_forall. intros y Hin%list_elem_of_In.
           apply (find_none _ _ Hy y Hin).
  - rewrite (add_item_present s p q l1 x l2 E H1 Hx). simpl. rewrite E.
    rewrite (find_first_match _ l1 l2 x H1 Hx). split.
    + apply find_first_match; [exact H1 | exact Hx].
    + intros k Hk. rewrite !getItem_unfold. simpl. rewrite E.
      assert (Hxk : has_key k x = false).
      { unfold has_key in *. apply String.eqb_eq in Hx.
        apply String.eqb_neq. congruence. }
      clear -Hxk. induction l1 as [|y l IH]; simpl.
      * unfold has_key in *. simpl. rewrite Hxk. reflexivity.
      * destruct (has_key k y); [reflexivity | exact IH].
Qed.

Lemma add_item_lookup_witness :
  getItem (cartReducer scenario_cart (ADD_ITEM product_a_b_plain (of_Z 2)))
          "1" =
  getItem scenario_cart "1".
Proof.
  apply (proj2 (add_item_lookup scenario_cart product_a_b_plain (of_Z 2)) "1").
  vm_compute. discriminate.
Defined.

Lemma reducer_items_only (s1 s2 : CartState) (a : CartAction) :
  items s1 = items s2 ->
  items (cartReducer s1 a) = items (cartReducer s2 a).
Proof.
  intros E. destruct a as [p q|key|key q| | | | |b|its]; simpl;
    rewrite ?E; try reflexivity.
  - destruct (0 <=? _); [|reflexivity].
    destruct (items s2 !! _); simpl; [reflexivity | exact E].
  - destruct (q <=? _)%num; reflexivity.
Qed.

Lemma reducer_isOpen_only (s1 s2 : CartState) (a : CartAction) :
  isOpen s1 = isOpen s2 ->
  isOpen (cartReducer s1 a) = isOpen (cartReducer s2 a).
Proof.
  intros E. destruct a as [p q|key|key q| | | | |b|its]; simpl;
    rewrite ?E; try reflexivity.
  - destruct (0 <=? _), (0 <=? _); repeat destruct (_ !! _); simpl;
      exact E.
  - destruct (q <=? _)%num; simpl; exact E.
Qed.

Lemma reducer_not_line (s : CartState) (a : CartAction) :
  is_line_command a = false -> items (cartReducer s a) = items s.
Proof. destruct a; try discriminate; reflexivity. Qed.

Lemma reducer_not_drawer (s : CartState) (a : CartAction) :
  is_drawer_command a = false -> isOpen (cartReducer s a) = isOpen s.
Proof.
  destruct a as [p q|key|key q| | | | |b|its]; try discriminate;
    intros _; simpl; try reflexivity.
  - destruct (0 <=? _); [destruct (_ !! _)|]; reflexivity.
  - destruct (q <=? _)%num; reflexivity.
Qed.

Lemma line_command_not_loading (s : CartState) (a : CartAction) :
  isLoading s = false -> a <> SET_LOADING true ->
  isLoading (cartReducer s a) = false.
Proof.
  intros Hs Ha. destruct a as [p q|key|key q| | | | |b|its]; simpl;
    try exact Hs; try reflexivity.
  - destruct (0 <=? _); [destruct (_ !! _)|]; exact Hs.
  - destruct (q <=? _)%num; exact Hs.
  - destruct b; [contradiction Ha; reflexivity | reflexivity].
Qed.

(** X5. The lines and the flags do not interfere. The lines after a
    sequence of commands are the lines after its line commands alone (add,
    remove, update, clear, hydrate), and the drawer flag is the one after
    its open, close and toggle commands alone. Once the cart is not
    loading it stays so, as long as no command sets the flag again. *)
Theorem lines_and_flags_independent
    (actions : list CartAction) (s : CartState) :
  items (run actions s) =
    items (run (List.filter is_line_command actions) s) /\
  isOpen (run actions s) =
    isOpen (run (List.filter is_drawer_command actions) s) /\
  (isLoading s = false ->
   Forall (fun a => a <> SET_LOADING true) actions ->
   isLoading (run actions s) = false).
Proof.
  split; [|split].
  - assert (H : forall s1 s2, items s1 = items s2 ->
              items (run actions s1) =
              items (run (List.filter is_line_command actions) s2)).
    { induction actions as [|a l IH]; intros s1 s2 E; simpl; [exact E|].
      destruct (is_line_command a) eqn:Ha; simpl.
      - apply IH, reducer_items_only, E.
      - apply IH. rewrite reducer_not_line by exact Ha. exact E. }
    apply H. reflexivity.
  - assert (H : forall s1 s2, isOpen s1 = isOpen s2 ->
              isOpen (run actions s1) =
              isOpen (run (List.filter is_drawer_command actions) s2)).
    { induction actions as [|a l IH]; intros s1 s2 E; simpl; [exact E|].
      destruct (is_drawer_command a) eqn:Ha; simpl.
      - apply IH, reducer_isOpen_only, E.
      - apply IH. rewrite reducer_not_drawer by exact Ha. exact E. }
    apply H. reflexivity.
  - intros Hs Hl.
    apply (run_invariant (fun t => isLoading t = false)
                         (fun a => a <> SET_LOADING true)); try assumption.
    intros t a Ha Ht. apply line_command_not_loading; assumption.
Qed.

Lemma lines_and_flags_independent_witness :
  let actions := [HYDRATE (items scenario_cart); OPEN_CART;
                  addItem sample_product None; TOGGLE_CART; removeItem "1"] in
  isLoading (run actions initialState) = false.
Proof.
  intros actions.
  change (run actions initialState)
    with (run (tl actions) (cartReducer initialState (hd OPEN_CART actions))).
  refine (proj2 (proj2 (lines_and_flags_independent (tl actions) _)) _ _).
  - reflexivity.
  - repeat constructor; discriminate.
Defined.

(** A count that starts at one or above stays there. *)
Lemma count_stays_at_least_one (its : list CartItem) (acc : number) :
  at_least_one acc -> quantities_positive its ->
  at_least_one (fold_left (fun count item => (count + quantity item)%num)
                          its acc).
Proof.
  intros Hacc H. revert acc Hacc.
  induction H as [|x l Hx _ IH]; intros acc Hacc; simpl; [exact Hacc|].
  apply IH, add_at_least_one; [apply Hacc | | exact Hx].
  apply at_least_one_not_negative, Hacc.
Qed.

(** After [n] lines of at least one piece each, the count is at least
    [n]: no rounding brings a sum below a whole number that it has
    reached. *)
Lemma count_at_least_length (its : list CartItem) :
  quantities_positive its ->
  forall (acc : number) (n : Z),
    valid acc = true -> not_negative acc ->
    (is_finite acc = true -> n * 2 ^ 1074 <= scaled acc) ->
    0 <= n -> n + Z.of_nat (length its) <= 2 ^ 53 ->
    let c := fold_left (fun count item => (count + quantity item)%num)
                       its acc in
    valid c = true /\ not_negative c /\
    (is_finite c = true ->
     (n + Z.of_nat (length its)) * 2 ^ 1074 <= scaled c).
Proof.
  induction 1 as [|x l Hx _ IH]; intros acc n Vacc Nacc Hacc Hn Hlen c.
  - subst c. simpl. rewrite Z.add_0_r. auto.
  - subst c. cbn [fold_left length]. cbn [length] in Hlen.
    rewrite Nat2Z.inj_succ in *.
    replace (n + Z.succ (Z.of_nat (length l)))
      with ((n + 1) + Z.of_nat (length l)) by lia.
    pose proof Hx as [Vx _].
    destruct (at_least_one_inv _ Hx) as [Nx Sx].
    destruct (of_Z_exact (n + 1) ltac:(lia)) as [Fk Sk].
    assert (Hp : 0 < 2 ^ 1074) by (apply pow2_pos; lia).
    assert (Hge : (acc + quantity x >=? of_Z (n + 1))%num = true).
    { apply add_ge; try assumption; try apply of_Z_valid.
      - rewrite Sk. nia.
      - intros Fa Fx. rewrite Sk. specialize (Hacc Fa). specialize (Sx Fx).
        lia. }
    specialize (IH (acc + quantity x)%num (n + 1)). cbv zeta in IH.
    apply IH; try lia.
    + apply add_valid; assumption.
    + apply add_not_negative; assumption.
    + intros Fc. rewrite <- Sk.
      apply geb_finite; try assumption; try apply of_Z_valid.
      apply add_valid; assumption.
Qed.

(** X6. When every line has quantity at least 1, the item count is at least
    the number of lines (up to 2^53 lines, more than an array holds), so it
    is zero exactly when the cart has no line: the checkout page's test
    [itemCount === 0] and the hook's [isEmpty] agree. This holds through
    the rounding of the sums, for quantities that are not whole as well. *)
Theorem item_count_zero_iff_empty (s : CartState) :
  quantities_positive (items s) ->
  (Z.of_nat (length (items s)) <= 2 ^ 53 ->
   (of_Z (Z.of_nat (length (items s))) <=? itemCount s)%num = true) /\
  (itemCount s =? of_Z 0)%num = isEmpty s.
Proof.
  unfold itemCount, isEmpty, calculateItemCount. intros H. split.
  - intros Hlen.
    destruct (count_at_least_length (items s) H (of_Z 0) 0) as (Vc & Nc & Sc);
      try reflexivity; try lia.
    + left. exists false. reflexivity.
    + cbv zeta in Vc, Nc, Sc. rewrite Z.add_0_l in Sc.
      set (c := fold_left _ (items s) (of_Z 0)) in *.
      destruct (of_Z_exact (Z.of_nat (length (items s))) ltac:(lia))
        as [Fk Sk].
      unfold leb.
      destruct (is_finite c) eqn:Fc.
      * apply geb_finite; try assumption; try apply of_Z_valid.
        rewrite Sk. apply Sc. reflexivity.
      * destruct Nc as [[sc Ec]|[Ec|(m & e & Ec)]]; rewrite Ec in Fc |- *;
          try discriminate Fc.
        destruct (of_Z (Z.of_nat (length (items s))));
          try discriminate Fk; reflexivity.
  - destruct (items s) as [|x l]; [reflexivity|].
    apply Forall_cons in H as [Hx Hl]. cbn [fold_left length Nat.eqb].
    apply at_least_one_not_zero, count_stays_at_least_one; [|exact Hl].
    apply add_at_least_one; [reflexivity | | exact Hx].
    left. exists false. reflexivity.
Qed.

Lemma item_count_zero_iff_empty_witness :
  (of_Z 1 <=? itemCount scenario_cart)%num = true /\
  (itemCount scenario_cart =? of_Z 0)%num = isEmpty scenario_cart.
Proof.
  destruct (item_count_zero_iff_empty scenario_cart) as [H1 H2].
  - repeat constructor.
  - split; [apply H1; simpl; lia | exact H2].
Defined.

(** ** Validation: phone, postal code and trimming *)

Lemma length_list_ascii (s : string) :
  length (list_ascii_of_string s) = String.length s.
Proof. induction s as [|c s IH]; simpl; congruence. Qed.

Lemma matches_repeat_class (f : ascii -> bool) (n : nat) (w : list ascii) :
  matches (Repeat n (Class f)) w <-> length w = n /\ forallb f w = true.
Proof.
  revert w. induction n as [|n IH]; intros w; simpl.
  - split.
    + intros H. inversion H. split; reflexivity.
    + intros [Hl _]. apply length_zero_iff_nil in Hl. subst. constructor.
  - split.
    + intros (w1 & w2 & -> & H1 & H2)%matches_seq_inv.
      apply matches_class_inv in H1 as (c & -> & Hc).
      apply IH in H2 as [Hl Hf]. simpl. rewrite Hc, Hf, Hl. auto.
    + intros [Hl Hf]. destruct w as [|c w]; [discriminate|]. simpl in *.
      apply andb_true_iff in Hf as [Hc Hf].
      apply (MSeq _ _ [c] w); [constructor; exact Hc|].
      apply IH. split; [lia | exact Hf].
Qed.

Lemma matches_at_least_class (f : ascii -> bool) (n : nat) (w : list ascii) :
  matches (AtLeast n (Class f)) w <->
  (n <= length w)%nat /\ forallb f w = true.
Proof.
  unfold AtLeast. split.
  - intros (w1 & w2 & -> & H1 & H2)%matches_seq_inv.
    apply matches_repeat_class in H1 as [Hl H1].
    apply matches_star_class in H2.
    rewrite length_app, forallb_app, H1, H2. split; [lia | reflexivity].
  - intros [Hl Hf]. rewrite <- (firstn_skipn n w) in Hf |- *.
    rewrite forallb_app in Hf. apply andb_true_iff in Hf as [H1 H2].
    apply MSeq.
    + apply matches_repeat_class. split; [|exact H1].
      rewrite length_firstn. lia.
    + apply matches_star_class, H2.
Qed.

(** X7. isValidPhone(s) is true exactly when s has at least 7 characters
    and each of them is a digit, whitespace, "-", "+", "(" or ")". So a
    string of seven spaces passes, and a letter anywhere fails. *)
Theorem isValidPhone_shape (s : string) :
  isValidPhone s = true <->
  (7 <= String.length s)%nat /\
  forallb phone_char (list_ascii_of_string s) = true.
Proof.
  unfold isValidPhone, test, phoneRegex.
  rewrite accepts_matches, matches_at_least_class, length_list_ascii.
  reflexivity.
Qed.

Lemma isValidPhone_shape_witness :
  isValidPhone "(555) 123-4567" = true /\ isValidPhone "       " = true.
Proof.
  split; apply isValidPhone_shape; (split; [simpl; lia | reflexivity]).
Defined.


Lemma matches_alt_inv (r1 r2 : regex) (w : list ascii) :
  matches (Alt r1 r2) w -> matches r1 w \/ matches r2 w.
Proof. intros H. inversion H; subst; auto. Qed.

Lemma matches_empty_inv (w : list ascii) : matches Empty w -> w = [].
Proof. intros H. inversion H. reflexivity. Qed.

Lemma digit_string_list (n : nat) (w : list ascii) :
  digit_string n (string_of_list_ascii w) <->
  length w = n /\ forallb is_digit w = true.
Proof.
  unfold digit_string.
  rewrite <- length_list_ascii, list_ascii_of_string_of_list_ascii.
  reflexivity.
Qed.

(** X8. For the country "US", which is also the default when no country is
    given, isValidPostalCode(s) is true exactly when s is five digits, or
    five digits, "-" and four digits. For every other country it is true
    exactly when s has at least three characters, whatever they are. *)
Theorem isValidPostalCode_shape (s : string) :
  (isValidPostalCode s (Some "US") = true <->
   digit_string 5 s \/
   exists a b : string,
     s = a +:+ "-" +:+ b /\ digit_string 5 a /\ digit_string 4 b) /\
  isValidPostalCode s None = isValidPostalCode s (Some "US") /\
  (forall country : string,
     country <> "US" ->
     (isValidPostalCode s (Some country) = true <->
      (3 <= String.length s)%nat)).
Proof.
  split; [|split; [reflexivity|]].
  - unfold isValidPostalCode. simpl. unfold test, usPostalRegex.
    rewrite accepts_matches. split.
    + intros (w1 & w2 & E & H1 & H2)%matches_seq_inv.
      apply matches_repeat_class in H1.
      apply matches_alt_inv in H2 as [H2|H2].
      * right. apply matches_seq_inv in H2 as (d & w3 & -> & Hd & H3).
        apply matches_chr in Hd. subst d.
        apply matches_repeat_class in H3.
        exists (string_of_list_ascii w1), (string_of_list_ascii w3).
        rewrite !digit_string_list. split; [|split; assumption].
        rewrite <- (string_of_list_ascii_of_string s), E.
        rewrite <- (string_of_list_ascii_of_string (_ +:+ _)).
        f_equal. rewrite !list_ascii_of_string_app.
        rewrite !list_ascii_of_string_of_list_ascii. reflexivity.
      * left. apply matches_empty_inv in H2. subst w2.
        rewrite app_nil_r in E. subst w1.
        rewrite <- (string_of_list_ascii_of_string s).
        apply digit_string_list. exact H1.
    + intros [H | (a & b & -> & Ha & Hb)].
      * rewrite <- (app_nil_r (list_ascii_of_string s)). apply MSeq.
        -- apply matches_repeat_class. unfold digit_string in H.
           rewrite length_list_ascii. exact H.
        -- apply MAltR. constructor.
      * rewrite !list_ascii_of_string_app. apply MSeq.
        -- apply matches_repeat_class. unfold digit_string in Ha.
           rewrite length_list_ascii. exact Ha.
        -- apply MAltL. apply (MSeq _ _ ["-"%char]).
           ++ apply matches_chr. reflexivity.
           ++ apply matches_repeat_class. unfold digit_string in Hb.
              rewrite length_list_ascii. exact Hb.
  - intros country Hc. unfold isValidPostalCode. simpl.
    apply String.eqb_neq in Hc. rewrite Hc.
    rewrite Z.leb_le. lia.
Qed.

Lemma isValidPostalCode_shape_witness :
  isValidPostalCode "12345-6789" (Some "US") = true /\
  isValidPostalCode "K1A" (Some "CA") = true.
Proof.
  split.
  - apply (proj1 (isValidPostalCode_shape "12345-6789")). right.
    exists "12345", "6789". repeat split.
  - refine (proj2 (proj2 (proj2 (isValidPostalCode_shape "K1A")) "CA" _) _).
    + discriminate.
    + simpl. lia.
Defined.

Lemma trimStart_split (w : list ascii) :
  exists sp, w = sp ++ trimStart w /\ forallb is_space sp = true.
Proof.
  induction w as [|c w (sp & E & Hsp)]; simpl.
  - exists []. auto.
  - destruct (is_space c) eqn:Hc.
    + exists (c :: sp). simpl. rewrite Hc, Hsp, <- E. auto.
    + exists []. auto.
Qed.

Lemma trimStart_no_leading (w : list ascii) : no_leading_space (trimStart w).
Proof.
  induction w as [|c w IH]; simpl; [exact I|].
  destruct (is_space c) eqn:Hc; [exact IH | exact Hc].
Qed.

Lemma trimStart_fixed (w : list ascii) :
  no_leading_space w -> trimStart w = w.
Proof. destruct w as [|c w]; simpl; [reflexivity|]. intros ->. reflexivity. Qed.

Lemma trimStart_nil_iff (w : list ascii) :
  trimStart w = [] <-> forallb is_space w = true.
Proof.
  induction w as [|c w IH]; simpl; [tauto|].
  destruct (is_space c); simpl; [exact IH|]. split; discriminate.
Qed.

(** Trimming the end keeps a start that is not whitespace. *)
Lemma trim_end_keeps_start (w : list ascii) :
  no_leading_space w -> no_leading_space (rev (trimStart (rev w))).
Proof.
  intros Hw. destruct (trimStart_split (rev w)) as (sp & E & Hsp).
  assert (Ew : w = rev (trimStart (rev w)) ++ rev sp).
  { rewrite <- rev_app_distr, <- E, rev_involutive. reflexivity. }
  destruct (rev (trimStart (rev w))) as [|c t] eqn:Et; [exact I|].
  rewrite Ew in Hw. exact Hw.
Qed.

Lemma forallb_rev {A} (f : A -> bool) (l : list A) :
  forallb f (rev l) = forallb f l.
Proof.
  induction l as [|x l IH]; simpl; [reflexivity|].
  rewrite forallb_app, IH. simpl. rewrite andb_true_r. apply andb_comm.
Qed.

(** [trim] removes whitespace from both ends and nothing else: its result
    neither starts nor ends with whitespace, a string that does not start
    or end with whitespace is returned as it is, and trimming twice is
    trimming once. The result is empty, which is what the required-field
    checks of the form test, exactly when every character is whitespace. *)
Lemma trim_spec (s : string) :
  let w := list_ascii_of_string s in
  let t := list_ascii_of_string (trim s) in
  no_leading_space t /\ no_leading_space (rev t) /\
  (no_leading_space w -> no_leading_space (rev w) -> trim s = s) /\
  trim (trim s) = trim s /\
  (blank s = true <-> forallb is_space w = true).
Proof.
  intros w t.
  assert (Ht : t = rev (trimStart (rev (trimStart w)))).
  { unfold t, trim. apply list_ascii_of_string_of_list_ascii. }
  assert (H1 : no_leading_space t).
  { rewrite Ht. apply trim_end_keeps_start, trimStart_no_leading. }
  assert (H2 : no_leading_space (rev t)).
  { rewrite Ht, rev_involutive. apply trimStart_no_leading. }
  assert (Hfix : forall u : string,
            no_leading_space (list_ascii_of_string u) ->
            no_leading_space (rev (list_ascii_of_string u)) ->
            trim u = u).
  { intros u Ha Hb. unfold trim.
    rewrite (trimStart_fixed _ Ha), (trimStart_fixed _ Hb), rev_involutive.
    apply string_of_list_ascii_of_string. }
  split; [exact H1|]. split; [exact H2|]. split; [apply Hfix|].
  split; [apply Hfix; assumption|].
  unfold blank, truthy. rewrite negb_involutive, String.eqb_eq.
  assert (E : trim s = "" <-> t = []).
  { unfold t. split; [intros ->; reflexivity|]. intros E.
    rewrite <- (string_of_list_ascii_of_string (trim s)), E. reflexivity. }
  rewrite E, Ht. split.
  - intros H. apply (f_equal (@rev ascii)) in H.
    rewrite rev_involutive in H. simpl in H.
    apply trimStart_nil_iff in H. rewrite forallb_rev in H.
    destruct (trimStart_split w) as (sp & Ew & Hsp).
    rewrite Ew, forallb_app, Hsp, H. reflexivity.
  - intros H. apply trimStart_nil_iff in H. rewrite H. reflexivity.
Qed.

(** ** Checkout form: validation *)

Lemma blank_false_iff (s : string) : blank s = false <-> has_text s = true.
Proof.
  unfold has_text. destruct (trim_spec s) as (_ & _ & _ & _ & H).
  destruct (blank s) eqn:Hb.
  - split; [discriminate|]. intros Hx. exfalso.
    assert (Hall : forallb is_space (list_ascii_of_string s) = true)
      by (apply H; reflexivity).
    apply existsb_exists in Hx as (c & Hin & Hc).
    rewrite forallb_forall in Hall. rewrite (Hall c Hin) in Hc.
    discriminate Hc.
  - split; [|reflexivity]. intros _.
    destruct (existsb _ _) eqn:Hx; [reflexivity|]. exfalso.
    assert (Hall : forallb is_space (list_ascii_of_string s) = true).
    { apply forallb_forall. intros c Hin.
      destruct (is_space c) eqn:Hc; [reflexivity|].
      assert (existsb (fun c => negb (is_space c))
                      (list_ascii_of_string s) = true).
      { apply existsb_exists. exists c. rewrite Hc. auto. }
      congruence. }
    apply H in Hall. discriminate Hall.
Qed.

Lemma set_if_empty (c : bool) (key message : string)
    (e : gmap string string) :
  set_if c key message e = ∅ <-> c = false /\ e = ∅.
Proof.
  unfold set_if. destruct c.
  - split; [|intros [H _]; discriminate H].
    intros H. exfalso. exact (insert_non_empty _ _ _ H).
  - tauto.
Qed.

Lemma required_then_checked_empty (b c : bool) (key m1 m2 : string)
    (e : gmap string string) :
  (if b then <[key := m1]> e else set_if c key m2 e) = ∅ <->
  b = false /\ c = false /\ e = ∅.
Proof.
  destruct b.
  - split; [|intros [H _]; discriminate H].
    intros H. exfalso. exact (insert_non_empty _ _ _ H).
  - rewrite set_if_empty. tauto.
Qed.

Lemma isValidEmail_has_text (s : string) :
  isValidEmail s = true -> has_text s = true.
Proof.
  intros H. unfold isValidEmail, test in H.
  apply accepts_matches, emailRegex_language in H
    as (l & d & t & E & [Hne Hl] & _).
  unfold has_text. rewrite E. destruct l as [|c l]; [contradiction|].
  simpl in *. apply andb_true_iff in Hl as [Hc _].
  unfold not_space_at in Hc. apply negb_true_iff, orb_false_iff in Hc as [-> _].
  reflexivity.
Qed.

Lemma validation_errors_empty_iff (props : CheckoutFormProps)
    (sh : ShippingAddress) (bi : BillingAddress) :
  validation_errors props sh bi = ∅ <->
  shipping_passes sh = true /\
  (showBillingAddress props = true -> sameAsShipping bi = false ->
   billing_passes (billing_address bi) = true).
Proof.
  unfold validation_errors. cbv zeta.
  destruct (showBillingAddress props && negb (sameAsShipping bi)) eqn:Hb.
  - repeat (rewrite required_then_checked_empty || rewrite set_if_empty).
    apply andb_true_iff in Hb as [Hs Hn]. apply negb_true_iff in Hn.
    unfold shipping_passes, billing_passes.
    rewrite !andb_true_iff, !negb_false_iff, !blank_false_iff.
    split.
    + intros H. decompose [and] H. clear H. split.
      * repeat split; try assumption.
        destruct (phone sh) as [p|]; [|reflexivity].
        destruct (truthy p), (isValidPhone p); try reflexivity.
        discriminate.
      * intros _ _. repeat split; assumption.
    + intros [H1 H2]. specialize (H2 Hs Hn). decompose [and] H1.
      decompose [and] H2. clear H1 H2.
      repeat split; try assumption;
        try (apply isValidEmail_has_text; assumption).
      destruct (phone sh) as [p|]; [|reflexivity].
      destruct (truthy p), (isValidPhone p); try reflexivity.
      discriminate.
  - repeat (rewrite required_then_checked_empty || rewrite set_if_empty).
    unfold shipping_passes.
    rewrite !andb_true_iff, !negb_false_iff, !blank_false_iff.
    split.
    + intros H. decompose [and] H. clear H. split.
      * repeat split; try assumption.
        destruct (phone sh) as [p|]; [|reflexivity].
        destruct (truthy p), (isValidPhone p); try reflexivity.
        discriminate.
      * intros Hs Hn. rewrite Hs, Hn in Hb. discriminate Hb.
    + intros [H1 _]. decompose [and] H1. clear H1.
      repeat split; try assumption;
        try (apply isValidEmail_has_text; assumption).
      destruct (phone sh) as [p|]; [|reflexivity].
      destruct (truthy p), (isValidPhone p); try reflexivity.
      discriminate.
Qed.

Lemma lookup_set_if_ne (c : bool) (key message k : string)
    (e : gmap string string) :
  key <> k -> set_if c key message e !! k = e !! k.
Proof.
  intros H. unfold set_if. destruct c; [|reflexivity].
  apply lookup_insert_ne. exact H.
Qed.

Lemma lookup_required_then_checked_ne (b c : bool) (key m1 m2 k : string)
    (e : gmap string string) :
  key <> k ->
  (if b then <[key := m1]> e else set_if c key m2 e) !! k = e !! k.
Proof.
  intros H. destruct b; [apply lookup_insert_ne, H|].
  apply lookup_set_if_ne, H.
Qed.

Lemma validation_errors_no_form (props : CheckoutFormProps)
    (sh : ShippingAddress) (bi : BillingAddress) :
  validation_errors props sh bi !! "form" = None.
Proof.
  unfold validation_errors. cbv zeta.
  destruct (showBillingAddress props && negb (sameAsShipping bi));
    repeat first [ rewrite lookup_required_then_checked_ne by discriminate
                 | rewrite lookup_set_if_ne by discriminate ];
    apply lookup_empty.
Qed.

(** X9. validateForm returns true exactly when, in the shipping address,
    the first name, last name, address, city, state and postal code each
    hold a character that is not whitespace, the email is a valid email,
    the phone is missing, empty or a valid phone, and the postal code is
    valid for the country; and, when the billing section is shown and is
    not "same as shipping", the billing address passes the same checks (it
    has no phone check). It replaces the error state: the result is true
    exactly when the new error state is empty, and an earlier form-level
    error is gone either way. A billing address marked "same as shipping"
    is not looked at. It touches neither the cart nor the fields. *)
Theorem validateForm_accepts (props : CheckoutFormProps) (w : World) :
  let ok := fst (validateForm props w) in
  let w' := snd (validateForm props w) in
  (ok = true <->
   shipping_passes (shipping (form w)) = true /\
   (showBillingAddress props = true ->
    sameAsShipping (billing (form w)) = false ->
    billing_passes (billing_address (billing (form w))) = true)) /\
  (ok = true <-> errors (form w') = ∅) /\
  errors (form w') !! "form" = None /\
  (forall b1 b2 : ShippingAddress,
     validation_errors props (shipping (form w))
       {| billing_address := b1; sameAsShipping := true |} =
     validation_errors props (shipping (form w))
       {| billing_address := b2; sameAsShipping := true |}) /\
  cart w' = cart w /\ log w' = log w /\
  shipping (form w') = shipping (form w) /\
  billing (form w') = billing (form w).
Proof.
  intros ok w'. subst ok w'. rewrite validateForm_run. simpl.
  rewrite size_zero_empty.
  split; [apply validation_errors_empty_iff|]. split; [reflexivity|].
  split; [apply validation_errors_no_form|].
  split; [|repeat split].
  intros b1 b2. unfold validation_errors. cbv zeta. simpl.
  rewrite andb_false_r. reflexivity.
Qed.

Lemma validateForm_accepts_witness :
  fst (validateForm rejecting_props
         {| cart := empty_cart; form := valid_form; log := [] |}) = true.
Proof.
  apply (proj1 (validateForm_accepts rejecting_props
                  {| cart := empty_cart; form := valid_form; log := [] |})).
  split; [vm_compute; reflexivity | discriminate].
Defined.

(** ** Checkout form: field edits *)

(** X10. updateShipping(field, value) stores the value in that field of the
    shipping address and in no other, removes the error of that field and
    the form-level error, and keeps every other error; the billing address,
    the notes, the submitting flag and the cart are untouched. Hence an
    edit after a rejected order creation leaves no error at all. *)
Theorem updateShipping_effect (field : AddressField) (value : string)
    (w : World) :
  let w' := snd (updateShipping field value w) in
  address_field (shipping (form w')) field = Some value /\
  (forall g, g <> field ->
     address_field (shipping (form w')) g =
     address_field (shipping (form w)) g) /\
  errors (form w') !! ("shipping." +:+ field_name field) = None /\
  errors (form w') !! "form" = None /\
  (forall k, k <> "form" -> k <> "shipping." +:+ field_name field ->
     errors (form w') !! k = errors (form w) !! k) /\
  (forall message, errors (form w) = {[ "form" := message ]} ->
     errors (form w') = ∅) /\
  billing (form w') = billing (form w) /\ notes (form w') = notes (form w) /\
  isSubmitting (form w') = isSubmitting (form w) /\
  cart w' = cart w /\ log w' = log w.
Proof.
  intros w'. subst w'. unfold updateShipping, bind, clearFieldError. simpl.
  split; [destruct field; reflexivity|].
  split; [intros g Hg; destruct field, g; try reflexivity; contradiction|].
  split.
  { rewrite lookup_delete_ne by (destruct field; discriminate).
    apply lookup_delete_eq. }
  split; [apply lookup_delete_eq|].
  split.
  { intros k H1 H2. rewrite !lookup_delete_ne by congruence. reflexivity. }
  split; [|repeat split].
  intros message ->. rewrite delete_singleton_ne by (destruct field; discriminate).
  apply delete_singleton_eq.
Qed.

Lemma updateShipping_effect_witness :
  let w := {| cart := scenario_cart; form := valid_form; log := [] |} in
  let failed := snd (handleSubmit sample_platform rejecting_props w) in
  errors (form (snd (updateShipping F_email "b@c.org" failed))) = ∅.
Proof.
  intros w failed.
  refine (proj1 (proj2 (proj2 (proj2 (proj2 (proj2
           (updateShipping_effect F_email "b@c.org" failed))))))
           "Service unavailable" _).
  unfold failed.
  rewrite (handleSubmit_called sample_platform rejecting_props w);
    [reflexivity | vm_compute; reflexivity | discriminate].
Defined.

(** X11. updateBilling does the same for the billing address: the edit
    changes the one field, or the "same as shipping" flag, removes the
    error of that key and the form-level error, and keeps every other
    error, the shipping address and the cart. Ticking "same as shipping"
    does not remove the billing field errors that are on display. *)
Theorem updateBilling_effect (edit : BillingEdit) (w : World) :
  let w' := snd (updateBilling edit w) in
  billing (form w') = apply_billing_edit (billing (form w)) edit /\
  errors (form w') !! ("billing." +:+ billing_edit_name edit) = None /\
  errors (form w') !! "form" = None /\
  (forall k, k <> "form" -> k <> "billing." +:+ billing_edit_name edit ->
     errors (form w') !! k = errors (form w) !! k) /\
  shipping (form w') = shipping (form w) /\
  cart w' = cart w /\ log w' = log w.
Proof.
  intros w'. subst w'. unfold updateBilling, bind, clearFieldError. simpl.
  split; [reflexivity|]. split.
  { rewrite lookup_delete_ne by (destruct edit as [[]|]; discriminate).
    apply lookup_delete_eq. }
  split; [apply lookup_delete_eq|]. split; [|repeat split].
  intros k H1 H2. rewrite !lookup_delete_ne by congruence. reflexivity.
Qed.

Lemma updateBilling_effect_witness :
  let w := {| cart := empty_cart;
              form := {| shipping := valid_shipping; billing := initialBilling;
                         notes := ""; isSubmitting := false;
                         errors := {[ "billing.city" := "City is required" ]} |};
              log := [] |} in
  errors (form (snd (updateBilling (EditSameAsShipping true) w)))
    !! "billing.city" = Some "City is required".
Proof.
  intros w.
  rewrite (proj1 (proj2 (proj2 (proj2
             (updateBilling_effect (EditSameAsShipping true) w))))
             "billing.city"); [reflexivity | discriminate | discriminate].
Defined.

(** ** Checkout form: submission *)

(** The redirect throws exactly on a GET redirect whose URL the browser's
    URL parser refuses. *)
Lemma redirectToPayment_returns (env : Platform)
    (config : PaymentRedirectConfig) :
  redirectToPayment env config = Returns <->
  method config = POST \/ url_accepts env (url config) = true.
Proof.
  unfold redirectToPayment.
  destruct (method config), (url_accepts env (url config)); split;
    try (intros _; auto; fail); try discriminate;
    intros [H|H]; discriminate H.
Qed.

(** X12. If the handler calls the order-creation function and its promise
    resolves, the handler announces the order to [onOrderCreated] when that
    callback is given, then clears the cart through the store, then hands
    the redirect to [redirectToPayment]. When both calls return, nothing
    else happens: the cart has no line, its flags are as before, there is
    no error, and the form stays in the submitting state. All of this runs
    inside [try]. When the redirect throws (a GET redirect whose URL the
    URL parser refuses, a path for one), the cart is already cleared: the
    form then shows the message of the error and [onError] is called.
    When [onOrderCreated] throws, the cart is not cleared and no redirect
    is attempted. In both cases the form can be submitted again unless
    [onError] throws too; with a cleared cart the submit button stays
    disabled all the same. *)
Theorem create_order_success_clears_cart
    (env : Platform) (props : CheckoutFormProps) (w : World)
    (formData : CheckoutFormValues) (its : list CartItem) (totals : Totals)
    (order : OrderData) (paymentRedirect : PaymentRedirectConfig) :
  In (CallCreateOrder formData its totals) (submit_effects env props w) ->
  onCreateOrder props formData its totals = Resolved order paymentRedirect ->
  let w' := snd (handleSubmit env props w) in
  let announced := result_of (onOrderCreated props) (order_id order) in
  let announce := call_of (onOrderCreated props)
                          (CallOrderCreated (order_id order)) in
  (announced = Returns ->
   redirectToPayment env paymentRedirect = Returns ->
   items (cart w') = [] /\
   isOpen (cart w') = isOpen (cart w) /\
   isLoading (cart w') = isLoading (cart w) /\
   errors (form w') = ∅ /\
   isSubmitting (form w') = true /\ submitDisabled w' = true /\
   submit_effects env props w =
     CallCreateOrder formData its totals :: announce ++
     [Dispatch CLEAR_CART; CallRedirectToPayment paymentRedirect]) /\
  (forall err : Thrown,
     announced = Returns ->
     redirectToPayment env paymentRedirect = Throws err ->
     items (cart w') = [] /\
     isOpen (cart w') = isOpen (cart w) /\
     isLoading (cart w') = isLoading (cart w) /\
     errors (form w') = {[ "form" := error_message err ]} /\
     (result_of (onError props) (error_message err) = Returns ->
      isSubmitting (form w') = false) /\
     submitDisabled w' = true /\
     submit_effects env props w =
       CallCreateOrder formData its totals :: (announce ++
       [Dispatch CLEAR_CART; CallRedirectToPayment paymentRedirect]) ++
       call_of (onError props) (CallOnError (error_message err))) /\
  (forall err : Thrown,
     announced = Throws err ->
     cart w' = cart w /\
     errors (form w') = {[ "form" := error_message err ]} /\
     (result_of (onError props) (error_message err) = Returns ->
      isSubmitting (form w') = false) /\
     submit_effects env props w =
       CallCreateOrder formData its totals :: announce ++
       call_of (onError props) (CallOnError (error_message err))) /\
  (redirectToPayment env paymentRedirect = Returns <->
   method paymentRedirect = POST \/
   url_accepts env (url paymentRedirect) = true) /\
  shipping (form w') = shipping (form w) /\
  billing (form w') = billing (form w).
Proof.
  intros Hcall Hres w' announced announce.
  apply create_order_called_inv in Hcall as (Hv & Hne & -> & -> & ->).
  pose proof (handleSubmit_called env props w Hv Hne) as E.
  pose proof (submit_effects_called env props w Hv Hne) as Eff.
  cbv zeta in E, Eff. rewrite Hres in E, Eff.
  unfold after_call_effects, submit_outcome in E, Eff.
  fold announced in E, Eff. fold announce in Eff.
  subst w'. rewrite E, Eff. clear E Eff.
  split; [|split; [|split; [|split; [|split]]]].
  - intros Ha Hr. rewrite Ha, Hr. cbn. rewrite app_nil_r.
    repeat (split; [reflexivity|]). reflexivity.
  - intros err Ha Hr. rewrite Ha, Hr. cbn.
    split; [reflexivity|]. split; [reflexivity|]. split; [reflexivity|].
    split; [reflexivity|]. split; [intros ->; reflexivity|].
    split; [apply orb_true_r | reflexivity].
  - intros err Ha. rewrite Ha. cbn. rewrite app_nil_r.
    split; [reflexivity|]. split; [reflexivity|].
    split; [intros ->; reflexivity | reflexivity].
  - apply redirectToPayment_returns.
  - reflexivity.
  - reflexivity.
Qed.

Lemma create_order_success_clears_cart_witness :
  let w := {| cart := scenario_cart; form := valid_form; log := [] |} in
  (items (cart (snd (handleSubmit sample_platform resolving_props w))) = [] /\
   errors (form (snd (handleSubmit sample_platform resolving_props w))) = ∅) /\
  (items (cart (snd (handleSubmit sample_platform relative_redirect_props w)))
     = [] /\
   errors (form (snd (handleSubmit sample_platform relative_redirect_props w)))
     = {[ "form" := "Invalid URL" ]}).
Proof.
  intros w.
  assert (Hcall : forall props,
            validation_errors props valid_shipping initialBilling = ∅ ->
            In (CallCreateOrder (formData_of props valid_form)
                  (items scenario_cart)
                  (calculateTotals (items scenario_cart)))
               (submit_effects sample_platform props w)).
  { intros props Hv.
    rewrite (submit_effects_called sample_platform props w Hv);
      [|discriminate].
    left. reflexivity. }
  split.
  - pose proof (proj1 (create_order_success_clears_cart sample_platform
                  resolving_props w _ _ _ _ _
                  (Hcall resolving_props eq_refl) eq_refl)
                  eq_refl eq_refl) as H.
    split; [apply H | apply H].
  - pose proof (proj1 (proj2 (create_order_success_clears_cart sample_platform
                  relative_redirect_props w _ _ _ _ _
                  (Hcall relative_redirect_props eq_refl) eq_refl))
                  (ThrownError "Invalid URL") eq_refl eq_refl) as H.
    split; [apply H | apply H].
Defined.

(** X13. One run of the handler calls the order-creation function at most
    once, and it calls it exactly when the fields pass validation and the
    cart has a line. The call receives the shipping address as typed, the
    lines of the cart, and calculateTotals of these lines (the order
    summary's overrides and discount are not part of it); the billing
    address it receives is a copy of the shipping address when "same as
    shipping" is ticked; the notes are passed only when the notes field is
    shown. *)
Theorem order_creation_call (env : Platform) (props : CheckoutFormProps)
    (w : World) :
  let calls := List.filter is_create_order (submit_effects env props w) in
  let formData := formData_of props (form w) in
  (length calls <= 1)%nat /\
  (calls <> [] <->
   (shipping_passes (shipping (form w)) = true /\
    (showBillingAddress props = true ->
     sameAsShipping (billing (form w)) = false ->
     billing_passes (billing_address (billing (form w))) = true)) /\
   items (cart w) <> []) /\
  (calls <> [] ->
   calls = [CallCreateOrder formData (items (cart w))
              (calculateTotals (items (cart w)))]) /\
  v_shipping formData = shipping (form w) /\
  (sameAsShipping (billing (form w)) = true ->
   billing_address (v_billing formData) = shipping (form w)) /\
  (sameAsShipping (billing (form w)) = false ->
   v_billing formData = billing (form w)) /\
  v_notes formData =
    (if showNotes props then Some (notes (form w)) else None).
Proof.
  intros calls formData.
  assert (Hcases :
    (calls = [] /\
     ~ (validation_errors props (shipping (form w)) (billing (form w)) = ∅ /\
        items (cart w) <> [])) \/
    (calls = [CallCreateOrder formData (items (cart w))
                (calculateTotals (items (cart w)))] /\
     validation_errors props (shipping (form w)) (billing (form w)) = ∅ /\
     items (cart w) <> [])).
  { subst calls. unfold submit_effects.
    destruct (decide (validation_errors props (shipping (form w))
                                        (billing (form w)) = ∅)) as [Hv|Hv].
    - destruct (items (cart w)) as [|x l] eqn:Hc.
      + left. rewrite handleSubmit_empty_cart by assumption. simpl.
        rewrite drop_all. split; [reflexivity|]. intros [_ H]. congruence.
      + right. assert (Hne : items (cart w) <> []) by congruence.
        fold (submit_effects env props w).
        rewrite (submit_effects_called env props w Hv Hne), Hc.
        split; [|split; [exact Hv | discriminate]].
        fold formData. cbn [List.filter is_create_order].
        rewrite after_call_no_create_order. reflexivity.
    - left. rewrite handleSubmit_invalid by assumption. simpl.
      rewrite drop_all. split; [reflexivity|]. tauto. }
  rewrite <- validation_errors_empty_iff.
  split; [|split; [|split]].
  - destruct Hcases as [[-> _] | [-> _]]; simpl; lia.
  - destruct Hcases as [[-> H] | [-> H]]; split; try tauto; discriminate.
  - destruct Hcases as [[-> _] | [-> _]]; [congruence | reflexivity].
  - subst formData. unfold formData_of. simpl.
    split; [reflexivity|]. split; [intros ->; reflexivity|].
    split; [intros ->; reflexivity | reflexivity].
Qed.

Lemma order_creation_call_witness :
  let w := {| cart := scenario_cart; form := valid_form; log := [] |} in
  List.filter is_create_order
    (submit_effects sample_platform rejecting_props w) <> [].
Proof.
  intros w.
  apply (proj1 (proj2 (order_creation_call sample_platform rejecting_props w))).
  split; [split; [vm_compute; reflexivity | discriminate] | discriminate].
Defined.

(** ** The quantity controls *)

Example parseInt10_examples :
  parseInt10 "12" = of_Z 12 /\ parseInt10 "  7 items" = of_Z 7 /\
  parseInt10 "-3" = of_Z (-3) /\ parseInt10 "+4.9" = of_Z 4 /\
  parseInt10 "" = S754_nan /\ parseInt10 "abc" = S754_nan /\
  parseInt10 "-" = S754_nan /\
  parseInt10 "0" = of_Z 0 /\ parseInt10 "007" = of_Z 7 /\
  parseInt10 "-0" = S754_zero true /\
  parseInt10 "9007199254740993" = of_Z 9007199254740992.
Proof. vm_compute. repeat split. Qed.

Lemma gtb_not_leb (x y : number) :
  (x >? y)%num = true -> (x <=? y)%num = false.
Proof. apply ltb_not_geb. Qed.

Lemma leb_not_gtb (x y : number) :
  (x <=? y)%num = true -> (x >? y)%num = false.
Proof.
  unfold leb, gtb. intros H. destruct (y <? x)%num eqn:E; [|reflexivity].
  apply ltb_not_geb in E. congruence.
Qed.

Lemma one_at_least_one : at_least_one (of_Z 1).
Proof. split; reflexivity. Qed.

Lemma whole_at_least_one (z : Z) : 0 < z -> at_least_one (of_Z z).
Proof. intros H. split; [apply of_Z_valid | apply of_Z_positive, H]. Qed.

Lemma at_least_one_positive (q : number) :
  valid q = true -> (q >=? of_Z 1)%num = true -> (q >? of_Z 0)%num = true.
Proof.
  intros V G. destruct (at_least_one_inv q (conj V G)) as [N S].
  destruct N as [[s E]|[E|(m & e & E)]]; rewrite E in *.
  - specialize (S eq_refl). cbn in S.
    pose proof (pow2_pos 1074 ltac:(lia)). lia.
  - reflexivity.
  - reflexivity.
Qed.

Lemma digit_value_nonneg (c : ascii) : is_digit c = true -> 0 <= digit_value c.
Proof.
  unfold is_digit, ascii_in, digit_value. intros H.
  apply andb_true_iff in H as [H _]. apply N.leb_le in H. lia.
Qed.

Lemma read_digits_nonneg (w : list ascii) (acc : Z) (n : nat) :
  0 <= acc -> 0 <= fst (read_digits w acc n).
Proof.
  revert acc n. induction w as [|c w IH]; intros acc n H; simpl; [exact H|].
  destruct (is_digit c) eqn:E; [|exact H].
  apply IH. pose proof (digit_value_nonneg c E). lia.
Qed.

Lemma opp_whole_not_positive (v : Z) :
  0 <= v -> (SFopp (of_Z v) >? of_Z 0)%num = false.
Proof.
  intros H. destruct (Z.eq_dec v 0) as [->|Hv]; [reflexivity|].
  destruct (positive_inv (of_Z v)) as [E|(m & e & E)];
    [apply of_Z_positive; lia | |]; rewrite E; reflexivity.
Qed.

(** A positive result of [parseInt] is at least one. *)
Lemma parseInt10_positive (text : string) :
  (parseInt10 text >? of_Z 0)%num = true -> at_least_one (parseInt10 text).
Proof.
  unfold parseInt10.
  destruct (match trimStart (list_ascii_of_string text) with
            | c :: w' =>
                if Ascii.eqb c "-" then (true, w')
                else if Ascii.eqb c "+" then (false, w')
                else (false, trimStart (list_ascii_of_string text))
            | [] => (false, trimStart (list_ascii_of_string text))
            end) as [negative w].
  pose proof (read_digits_nonneg w 0 0 ltac:(lia)) as Hv.
  destruct (read_digits w 0 0) as [v n]. simpl in Hv.
  destruct (Nat.eqb n 0); [discriminate|].
  destruct negative.
  - rewrite opp_whole_not_positive by exact Hv. discriminate.
  - intros H. apply whole_at_least_one.
    destruct (Z_lt_le_dec 0 v) as [Hp|Hn]; [exact Hp|].
    rewrite of_Z_not_positive in H by exact Hn. discriminate H.
Qed.

Lemma in_quantities_positive (its : list CartItem) (item : CartItem) :
  quantities_positive its -> In item its -> at_least_one (quantity item).
Proof.
  unfold quantities_positive. rewrite List.Forall_forall. intros H Hin.
  apply (H item Hin).
Qed.

(** X14. In a cart whose lines have quantity at least 1, none of the
    quantity controls of a line removes a line: the plus and minus buttons
    and the quantity box dispatch at most an UpdateQuantity with a
    positive quantity for the line's own key, so the keys stay as they
    are. The plus button and the quantity box set a quantity of at least
    1. The minus button dispatches only above 1 and then sets the quantity
    less 1, which is at least 1 for a whole quantity and may lie between 0
    and 1 for another: from 1.5 it sets 0.5. The minus button at a
    quantity of at most 1 and a box text that does not read as a positive
    number dispatch nothing. Only the remove handler takes the line
    out. *)
Theorem quantity_controls_keep_line
    (s : CartState) (item : CartItem) (text : string) (a : CartAction) :
  quantities_positive (items s) -> In item (items s) ->
  In a (handleIncrement item ++ handleDecrement item
        ++ handleQuantityChange item text) ->
  (exists q, a = UPDATE_QUANTITY (itemKey item) q /\
             valid q = true /\ (q >? of_Z 0)%num = true) /\
  keys (items (cartReducer s a)) = keys (items s) /\
  (In a (handleIncrement item ++ handleQuantityChange item text) ->
   quantity_respecting a /\
   quantities_positive (items (cartReducer s a))) /\
  (forall z : Z,
     quantity item = of_Z z -> 1 <= z <= 2 ^ 53 ->
     In a (handleDecrement item) ->
     2 <= z /\ a = UPDATE_QUANTITY (itemKey item) (of_Z (z - 1)) /\
     quantities_positive (items (cartReducer s a))) /\
  (let half := {| product := sample_product; quantity := dec 3 2;
                  itemKey := "1" |} in
   handleDecrement half = [UPDATE_QUANTITY "1" (dec 1 2)] /\
   (dec 1 2 >=? of_Z 1)%num = false) /\
  ((quantity item <=? of_Z 1)%num = true -> handleDecrement item = []) /\
  ((parseInt10 text >? of_Z 0)%num = false ->
   handleQuantityChange item text = []) /\
  ~ In (itemKey item)
       (keys (items (run (handleRemove item) s))).
Proof.
  intros Hpos Hin Ha.
  pose proof (in_quantities_positive _ _ Hpos Hin) as Hq.
  pose proof Hq as [Vq _].
  assert (Hinc : at_least_one (quantity item + of_Z 1)%num).
  { apply add_at_least_one;
      [exact Vq | apply at_least_one_not_negative, Hq | apply one_at_least_one]. }
  assert (Hplus : In a (handleIncrement item ++ handleQuantityChange item text)
                  -> exists q, a = UPDATE_QUANTITY (itemKey item) q /\
                               at_least_one q).
  { intros H. apply in_app_or in H as [H | H].
    - destruct H as [<- | []]. eexists. split; [reflexivity | exact Hinc].
    - unfold handleQuantityChange in H.
      destruct (parseInt10 text >? of_Z 0)%num eqn:E;
        [|rewrite andb_false_r in H; destruct H].
      destruct (negb _); [|destruct H]. destruct H as [<- | []].
      eexists. split; [reflexivity | apply parseInt10_positive, E]. }
  assert (Hupd : exists q, a = UPDATE_QUANTITY (itemKey item) q /\
                           valid q = true /\ (q >? of_Z 0)%num = true).
  { apply in_app_or in Ha as [Ha | Ha]; [|apply in_app_or in Ha as [Ha | Ha]].
    - destruct Hplus as (q & -> & Vq' & Gq); [apply in_or_app; left; exact Ha|].
      exists q. split; [reflexivity|]. split; [exact Vq'|].
      apply at_least_one_positive; assumption.
    - unfold handleDecrement in Ha.
      destruct (quantity item >? of_Z 1)%num eqn:E; [|destruct Ha].
      destruct Ha as [<- | []]. eexists. split; [reflexivity|].
      split; [apply sub_valid; [exact Vq | reflexivity]|].
      apply sub_smaller_positive; [exact Vq | reflexivity | exact E].
    - destruct Hplus as (q & -> & Vq' & Gq); [apply in_or_app; right; exact Ha|].
      exists q. split; [reflexivity|]. split; [exact Vq'|].
      apply at_least_one_positive; assumption. }
  split; [exact Hupd|].
  split.
  { destruct Hupd as (q & -> & _ & Gq).
    apply update_keeps_keys, gtb_not_leb, Gq. }
  split.
  { intros H. destruct (Hplus H) as (q & -> & Vq' & Gq).
    assert (R : quantity_respecting (UPDATE_QUANTITY (itemKey item) q))
      by (split; [exact Vq' | right; exact Gq]).
    split; [exact R | apply reducer_keeps_quantities; [exact R | exact Hpos]]. }
  split.
  { intros z Ez Hz Hd. unfold handleDecrement in Hd.
    destruct (quantity item >? of_Z 1)%num eqn:E; [|destruct Hd].
    destruct Hd as [<- | []]. rewrite Ez in E |- *.
    unfold gtb in E. rewrite of_Z_ltb in E by lia. apply Z.ltb_lt in E.
    split; [lia|]. unfold updateQuantity. rewrite sub_exact by lia.
    split; [reflexivity|].
    apply reducer_keeps_quantities; [|exact Hpos].
    split; [apply of_Z_valid | right; apply of_Z_positive; lia]. }
  split; [vm_compute; split; reflexivity|].
  split.
  { intros H. unfold handleDecrement. rewrite leb_not_gtb by exact H.
    reflexivity. }
  split.
  { intros H. unfold handleQuantityChange. cbv zeta. rewrite H, andb_false_r.
    reflexivity. }
  apply removed_key_absent.
Qed.

Lemma quantity_controls_keep_line_witness :
  let item := {| product := sample_product; quantity := of_Z 1;
                 itemKey := "1" |} in
  let three := {| product := sample_product; quantity := of_Z 3;
                  itemKey := "1" |} in
  let s3 := {| items := [three]; isOpen := false; isLoading := false |} in
  (handleDecrement item = [] /\
   keys (items (cartReducer scenario_cart (UPDATE_QUANTITY "1" (of_Z 12))))
     = ["1"]) /\
  (handleDecrement three = [UPDATE_QUANTITY "1" (of_Z 2)] /\
   quantities_positive
     (items (cartReducer s3 (UPDATE_QUANTITY "1" (of_Z 2))))).
Proof.
  intros item three s3. split.
  - assert (Hpos : quantities_positive (items scenario_cart))
      by (repeat constructor).
    assert (Hin : In item (items scenario_cart)) by (left; reflexivity).
    assert (Ha : In (UPDATE_QUANTITY "1" (of_Z 12))
                    (handleIncrement item ++ handleDecrement item
                     ++ handleQuantityChange item "12")).
    { right. left. reflexivity. }
    destruct (quantity_controls_keep_line scenario_cart item "12" _
                Hpos Hin Ha) as (_ & Hk & _ & _ & _ & Hd & _).
    split; [apply Hd; reflexivity | exact Hk].
  - assert (Hpos : quantities_positive (items s3)) by (repeat constructor).
    assert (Hin : In three (items s3)) by (left; reflexivity).
    assert (Ha : In (UPDATE_QUANTITY "1" (of_Z 2))
                    (handleIncrement three ++ handleDecrement three
                     ++ handleQuantityChange three "")).
    { right. left. reflexivity. }
    destruct (quantity_controls_keep_line s3 three "" _ Hpos Hin Ha)
      as (_ & _ & _ & Hw & _).
    destruct (Hw 3 eq_refl ltac:(lia) ltac:(left; reflexivity))
      as (_ & _ & Hq).
    split; [reflexivity | exact Hq].
Defined.

(** ** The add-to-cart button *)

Lemma increment_at_least_one (q : number) :
  at_least_one q -> at_least_one (incrementQuantity q).
Proof.
  intros H. apply add_at_least_one;
    [apply H | apply at_least_one_not_negative, H | apply one_at_least_one].
Qed.

Lemma decrement_at_least_one (q : number) :
  valid q = true -> q <> S754_nan -> at_least_one (decrementQuantity q).
Proof.
  intros V N. apply max_one_at_least_one.
  - apply sub_valid; [exact V | reflexivity].
  - apply sub_finite_not_nan; [exact N | reflexivity].
Qed.

Lemma add_item_isLoading (s : CartState) (p : Product) (q : number) :
  isLoading (cartReducer s (ADD_ITEM p q)) = isLoading s.
Proof.
  simpl. destruct (0 <=? _); [destruct (_ !! _)|]; reflexivity.
Qed.

Lemma handleAddToCart_items (props : AddToCartButtonProps) (st : ButtonState) :
  items (b_cart (handleAddToCart props st)) =
  items (cartReducer (b_cart st)
                     (ADD_ITEM (btn_product props) (b_quantity st))) /\
  b_quantity (handleAddToCart props st) = b_quantity st /\
  b_isAdding (handleAddToCart props st) = true.
Proof.
  unfold handleAddToCart, addItem. cbn [nullish].
  destruct (btn_onAdd props) as [f|];
    [destruct (f (btn_product props) (b_quantity st))|];
    cbn [b_cart b_quantity b_isAdding];
    try destruct (btn_openCartOnAdd props ?? true);
    repeat split.
Qed.

(** The quantity shown and the quantities of the cart stay at least one
    through one event. *)
Lemma button_step_keeps (props : AddToCartButtonProps) (st : ButtonState)
    (ev : ButtonEvent) :
  at_least_one (b_quantity st) /\ quantities_positive (items (b_cart st)) ->
  at_least_one (b_quantity (button_step props st ev)) /\
  quantities_positive (items (b_cart (button_step props st ev))).
Proof.
  intros [Hq Hc]. destruct ev; unfold button_step; cbv zeta.
  - destruct (_ && _); [|auto]. cbn [b_quantity b_cart].
    split; [apply increment_at_least_one, Hq | exact Hc].
  - destruct (_ && _); [|auto]. cbn [b_quantity b_cart].
    split; [|exact Hc].
    apply decrement_at_least_one; [apply Hq | apply at_least_one_not_nan, Hq].
  - destruct (negb _); [|auto].
    destruct (handleAddToCart_items props st) as (E1 & E2 & _).
    rewrite E1, E2. split; [exact Hq|].
    apply (reducer_keeps_quantities (b_cart st) (ADD_ITEM _ _) Hq Hc).
  - destruct (b_timers st); auto.
Qed.

(** X15. The add-to-cart button, started with a quantity prop of at least
    1 or without one, never shows a quantity below 1 whatever is clicked
    and whenever its timers fire, and a cart whose lines have quantity at
    least 1 keeps that through its clicks. The minus control never goes
    below 1, even from a lower value. While [disabled] is set no click
    does anything, and while the button is busy (from a click until its
    timer fires) a further click on it adds nothing. A click on the idle
    button adds the quantity shown to the cart, once, and makes the button
    busy; it opens the drawer unless [openCartOnAdd] is false or [onAdd]
    throws, in which case the drawer flag is left alone. In a cart of whole
    quantities the click raises the item count by the whole quantity shown,
    as long as the new count is at most 2^53. *)
Theorem add_button_quantity (props : AddToCartButtonProps)
    (events : list ButtonEvent) (c : CartState) :
  at_least_one (initialQuantity props) -> quantities_positive (items c) ->
  let disabled := btn_disabled props ?? false in
  at_least_one (b_quantity (button_run props events c)) /\
  quantities_positive (items (b_cart (button_run props events c))) /\
  (forall q, valid q = true -> q <> S754_nan ->
             at_least_one (decrementQuantity q)) /\
  (forall st ev, disabled = true -> ev <> TimerFires ->
                 button_step props st ev = st) /\
  (forall st, b_isAdding st = true -> button_step props st ClickAdd = st) /\
  (forall st,
     disabled = false -> b_isAdding st = false ->
     let st' := button_step props st ClickAdd in
     let thrown := match btn_onAdd props with
                   | Some f => match f (btn_product props) (b_quantity st) with
                               | Throws _ => true
                               | Returns => false
                               end
                   | None => false
                   end in
     items (b_cart st') =
       items (cartReducer (b_cart st)
                (ADD_ITEM (btn_product props) (b_quantity st))) /\
     isLoading (b_cart st') = isLoading (b_cart st) /\
     isOpen (b_cart st') =
       (if negb thrown && (btn_openCartOnAdd props ?? true) then true
        else isOpen (b_cart st)) /\
     b_quantity st' = b_quantity st /\
     b_isAdding st' = true /\
     b_timers st' = (if thrown then b_timers st else S (b_timers st)) /\
     button_step props st' ClickAdd = st' /\
     (forall (zs : list Z) (z : Z),
        whole_quantities (items (b_cart st)) zs ->
        b_quantity st = of_Z z -> 0 <= z -> sum_Z zs + z <= 2 ^ 53 ->
        itemCount (b_cart st) = of_Z (sum_Z zs) /\
        itemCount (b_cart st') = of_Z (sum_Z zs + z))).
Proof.
  intros Hq Hc disabled. unfold button_run.
  assert (H : forall st,
            at_least_one (b_quantity st) /\
            quantities_positive (items (b_cart st)) ->
            at_least_one
              (b_quantity (fold_left (button_step props) events st)) /\
            quantities_positive
              (items (b_cart (fold_left (button_step props) events st)))).
  { induction events as [|ev l IH]; intros st Hst; [exact Hst|].
    cbn [fold_left]. apply IH, button_step_keeps, Hst. }
  destruct (H (button_start props c) (conj Hq Hc)) as [H1 H2].
  split; [exact H1|]. split; [exact H2|].
  split; [apply decrement_at_least_one|].
  split.
  { intros st ev Hd Hev. unfold button_step. fold disabled. rewrite Hd.
    destruct ev; [| | |congruence];
      rewrite ?orb_true_r; cbn [negb orb]; rewrite ?andb_false_r;
      reflexivity. }
  split.
  { intros st Ha. unfold button_step. rewrite Ha, orb_true_r. reflexivity. }
  intros st Hd Ha.
  assert (E : button_step props st ClickAdd = handleAddToCart props st).
  { unfold button_step. fold disabled. rewrite Hd, Ha. reflexivity. }
  rewrite E. clear E.
  set (thrown := match btn_onAdd props with
                 | Some f => match f (btn_product props) (b_quantity st) with
                             | Throws _ => true
                             | Returns => false
                             end
                 | None => false
                 end).
  assert (Hbusy : b_isAdding (handleAddToCart props st) = true)
    by apply handleAddToCart_items.
  split; [apply handleAddToCart_items|].
  assert (Hflags :
    isLoading (b_cart (handleAddToCart props st)) = isLoading (b_cart st) /\
    isOpen (b_cart (handleAddToCart props st)) =
      (if negb thrown && (btn_openCartOnAdd props ?? true) then true
       else isOpen (b_cart st)) /\
    b_timers (handleAddToCart props st) =
      (if thrown then b_timers st else S (b_timers st))).
  { subst thrown. unfold handleAddToCart, addItem. cbn [nullish].
    pose proof (reducer_not_drawer (b_cart st)
                  (ADD_ITEM (btn_product props) (b_quantity st)) eq_refl)
      as Ho.
    pose proof (add_item_isLoading (b_cart st) (btn_product props)
                  (b_quantity st)) as Hl.
    destruct (btn_onAdd props) as [f|];
      [destruct (f (btn_product props) (b_quantity st))|];
      cbn [b_cart b_timers negb andb];
      try destruct (btn_openCartOnAdd props ?? true);
      cbn [cartReducer isOpen isLoading]; auto. }
  destruct Hflags as (Hl & Ho & Ht).
  split; [exact Hl|]. split; [exact Ho|].
  split; [apply handleAddToCart_items|].
  split; [exact Hbusy|]. split; [exact Ht|].
  split.
  { unfold button_step. rewrite Hbusy, orb_true_r. reflexivity. }
  intros zs z Hw Ez Hz Hsum. unfold itemCount.
  destruct (handleAddToCart_items props st) as (-> & _ & _).
  rewrite Ez. apply item_count_after_add_whole; assumption.
Qed.

Lemma add_button_quantity_witness :
  let props := {| btn_product := sample_product; btn_quantity := None;
                  btn_showQuantitySelector := Some true;
                  btn_openCartOnAdd := None; btn_onAdd := None;
                  btn_disabled := None |} in
  let events := [ClickDecrement; ClickIncrement; ClickAdd; ClickAdd;
                 TimerFires; ClickDecrement; ClickDecrement; ClickAdd] in
  let st := button_step props (button_start props initialState)
                        ClickIncrement in
  (at_least_one (b_quantity (button_run props events initialState)) /\
   quantities_positive
     (items (b_cart (button_run props events initialState)))) /\
  (b_isAdding (button_step props st ClickAdd) = true /\
   itemCount (b_cart (button_step props st ClickAdd)) = of_Z 2).
Proof.
  intros props events st.
  destruct (add_button_quantity props events initialState)
    as (H1 & H2 & _ & _ & _ & H3).
  - apply one_at_least_one.
  - constructor.
  - split; [split; assumption|].
    destruct (H3 st eq_refl eq_refl) as (_ & _ & _ & _ & Hb & _ & _ & Hn).
    split; [exact Hb|].
    apply (Hn [] 2); [constructor | reflexivity | lia | simpl; lia].
Defined.

(** ** Restore and persist *)

(** The three ways the restore effect ends. *)
Lemma hydrateEffect_cases (env : Browser) (storageKey : string)
    (store : gmap string string) :
  (hydrateEffect env storageKey store = Some (SET_LOADING false) /\
   (storage_readable env = false \/ store !! storageKey = None \/
    store !! storageKey = Some "" \/
    exists stored, store !! storageKey = Some stored /\
                   json_parse env stored = ParseThrows)) \/
  (exists stored its,
     storage_readable env = true /\ store !! storageKey = Some stored /\
     stored <> "" /\ json_parse env stored = ParsedLines its /\
     hydrateEffect env storageKey store = Some (HYDRATE its)) \/
  (exists stored,
     storage_readable env = true /\ store !! storageKey = Some stored /\
     stored <> "" /\ json_parse env stored = ParsedOther /\
     hydrateEffect env storageKey store = None).
Proof.
  unfold hydrateEffect.
  destruct (storage_readable env);
    [|left; split; [reflexivity | left; reflexivity]].
  destruct (store !! storageKey) as [stored|];
    [|left; split; [reflexivity | right; left; reflexivity]].
  unfold truthy. destruct (String.eqb stored "") eqn:E; simpl.
  { apply String.eqb_eq in E. subst.
    left. split; [reflexivity | right; right; left; reflexivity]. }
  apply String.eqb_neq in E.
  destruct (json_parse env stored) as [|its|] eqn:Hp.
  - left. split; [reflexivity|]. right. right. right.
    exists stored. split; [reflexivity | exact Hp].
  - right. left. exists stored, its. repeat (split; [assumption || reflexivity|]).
    reflexivity.
  - right. right. exists stored. repeat (split; [assumption || reflexivity|]).
    reflexivity.
Qed.

Lemma persistEffect_other_keys (env : Browser) (storageKey : string)
    (s : CartState) (store : gmap string string) (k : string) :
  k <> storageKey -> persistEffect env storageKey s store !! k = store !! k.
Proof.
  intros Hk. unfold persistEffect. destruct (negb _); [|reflexivity].
  destruct (setItem_ok env storageKey _); [|reflexivity].
  apply lookup_insert_ne. congruence.
Qed.

(** A mount that leaves a cart state leaves it loaded, and has written at
    most under the storage key. *)
Lemma mount_some (env : Browser) (storageKey : string)
    (store : gmap string string) (s : CartState)
    (store' : gmap string string) :
  mount env storageKey store = Some (s, store') ->
  isLoading s = false /\ isOpen s = false /\
  store' = persistEffect env storageKey s store /\
  (hydrateEffect env storageKey store = Some (SET_LOADING false) /\
   items s = [] \/
   hydrateEffect env storageKey store = Some (HYDRATE (items s))).
Proof.
  unfold mount.
  destruct (hydrateEffect_cases env storageKey store)
    as [[E _] | [(stored & its & _ & _ & _ & _ & E) | (stored & _ & _ & _ & _ & E)]];
    rewrite E; intros H; [| |discriminate H];
    injection H as <- <-;
    (split; [reflexivity|]); (split; [reflexivity|]);
    (split; [reflexivity|]);
    [left; split; reflexivity | right; reflexivity].
Qed.

Lemma mount_hydrates (env : Browser) (storageKey : string)
    (store : gmap string string) (stored : string) (its : list CartItem) :
  storage_readable env = true -> store !! storageKey = Some stored ->
  stored <> "" -> json_parse env stored = ParsedLines its ->
  option_map (fun m => items (fst m)) (mount env storageKey store) = Some its.
Proof.
  intros Hr Hs Hne Hp. unfold mount, hydrateEffect, truthy.
  apply String.eqb_neq in Hne. rewrite Hr, Hs, Hne, Hp. reflexivity.
Qed.

(** X16. Mounting the provider ends the loading phase, whatever the
    storage holds, with one exception: the stored lines are installed when
    the storage can be read and holds, under the storage key, a non-empty
    text that parses to a list of lines; the cart starts empty when the
    storage is not readable, has no entry, holds the empty text or a text
    that does not parse. The exception is a non-empty text that parses to
    a value that is no list of lines: the value is installed unchecked, and
    the provider holds no cart state after that. Nothing is written while
    the cart is loading, and no other key of the storage is ever written. *)
Theorem mount_restores (env : Browser) (storageKey : string)
    (store : gmap string string) :
  (mount env storageKey store = None <->
   storage_readable env = true /\
   exists stored, store !! storageKey = Some stored /\ stored <> "" /\
                  json_parse env stored = ParsedOther) /\
  (forall s store',
     mount env storageKey store = Some (s, store') ->
     isLoading s = false /\ isOpen s = false /\
     (forall stored its,
        storage_readable env = true -> store !! storageKey = Some stored ->
        stored <> "" -> json_parse env stored = ParsedLines its ->
        items s = its) /\
     ((storage_readable env = false \/ store !! storageKey = None \/
       store !! storageKey = Some "" \/
       (exists stored, store !! storageKey = Some stored /\
                       json_parse env stored = ParseThrows)) ->
      items s = []) /\
     (forall k, k <> storageKey -> store' !! k = store !! k)) /\
  persistEffect env storageKey initialState store = store.
Proof.
  split; [|split; [|reflexivity]].
  - unfold mount.
    destruct (hydrateEffect_cases env storageKey store)
      as [[E H] | [(stored & its & Hr & Hs & Hne & Hp & E)
                  | (stored & Hr & Hs & Hne & Hp & E)]]; rewrite E.
    + split; [discriminate|]. intros (Hr & stored & Hs & Hne & Hp).
      exfalso. destruct H as [H | [H | [H | (x & H1 & H2)]]]; congruence.
    + split; [discriminate|]. intros (_ & stored' & Hs' & _ & Hp').
      exfalso. congruence.
    + split; [|reflexivity]. intros _. split; [exact Hr|].
      exists stored. auto.
  - intros s store' Hm.
    destruct (mount_some _ _ _ _ _ Hm) as (Hl & Ho & -> & Hcase).
    split; [exact Hl|]. split; [exact Ho|].
    split; [|split].
    + intros stored its Hr Hs Hne Hp.
      pose proof (mount_hydrates env storageKey store stored its
                    Hr Hs Hne Hp) as E.
      rewrite Hm in E. injection E as E. exact E.
    + intros H.
      destruct (hydrateEffect_cases env storageKey store)
        as [[E _] | [(stored & its & Hr & Hs & Hne & Hp & E)
                    | (stored & Hr & Hs & Hne & Hp & E)]].
      * unfold mount in Hm. rewrite E in Hm. injection Hm as <- _.
        reflexivity.
      * exfalso. destruct H as [H | [H | [H | (x & H1 & H2)]]]; congruence.
      * exfalso. destruct H as [H | [H | [H | (x & H1 & H2)]]]; congruence.
    + intros k Hk. apply persistEffect_other_keys, Hk.
Qed.

Lemma mount_restores_witness :
  option_map (fun m => items (fst m))
    (mount sample_browser "cart_items" {[ "cart_items" := "[3]" ]}) =
    Some (sample_lines 3) /\
  option_map (fun m => items (fst m)) (mount sample_browser "cart_items" ∅) =
    Some [] /\
  mount sample_browser "cart_items" {[ "cart_items" := "null" ]} = None.
Proof.
  split; [|split].
  - destruct (mount sample_browser "cart_items" {[ "cart_items" := "[3]" ]})
      as [[s store']|] eqn:E; [|vm_compute in E; discriminate E].
    cbn [option_map fst]. f_equal.
    refine (proj1 (proj2 (proj2
             (proj1 (proj2 (mount_restores sample_browser "cart_items"
                              {[ "cart_items" := "[3]" ]})) s store' E)))
             "[3]" _ _ _ _ _); try reflexivity. discriminate.
  - destruct (mount sample_browser "cart_items" ∅)
      as [[s store']|] eqn:E; [|vm_compute in E; discriminate E].
    cbn [option_map fst]. f_equal.
    refine (proj1 (proj2 (proj2 (proj2
             (proj1 (proj2 (mount_restores sample_browser "cart_items" ∅))
                    s store' E)))) _).
    right. left. reflexivity.
  - apply (proj1 (mount_restores sample_browser "cart_items"
                    {[ "cart_items" := "null" ]})).
    split; [reflexivity|]. exists "null".
    split; [reflexivity|]. split; [discriminate | reflexivity].
Defined.

Lemma session_state (env : Browser) (storageKey : string)
    (actions : list CartAction) (st : CartState * gmap string string) :
  fst (fold_left (provider_step env storageKey) actions st) =
  run actions (fst st).
Proof.
  revert st. induction actions as [|a l IH]; intros [s store]; simpl.
  - reflexivity.
  - rewrite IH. reflexivity.
Qed.

Lemma session_other_keys (env : Browser) (storageKey : string)
    (actions : list CartAction) (st : CartState * gmap string string)
    (k : string) :
  k <> storageKey ->
  snd (fold_left (provider_step env storageKey) actions st) !! k =
  snd st !! k.
Proof.
  intros Hk. revert st.
  induction actions as [|a l IH]; intros [s st]; simpl; [reflexivity|].
  rewrite IH. simpl. destruct (persist_runs s a); [|reflexivity].
  apply persistEffect_other_keys, Hk.
Qed.

(** While every write goes through and the loading flag stays down, the
    storage holds the text of the current lines after every step. *)
Lemma session_stored (env : Browser) (storageKey : string)
    (actions : list CartAction) :
  (forall k text, setItem_ok env k text = true) ->
  Forall (fun a => a <> SET_LOADING true) actions ->
  forall st : CartState * gmap string string,
    isLoading (fst st) = false ->
    snd st !! storageKey = Some (json_stringify env (items (fst st))) ->
    let st' := fold_left (provider_step env storageKey) actions st in
    isLoading (fst st') = false /\
    snd st' !! storageKey = Some (json_stringify env (items (fst st'))).
Proof.
  intros Hok Hact.
  induction Hact as [|a l Ha _ IH]; intros [s st] Hl Hst; simpl in *;
    [auto|].
  apply IH; simpl.
  - apply line_command_not_loading; assumption.
  - destruct (persist_runs s a) eqn:Hp.
    + unfold persistEffect.
      rewrite (line_command_not_loading s a Hl Ha), Hok. simpl.
      apply lookup_insert_eq.
    + destruct a as [p q|key|key q| | | | |b|its]; try discriminate Hp;
        simpl; exact Hst.
Qed.

(** X17. The cart in memory does not depend on the storage: once the mount
    has left a cart state, a session's state is the reducer run on the
    dispatched actions, whether or not the writes go through (and a
    session has a cart state exactly when its mount has one). No key other
    than the storage key is changed. When every write goes through and no
    action sets the loading flag, the storage holds, under the storage
    key, the text of the current lines after every step; so a provider
    mounted later on that storage starts with the same lines, provided the
    text of these lines is not empty and parses back to them. *)
Theorem session_persists (env : Browser) (storageKey : string)
    (store : gmap string string) (actions : list CartAction) :
  option_map fst (session env storageKey store actions) =
    option_map (fun m => run actions (fst m)) (mount env storageKey store) /\
  (forall s store',
     session env storageKey store actions = Some (s, store') ->
     (forall k, k <> storageKey -> store' !! k = store !! k) /\
     ((forall k text, setItem_ok env k text = true) ->
      Forall (fun a => a <> SET_LOADING true) actions ->
      isLoading s = false /\
      store' !! storageKey = Some (json_stringify env (items s)) /\
      (storage_readable env = true ->
       json_stringify env (items s) <> "" ->
       json_parse env (json_stringify env (items s)) = ParsedLines (items s) ->
       option_map (fun m => items (fst m)) (mount env storageKey store') =
         Some (items s)))).
Proof.
  unfold session. split.
  - destruct (mount env storageKey store) as [st|]; [|reflexivity].
    cbn [option_map]. rewrite session_state. reflexivity.
  - intros s store'.
    destruct (mount env storageKey store) as [[s0 store0]|] eqn:Hm;
      [|discriminate].
    intros E. injection E as E.
    destruct (mount_some _ _ _ _ _ Hm) as (Hl & _ & Hst & _).
    split.
    + intros k Hk.
      pose proof (session_other_keys env storageKey actions (s0, store0) k Hk)
        as H.
      rewrite E in H. cbn [snd] in H. rewrite H, Hst.
      apply persistEffect_other_keys, Hk.
    + intros Hok Hact.
      assert (H0 : store0 !! storageKey =
                   Some (json_stringify env (items s0))).
      { rewrite Hst. unfold persistEffect. rewrite Hl, Hok. simpl.
        apply lookup_insert_eq. }
      destruct (session_stored env storageKey actions Hok Hact
                  (s0, store0) Hl H0) as [H1 H2].
      cbv zeta in H1, H2. rewrite E in H1, H2. cbn [fst snd] in H1, H2.
      split; [exact H1|]. split; [exact H2|].
      intros Hr Hne Hparse.
      apply (mount_hydrates env storageKey _ _ _ Hr H2 Hne Hparse).
Qed.

Lemma session_persists_witness :
  let actions := [updateQuantity "1" (of_Z 3); OPEN_CART] in
  match session sample_browser "cart_items" {[ "cart_items" := "[1]" ]}
                actions with
  | Some (s, store') =>
      items s = sample_lines 3 /\
      store' !! "cart_items" = Some "[3]" /\
      option_map (fun m => items (fst m))
                 (mount sample_browser "cart_items" store') =
        Some (sample_lines 3)
  | None => False
  end.
Proof.
  intros actions.
  pose proof (session_persists sample_browser "cart_items"
                {[ "cart_items" := "[1]" ]} actions) as [Hs Hp].
  destruct (session sample_browser "cart_items" {[ "cart_items" := "[1]" ]}
                    actions) as [[s store']|] eqn:E;
    [|vm_compute in Hs; discriminate Hs].
  assert (Es : items s = sample_lines 3).
  { cbn [option_map fst] in Hs. vm_compute in Hs. injection Hs as ->.
    reflexivity. }
  destruct (Hp s store' eq_refl) as [_ H].
  destruct (H (fun _ _ => eq_refl) ltac:(repeat constructor; discriminate))
    as (_ & H2 & H3).
  rewrite Es in H2, H3.
  split; [exact Es|]. split; [exact H2|].
  apply H3; [reflexivity | discriminate | reflexivity].
Defined.

(** ** Pricing: amounts are never negative *)

Lemma subtotal_not_negative (its : list CartItem) :
  Forall priced_line its -> not_negative (calculateSubtotal its).
Proof.
  unfold calculateSubtotal.
  assert (H : forall acc, not_negative acc -> Forall priced_line its ->
            not_negative
              (fold_left
                 (fun sum item =>
                    (sum + price (product item) * quantity item)%num)
                 its acc)).
  { induction its as [|item its IH]; intros acc Hacc Hits; simpl.
    - exact Hacc.
    - apply Forall_cons in Hits as [(Hv & Hfin & Hge & Vq & Fq & Gq) Hits].
      apply IH; [|exact Hits]. apply add_not_negative; [exact Hacc|].
      apply mul_not_negative.
      + exact Hv.
      + exact Vq.
      + apply geb_zero_not_negative, Hge.
      + apply geb_zero_not_negative, Gq.
      + left. split; assumption. }
  intros Hits. apply H; [left; exists false; reflexivity | exact Hits].
Qed.

Lemma priced_lines_valid (its : list CartItem) :
  Forall priced_line its -> lines_valid its.
Proof.
  unfold lines_valid. intros H. eapply List.Forall_impl; [|exact H].
  intros item Hl. split; apply Hl.
Qed.

(** X18. In a cart whose prices and quantities are finite and not negative
    (whole quantities from 0 to 2^53 are so, and so are fractional ones),
    the subtotal, the shipping cost, the tax and the total computed by
    calculateTotals are all at least 0 in binary64 arithmetic; in
    particular none of them is NaN. (A sum that overflows is +Infinity,
    which is still at least 0.) *)
Theorem totals_never_negative (its : list CartItem) :
  Forall priced_line its ->
  let t := calculateTotals its in
  (t_subtotal t >=? of_Z 0)%num = true /\
  (t_shippingCost t >=? of_Z 0)%num = true /\
  (t_tax t >=? of_Z 0)%num = true /\
  (t_total t >=? of_Z 0)%num = true.
Proof.
  intros Hits t. subst t. unfold calculateTotals. simpl.
  pose proof (subtotal_not_negative its Hits) as Hsub.
  pose proof (subtotal_valid its (priced_lines_valid its Hits)) as Hval.
  set (subtotal := calculateSubtotal its) in *.
  assert (Hship : not_negative (calculateShipping subtotal)).
  { unfold calculateShipping. destruct (subtotal >=? of_Z 50)%num.
    - left. exists false. reflexivity.
    - right. right. rewrite literal_5_99. eauto. }
  assert (Htax : not_negative (calculateTax subtotal)).
  { unfold calculateTax. apply mul_not_negative.
    - exact Hval.
    - vm_compute. reflexivity.
    - exact Hsub.
    - right. right. rewrite literal_0_08. eauto.
    - rewrite literal_0_08.
      destruct Hsub as [[s ->]|[->|(m & e & ->)]].
      + left. split; reflexivity.
      + right. split; intros s; discriminate.
      + left. split; reflexivity. }
  split; [apply geb_zero_not_negative, Hsub|].
  split; [apply geb_zero_not_negative, Hship|].
  split; [apply geb_zero_not_negative, Htax|].
  apply geb_zero_not_negative.
  apply add_not_negative; [apply add_not_negative|]; assumption.
Qed.

Lemma totals_never_negative_witness :
  (t_total (calculateTotals (items scenario_cart)) >=? of_Z 0)%num = true.
Proof.
  refine (proj2 (proj2 (proj2
            (totals_never_negative (items scenario_cart) _)))).
  repeat constructor; vm_compute; congruence.
Defined.

Lemma sub_zero (x : number) : (x - of_Z 0)%num = x.
Proof. destruct x as [[]|[]| |s m e]; reflexivity. Qed.

(** X19. An order summary drawn without a shipping override, a tax
    override or a discount shows exactly the four amounts of
    calculateTotals, the ones the checkout form hands to the
    order-creation collaborator: subtracting the default discount 0 changes
    nothing, whatever the amounts are (NaN and the infinities included). *)
Theorem summary_defaults_match_totals (its : list CartItem) :
  let summary := orderSummaryTotals its None None None in
  let t := calculateTotals its in
  s_subtotal summary = t_subtotal t /\
  s_shippingCost summary = t_shippingCost t /\
  s_tax summary = t_tax t /\
  s_total summary = t_total t.
Proof.
  intros summary t. subst summary t. unfold orderSummaryTotals.
  cbn [s_subtotal s_shippingCost s_tax s_total nullish].
  split; [reflexivity|]. split; [reflexivity|]. split; [reflexivity|].
  apply sub_zero.
Qed.
